(** * Water-level visualizer: the client-side time-series cache

    A shallow embedding of the cache wrapper (IndexedDBCache), the smart
    time-series cache built on it (SmartTimeSeriesCache), the view-mode
    navigation context (ViewModeContext) and the data-loading hook
    (useViewModeData), with the properties of these that the specification
    states.

    Conventions.  A JavaScript number that holds a time value, a count or a
    duration is a [Z]; the statistics that are quotients are doubles
    ([float]), computed as the code computes them.  An asynchronous method is
    embedded by its effect on the store once its promise has resolved, and
    the calls of the cache classes are taken one at a time: each has
    resolved before the next is made.  A rejected IndexedDB request is not
    modelled. *)

From stdpp Require Import gmap strings list fin_maps.
From Stdlib Require Import ZArith QArith Lia Ascii String PrimFloat.

Local Open Scope string_scope.
Local Open Scope Z_scope.

(** ** IndexedDBCache: the key-value wrapper with a time-to-live *)

(** [s.includes(sub)]. *)
Fixpoint includes (s sub : string) : bool :=
  String.prefix sub s
  || match s with
     | EmptyString => false
     | String _ rest => includes rest sub
     end.

Module IndexedDBCache.

Section Store.
(** The payload is [any] in the source. *)
Context {D : Type}.

Record CacheEntry : Type := mkCacheEntry {
  key : string;
  data : D;
  timestamp : Z;
  ttl : Z
}.

(** The object store is a map from the entry's [key] (its keyPath) to the
    entry.  [set(key, data, ttl)]: [store.put] of a fresh entry stamped with
    [Date.now()]. *)
Definition set (st : gmap string CacheEntry) (k : string) (d : D) (t : Z)
    (now : Z) : gmap string CacheEntry :=
  <[k := mkCacheEntry k d now t]> st.

(** [delete(key)]. *)
Definition delete (st : gmap string CacheEntry) (k : string)
    : gmap string CacheEntry :=
  base.delete k st.

(** [get(key)]: the payload, or [null] when the key is absent or the entry
    has expired; an expired entry is deleted. *)
Definition get (st : gmap string CacheEntry) (k : string) (now : Z)
    : option D * gmap string CacheEntry :=
  match st !! k with
  | None => (None, st)
  | Some entry =>
      if now >? timestamp entry + ttl entry
      then (None, delete st k)
      else (Some (data entry), st)
  end.

(** [clear()]. *)
Definition clear (st : gmap string CacheEntry) : gmap string CacheEntry := ∅.

(** [getAllKeys()]. *)
Definition getAllKeys (st : gmap string CacheEntry) : list string :=
  (map_to_list st).*1.

(** [size()]: [store.count()]. *)
Definition size (st : gmap string CacheEntry) : Z :=
  Z.of_nat (base.size st).

(** [getByWellNumber(wellNumber)]: the keys that contain the well number are
    read one after the other (which drops the expired ones), and the entries
    with a truthy payload are returned.  [isTruthy] is the truthiness of a
    payload. *)
Variable isTruthy : D -> bool.

Definition getByWellNumber (st : gmap string CacheEntry) (wellNumber : string)
    (now : Z) : list (string * D) * gmap string CacheEntry :=
  let keys := getAllKeys st in
  let wellKeys := List.filter (fun k => includes k wellNumber) keys in
  fold_left
    (fun (acc : list (string * D) * gmap string CacheEntry) k =>
       match get acc.2 k now with
       | (Some d, st') =>
           if isTruthy d then ((acc.1 ++ [(k, d)])%list, st') else (acc.1, st')
       | (None, st') => (acc.1, st')
       end)
    wellKeys ([], st).

(** The keys of the three named kinds of entries. *)
Definition dailyOverviewKey (databaseId wellNumber : string) : string :=
  "daily_overview:" +:+ databaseId +:+ ":" +:+ wellNumber.

Definition wellStatisticsKey (databaseId wellNumber : string) : string :=
  "well_stats:" +:+ databaseId +:+ ":" +:+ wellNumber.

Definition wellsLocationsKey (databaseId : string) : string :=
  "wells_locations:" +:+ databaseId.

(** The daily overview, kept for 15 minutes. *)
Definition storeDailyOverview (st : gmap string CacheEntry)
    (databaseId wellNumber : string) (d : D) (now : Z)
    : gmap string CacheEntry :=
  set st (dailyOverviewKey databaseId wellNumber) d (15 * 60 * 1000) now.

Definition getDailyOverview (st : gmap string CacheEntry)
    (databaseId wellNumber : string) (now : Z)
    : option D * gmap string CacheEntry :=
  get st (dailyOverviewKey databaseId wellNumber) now.

(** The well statistics, kept for 30 minutes. *)
Definition storeWellStatistics (st : gmap string CacheEntry)
    (databaseId wellNumber : string) (d : D) (now : Z)
    : gmap string CacheEntry :=
  set st (wellStatisticsKey databaseId wellNumber) d (30 * 60 * 1000) now.

Definition getWellStatistics (st : gmap string CacheEntry)
    (databaseId wellNumber : string) (now : Z)
    : option D * gmap string CacheEntry :=
  get st (wellStatisticsKey databaseId wellNumber) now.

(** The locations of the wells, kept for 20 minutes. *)
Definition storeWellsLocations (st : gmap string CacheEntry)
    (databaseId : string) (d : D) (now : Z) : gmap string CacheEntry :=
  set st (wellsLocationsKey databaseId) d (20 * 60 * 1000) now.

Definition getWellsLocations (st : gmap string CacheEntry)
    (databaseId : string) (now : Z) : option D * gmap string CacheEntry :=
  get st (wellsLocationsKey databaseId) now.

(** An entry that [get] would still return at [now]. *)
Definition unexpired (now : Z) (entry : CacheEntry) : bool :=
  negb (now >? timestamp entry + ttl entry).

(** What a read at [now] returns, from what is stored under the key. *)
Definition readAt (now : Z) (o : option CacheEntry) : option D :=
  match o with
  | Some entry => if unexpired now entry then Some (data entry) else None
  | None => None
  end.

End Store.

Arguments CacheEntry : clear implicits.

End IndexedDBCache.


(** ** Dates

    A [Date] is its time value: milliseconds since the epoch.  The calendar
    functions of the platform and of date-fns work in local time; the local
    time zone is taken to be UTC. *)

Module JSDate.

Definition Date : Type := Z.

Definition msPerDay : Z := 86400000.

(** Day number and time within the day of a time value. *)
Definition Day (t : Date) : Z := t / msPerDay.
Definition TimeWithinDay (t : Date) : Z := t mod msPerDay.

(** The proleptic Gregorian calendar: year, month (0-based) and day of the
    month of a day number, and back. *)
Definition civilFromDays (z0 : Z) : Z * Z * Z :=
  let z := z0 + 719468 in
  let era := z / 146097 in
  let doe := z - era * 146097 in
  let yoe := (doe - doe / 1460 + doe / 36524 - doe / 146096) / 365 in
  let doy := doe - (365 * yoe + yoe / 4 - yoe / 100) in
  let mp := (5 * doy + 2) / 153 in
  let d := doy - (153 * mp + 2) / 5 + 1 in
  let m := if mp <? 10 then mp + 3 else mp - 9 in
  let y := yoe + era * 400 + (if m <=? 2 then 1 else 0) in
  (y, m - 1, d).

Definition daysFromCivil (y0 m0 d : Z) : Z :=
  let m := m0 + 1 in
  let y := if m <=? 2 then y0 - 1 else y0 in
  let era := y / 400 in
  let yoe := y - era * 400 in
  let doy := (153 * (if m >? 2 then m - 3 else m + 9) + 2) / 5 + d - 1 in
  let doe := yoe * 365 + yoe / 4 - yoe / 100 + doy in
  era * 146097 + doe - 719468.

Definition getFullYear (t : Date) : Z := (civilFromDays (Day t)).1.1.
Definition getMonth (t : Date) : Z := (civilFromDays (Day t)).1.2.
Definition getDate (t : Date) : Z := (civilFromDays (Day t)).2.
Definition getHours (t : Date) : Z := TimeWithinDay t / 3600000.
Definition getMinutes (t : Date) : Z := (TimeWithinDay t / 60000) mod 60.
Definition getSeconds (t : Date) : Z := (TimeWithinDay t / 1000) mod 60.
Definition getMilliseconds (t : Date) : Z := TimeWithinDay t mod 1000.

(** The month of a date, the months counted from January of the year 0. *)
Definition monthIndex (t : Date) : Z := 12 * getFullYear t + getMonth t.

(** [MakeDay]: a month outside 0..11 carries into the year, a day of the
    month outside the month carries into the neighbouring months. *)
Definition MakeDay (year month date : Z) : Z :=
  daysFromCivil (year + month / 12) (month mod 12) 1 + date - 1.

Definition MakeTime (h m s ms : Z) : Z :=
  h * 3600000 + m * 60000 + s * 1000 + ms.

Definition MakeDate (day time : Z) : Date := day * msPerDay + time.

(** [d.setFullYear(y, m, dt)], [d.setMonth(m, dt)], [d.setMonth(m)],
    [d.setFullYear(y)], [d.setDate(dt)], [d.setHours(h, m, s, ms)]. *)
Definition setFullYear3 (t : Date) (y m dt : Z) : Date :=
  MakeDate (MakeDay y m dt) (TimeWithinDay t).
Definition setMonth2 (t : Date) (m dt : Z) : Date :=
  setFullYear3 t (getFullYear t) m dt.
Definition setMonth (t : Date) (m : Z) : Date :=
  setMonth2 t m (getDate t).
Definition setFullYear (t : Date) (y : Z) : Date :=
  setFullYear3 t y (getMonth t) (getDate t).
Definition setDate (t : Date) (dt : Z) : Date :=
  setMonth2 t (getMonth t) dt.
Definition setHours (t : Date) (h m s ms : Z) : Date :=
  MakeDate (Day t) (MakeTime h m s ms).

(** [new Date(y, m, d, h, mi, s, ms)]: a year from 0 to 99 stands for the
    year 1900 + y. *)
Definition mkDate (y m d h mi s ms : Z) : Date :=
  let yr := if (0 <=? y) && (y <=? 99) then 1900 + y else y in
  MakeDate (MakeDay yr m d) (MakeTime h mi s ms).

(** Decimal digits, fixed width. *)
Definition digitChar (n : Z) : ascii :=
  ascii_of_nat (48 + Z.to_nat (n mod 10)).

Fixpoint padDigits (width : nat) (n : Z) (acc : string) : string :=
  match width with
  | O => acc
  | S w => padDigits w (n / 10) (String (digitChar n) acc)
  end.

Definition pad (width : nat) (n : Z) : string := padDigits width n "".

(** [d.toISOString()]: [YYYY-MM-DDTHH:mm:ss.sssZ], the year with a sign and
    six digits when it is outside 0..9999. *)
Definition isoYear (y : Z) : string :=
  if (0 <=? y) && (y <=? 9999) then pad 4 y
  else if y <? 0 then "-" +:+ pad 6 (- y)
  else "+" +:+ pad 6 y.

Definition isoAfterYear (t : Date) : string :=
  "-" +:+ pad 2 (getMonth t + 1) +:+ "-" +:+
  pad 2 (getDate t) +:+ "T" +:+ pad 2 (getHours t) +:+ ":" +:+
  pad 2 (getMinutes t) +:+ ":" +:+ pad 2 (getSeconds t) +:+ "." +:+
  pad 3 (getMilliseconds t) +:+ "Z".

Definition toISOString (t : Date) : string :=
  isoYear (getFullYear t) +:+ isoAfterYear t.

(** The calendar within one era of 146097 days: the year of the era, the
    month (from 1) and the day of a day of the era, and the day of the era
    of these. *)
Definition yoeOf (doe : Z) : Z :=
  (doe - doe / 1460 + doe / 36524 - doe / 146096) / 365.
Definition doyOf (doe : Z) : Z :=
  doe - (365 * yoeOf doe + yoeOf doe / 4 - yoeOf doe / 100).
Definition mpOf (doe : Z) : Z := (5 * doyOf doe + 2) / 153.
Definition domOf (doe : Z) : Z := doyOf doe - (153 * mpOf doe + 2) / 5 + 1.
Definition monthOf (doe : Z) : Z :=
  if mpOf doe <? 10 then mpOf doe + 3 else mpOf doe - 9.
Definition doeOf (yoe m d : Z) : Z :=
  yoe * 365 + yoe / 4 - yoe / 100
  + ((153 * (if m >? 2 then m - 3 else m + 9) + 2) / 5 + d - 1).

Definition eraDayOk (doe : Z) : bool :=
  let yoe := yoeOf doe in
  let doy := doe - (365 * yoe + yoe / 4 - yoe / 100) in
  let mp := (5 * doy + 2) / 153 in
  let d := doy - (153 * mp + 2) / 5 + 1 in
  let m := if mp <? 10 then mp + 3 else mp - 9 in
  (0 <=? yoe) && (yoe <? 400) && (1 <=? m) && (m <=? 12)
  && (1 <=? d) && (d <=? 31) && (doeOf yoe m d =? doe).

Fixpoint allFrom (f : Z -> bool) (n : nat) (i : Z) : bool :=
  match n with
  | O => true
  | S n' => f i && allFrom f n' (i + 1)
  end.

(** The months counted from January of the year 0: the day number of the
    first day of a month, the number of its days, and the month of a date.
    The two tests say that a month has 28 to 31 days, and that the day of
    the month of a day number is within its month. *)
Definition monthStart (i : Z) : Z := daysFromCivil (i / 12) (i mod 12) 1.

Definition daysInMonth (i : Z) : Z := monthStart (i + 1) - monthStart i.

Definition monthLengthOk (i : Z) : bool :=
  (28 <=? daysInMonth i) && (daysInMonth i <=? 31).

Definition dayInMonthOk (z : Z) : bool :=
  let '(y, m, d) := civilFromDays z in
  z <? monthStart (12 * y + m + 1).

(** The shape of an ISO string: four digits of year, or a sign and six, and
    the fixed rest. *)
Inductive CharClass : Type := Digit | Sign | Lit (c : ascii).

Definition isDigit (c : ascii) : bool :=
  (48 <=? nat_of_ascii c)%nat && (nat_of_ascii c <=? 57)%nat.

Definition charMatches (cl : CharClass) (c : ascii) : bool :=
  match cl with
  | Digit => isDigit c
  | Sign => Ascii.eqb c "+" || Ascii.eqb c "-"
  | Lit c' => Ascii.eqb c c'
  end.

Fixpoint matchesPattern (p : list CharClass) (s : string) : bool :=
  match p, s with
  | [], EmptyString => true
  | cl :: p', String c s' => charMatches cl c && matchesPattern p' s'
  | _, _ => false
  end.

Definition isoRest : list CharClass :=
  [ Lit "-"; Digit; Digit; Lit "-"; Digit; Digit; Lit "T"; Digit; Digit;
    Lit ":"; Digit; Digit; Lit ":"; Digit; Digit; Lit "."; Digit; Digit;
    Digit; Lit "Z" ]%char.

Definition isoPattern : list CharClass :=
  ([Digit; Digit; Digit; Digit] ++ isoRest)%list.

Definition isoExtendedPattern : list CharClass :=
  ([Sign; Digit; Digit; Digit; Digit; Digit; Digit] ++ isoRest)%list.

Definition isISOString (s : string) : bool :=
  matchesPattern isoPattern s || matchesPattern isoExtendedPattern s.

(** The time values of the dates that are not [Invalid Date]. *)
Definition maxTimeValue : Z := 8640000000000000.

Definition validDate (t : Date) : Prop := - maxTimeValue <= t <= maxTimeValue.

(** date-fns. *)
Definition addMonths (date : Date) (amount : Z) : Date :=
  if amount =? 0 then date
  else
    let dayOfMonth := getDate date in
    let endOfDesiredMonth := setMonth2 date (getMonth date + amount + 1) 0 in
    let daysInMonth := getDate endOfDesiredMonth in
    if dayOfMonth >=? daysInMonth then endOfDesiredMonth
    else setFullYear3 date (getFullYear endOfDesiredMonth)
           (getMonth endOfDesiredMonth) dayOfMonth.

Definition subMonths (date : Date) (amount : Z) : Date :=
  addMonths date (- amount).
Definition addYears (date : Date) (amount : Z) : Date :=
  addMonths date (amount * 12).
Definition subYears (date : Date) (amount : Z) : Date :=
  addYears date (- amount).

Definition startOfMonth (date : Date) : Date :=
  setHours (setDate date 1) 0 0 0 0.

Definition endOfMonth (date : Date) : Date :=
  let month := getMonth date in
  setHours (setFullYear3 date (getFullYear date) (month + 1) 0) 23 59 59 999.

End JSDate.

(** ** SmartTimeSeriesCache: the time-series cache with running statistics *)

Module SmartTimeSeriesCache.
Import JSDate.

(** A reading; the values of the optional [metadata] object are kept as
    strings. *)
Record TimeSeriesData : Type := mkTimeSeriesData {
  ts_timestamp : Z;
  ts_value : Q;
  ts_wellNumber : string;
  ts_metadata : option (gmap string string)
}.

(** What the store of the class holds: an array of readings
    ([cacheTimeSeriesData]), the marker [true] ([preloadData]), or any other
    value, written through the inherited [set], whose [data] is of type
    [any]; of such a value the model keeps whether it is truthy ([null],
    [false], [0], [NaN] and the empty string are not). *)
Inductive Payload : Type :=
  | Series (rows : list TimeSeriesData)
  | PreloadingMark
  | Other (isTruthy : bool).

(** The test [if (data)] on what [get] resolved to: [null] is falsy, an array
    (also an empty one) and [true] are truthy. *)
Definition truthy (data : option Payload) : bool :=
  match data with
  | None => false
  | Some (Series _) => true
  | Some PreloadingMark => true
  | Some (Other isTruthy) => isTruthy
  end.

(** The double of an integer.  It is exact for the integers that a double
    holds exactly, those below 2^53 in absolute value, as the counters and
    the readings of the clock are. *)
Fixpoint doubleOfPositive (p : positive) : float :=
  match p with
  | xH => 1%float
  | xO q => (2 * doubleOfPositive q)%float
  | xI q => (2 * doubleOfPositive q + 1)%float
  end.

Definition double (z : Z) : float :=
  match z with
  | Z0 => 0%float
  | Zpos p => doubleOfPositive p
  | Zneg p => (- doubleOfPositive p)%float
  end.

Record CacheStats : Type := mkCacheStats {
  hitRate : float;
  totalRequests : Z;
  totalHits : Z;
  cacheSize : Z;
  avgResponseTime : float
}.

Record Cache : Type := mkCache {
  store : gmap string (IndexedDBCache.CacheEntry Payload);
  stats : CacheStats
}.

Definition withCacheSize (st : CacheStats) (n : Z) : CacheStats :=
  mkCacheStats (hitRate st) (totalRequests st) (totalHits st) n
    (avgResponseTime st).

Inductive Resolution : Type := high | medium | low.

Definition resolutionName (r : Resolution) : string :=
  match r with
  | high => "high"
  | medium => "medium"
  | low => "low"
  end.

(** The template
    [`${wellNumber}-${start}-${end}-${resolution}`] over the two ISO strings,
    and the key of a range. *)
Definition keyTemplate (wellNumber startISO endISO resolution : string)
    : string :=
  wellNumber +:+ "-" +:+ startISO +:+ "-" +:+ endISO +:+ "-" +:+ resolution.

Definition rangeKey (wellNumber : string) (startDate endDate : Date)
    (resolution : Resolution) : string :=
  keyTemplate wellNumber (toISOString startDate) (toISOString endDate)
    (resolutionName resolution).

Definition cacheTimeSeriesData (c : Cache) (key : string)
    (data : list TimeSeriesData) (ttl now : Z) : Cache :=
  let st := IndexedDBCache.set (store c) key (Series data) ttl now in
  mkCache st (withCacheSize (stats c) (IndexedDBCache.size st)).

(** [startTime] and [endTime] are the two readings of the clock around the
    store's [get], [now] the one inside it. *)
Definition getTimeSeriesData (c : Cache) (key : string)
    (startTime now endTime : Z) : option Payload * Cache :=
  let requests := totalRequests (stats c) + 1 in
  let '(data, st) := IndexedDBCache.get (store c) key now in
  let hits :=
    if truthy data then totalHits (stats c) + 1 else totalHits (stats c) in
  let rate := (double hits / double requests * 100)%float in
  let avg :=
    ((avgResponseTime (stats c) * double (requests - 1)
      + double (endTime - startTime)) / double requests)%float in
  (data, mkCache st (mkCacheStats rate requests hits (cacheSize (stats c)) avg)).

Definition getDataRange (c : Cache) (wellNumber : string)
    (startDate endDate : Date) (resolution : Resolution)
    (startTime now endTime : Z) : option Payload * Cache :=
  getTimeSeriesData c (rangeKey wellNumber startDate endDate resolution)
    startTime now endTime.

Definition cacheDataRange (c : Cache) (wellNumber : string)
    (startDate endDate : Date) (data : list TimeSeriesData)
    (resolution : Resolution) (ttl now : Z) : Cache :=
  cacheTimeSeriesData c (rangeKey wellNumber startDate endDate resolution)
    data ttl now.

(** [key.startsWith(`${wellNumber}-`)]. *)
Definition isWellKey (wellNumber key : string) : bool :=
  String.prefix (wellNumber +:+ "-") key.

Definition invalidateWellData (c : Cache) (wellNumber : string) : Cache :=
  let allKeys := IndexedDBCache.getAllKeys (store c) in
  let wellKeys := List.filter (isWellKey wellNumber) allKeys in
  let st := fold_left IndexedDBCache.delete wellKeys (store c) in
  mkCache st (withCacheSize (stats c) (IndexedDBCache.size st)).

Definition getStats (c : Cache) : CacheStats * Cache :=
  let st := withCacheSize (stats c) (IndexedDBCache.size (store c)) in
  (st, mkCache (store c) st).

Definition clearStats (c : Cache) : Cache :=
  mkCache (store c)
    (mkCacheStats 0%float 0 0 (IndexedDBCache.size (store c)) 0%float).

(** Reading every key drops the expired entries. *)
Definition optimizeCache (c : Cache) (now : Z) : Cache :=
  let allKeys := IndexedDBCache.getAllKeys (store c) in
  let st :=
    fold_left (fun s key => (IndexedDBCache.get s key now).2) allKeys
      (store c) in
  mkCache st (withCacheSize (stats c) (IndexedDBCache.size st)).

Definition preloadData (c : Cache) (wellNumber : string)
    (dateRanges : list (Date * Date)) (resolution : Resolution) (now : Z)
    : Cache :=
  let st :=
    fold_left
      (fun s (range : Date * Date) =>
         let key := rangeKey wellNumber range.1 range.2 resolution in
         let '(existing, s1) := IndexedDBCache.get s key now in
         if truthy existing then s1
         else IndexedDBCache.set s1 (key +:+ "-preloading") PreloadingMark
                300000 now)
      dateRanges (store c) in
  mkCache st (stats c).

(** A call of one of the public methods other than [clearStats]: those of
    the class, and the [set], [get], [delete] and [clear] that it inherits. *)
Inductive Op : Type :=
  | OpCache (key : string) (data : list TimeSeriesData) (ttl now : Z)
  | OpGet (key : string) (startTime now endTime : Z)
  | OpInvalidate (wellNumber : string)
  | OpGetStats
  | OpOptimize (now : Z)
  | OpPreload (wellNumber : string) (dateRanges : list (Date * Date))
      (resolution : Resolution) (now : Z)
  | OpSet (key : string) (data : Payload) (ttl now : Z)
  | OpStoreGet (key : string) (now : Z)
  | OpDelete (key : string)
  | OpClear.

Definition isLookup (o : Op) : bool :=
  match o with OpGet _ _ _ _ => true | _ => false end.

(** One call: the new cache and, for a lookup, what it returned. *)
Definition runOp (c : Cache) (o : Op) : list (option Payload) * Cache :=
  match o with
  | OpCache key data ttl now => ([], cacheTimeSeriesData c key data ttl now)
  | OpGet key startTime now endTime =>
      let '(r, c') := getTimeSeriesData c key startTime now endTime in
      ([r], c')
  | OpInvalidate w => ([], invalidateWellData c w)
  | OpGetStats => ([], (getStats c).2)
  | OpOptimize now => ([], optimizeCache c now)
  | OpPreload w rs r now => ([], preloadData c w rs r now)
  | OpSet key data ttl now =>
      ([], mkCache (IndexedDBCache.set (store c) key data ttl now) (stats c))
  | OpStoreGet key now =>
      ([], mkCache (IndexedDBCache.get (store c) key now).2 (stats c))
  | OpDelete key =>
      ([], mkCache (IndexedDBCache.delete (store c) key) (stats c))
  | OpClear => ([], mkCache (IndexedDBCache.clear (store c)) (stats c))
  end.

(** A sequence of calls, with the results of its lookups in order. *)
Fixpoint runOps (c : Cache) (ops : list Op) : list (option Payload) * Cache :=
  match ops with
  | [] => ([], c)
  | o :: rest =>
      let '(r1, c1) := runOp c o in
      let '(r2, c2) := runOps c1 rest in
      ((r1 ++ r2)%list, c2)
  end.

(** How many of the lookups found a present, unexpired value, and how many
    of them a truthy one. *)
Definition countPresent (results : list (option Payload)) : Z :=
  Z.of_nat
    (List.length
       (List.filter
          (fun r => match r with Some _ => true | None => false end) results)).

Definition countTruthy (results : list (option Payload)) : Z :=
  Z.of_nat (List.length (List.filter truthy results)).

Definition hitOf (r : option Payload) : Z := if truthy r then 1 else 0.

(** Two caches with the same request and hit counters and hit rate. *)
Definition sameCounters (c c' : Cache) : Prop :=
  totalRequests (stats c') = totalRequests (stats c)
  /\ totalHits (stats c') = totalHits (stats c)
  /\ hitRate (stats c') = hitRate (stats c).

(** The hit rate as the code computes it from the two counters. *)
Definition hitRateOf (hits requests : Z) : float :=
  (double hits / double requests * 100)%float.

Definition emptyCache : Cache :=
  mkCache ∅ (mkCacheStats 0%float 0 0 0 0%float).

(** The number of stored keys that belong to a well. *)
Definition countWellKeys (c : Cache) (wellNumber : string) : Z :=
  Z.of_nat
    (List.length
       (List.filter (isWellKey wellNumber)
          (IndexedDBCache.getAllKeys (store c)))).

(** One turn of the loop of [preloadData]. *)
Definition preloadTurn (w : string) (r : Resolution) (now : Z)
    (s : gmap string (IndexedDBCache.CacheEntry Payload))
    (range : Date * Date)
    : gmap string (IndexedDBCache.CacheEntry Payload) :=
  let key := rangeKey w range.1 range.2 r in
  let '(existing, s1) := IndexedDBCache.get s key now in
  if truthy existing then s1
  else IndexedDBCache.set s1 (key +:+ "-preloading") PreloadingMark 300000 now.

End SmartTimeSeriesCache.

(** date-fns [differenceInDays]: the number of full days between two dates,
    rounded towards zero. *)
Module DateFns.
Import JSDate.

Fixpoint firstNonZero (l : list Z) : Z :=
  match l with
  | [] => 0
  | x :: r => if x =? 0 then firstNonZero r else x
  end.

Definition compareLocalAsc (dateLeft dateRight : Date) : Z :=
  Z.sgn (firstNonZero
    [ getFullYear dateLeft - getFullYear dateRight;
      getMonth dateLeft - getMonth dateRight;
      getDate dateLeft - getDate dateRight;
      getHours dateLeft - getHours dateRight;
      getMinutes dateLeft - getMinutes dateRight;
      getSeconds dateLeft - getSeconds dateRight;
      getMilliseconds dateLeft - getMilliseconds dateRight ]).

Definition differenceInCalendarDays (dateLeft dateRight : Date) : Z :=
  Day dateLeft - Day dateRight.

Definition differenceInDays (dateLeft dateRight : Date) : Z :=
  let sign := compareLocalAsc dateLeft dateRight in
  let difference := Z.abs (differenceInCalendarDays dateLeft dateRight) in
  let dateLeft' := setDate dateLeft (getDate dateLeft - sign * difference) in
  let isLastDayNotFull :=
    if compareLocalAsc dateLeft' dateRight =? - sign then 1 else 0 in
  sign * (difference - isLastDayNotFull).

End DateFns.

(** ** View modes: the static configuration table *)

Module ViewModes.

Inductive ViewModeType : Type := full | mode1year | mode6month | mode1month.

Inductive DurationUnit : Type := dur_month | dur_year | dur_all.
Inductive StepUnit : Type := day | month | year.

Record Duration : Type := mkDuration { dur_value : Z; dur_unit : DurationUnit }.
Record NavigationStep : Type := mkStep { step_value : Z; step_unit : StepUnit }.

Record ViewModeConfig : Type := mkConfig {
  id : ViewModeType;
  label : string;
  description : string;
  duration : Duration;
  samplingRate : string;
  targetPoints : Z;
  preloadStrategy : list Z;
  navigationStep : NavigationStep
}.

Definition VIEW_MODES (m : ViewModeType) : ViewModeConfig :=
  match m with
  | full =>
      mkConfig full "Full Dataset" "Complete data range with adaptive sampling"
        (mkDuration 0 dur_all) "adaptive" 5000 [0] (mkStep 1 year)
  | mode1year =>
      mkConfig mode1year "1 Year" "12 months of data at 12-hour resolution"
        (mkDuration 1 dur_year) "12hour" 730 [-1; 0; 1] (mkStep 1 year)
  | mode6month =>
      mkConfig mode6month "6 Months" "6 months of data at 6-hour resolution"
        (mkDuration 6 dur_month) "6hour" 720 [-1; 0; 1] (mkStep 6 month)
  | mode1month =>
      mkConfig mode1month "1 Month" "30 days of data at 15-minute resolution"
        (mkDuration 1 dur_month) "15min" 2880 [-1; 0; 1] (mkStep 1 month)
  end.

Record DateRange : Type := mkRange { start : JSDate.Date; end_ : JSDate.Date }.

Record CacheStatus : Type := mkCacheStatus {
  isCached : bool;
  isPreloading : bool;
  cachedRanges : list DateRange
}.

Record ViewModeState : Type := mkViewModeState {
  currentMode : ViewModeType;
  centerDate : JSDate.Date;
  dateRange : DateRange;
  isLoading : bool;
  cacheStatus : CacheStatus
}.

End ViewModes.

(** ** ViewModeContext: the navigation state and its guards *)

Module ViewModeContext.
Import JSDate ViewModes.

Section Provider.
(** The provider's [dataRange] prop (it may be left out) and the clock read
    by [new Date()]. *)
Variable dataRange : option DateRange.
Variable now : Date.

Definition calculateDateRange (mode : ViewModeType) (center : Date)
    : DateRange :=
  match mode, dataRange with
  | full, Some dr => mkRange (start dr) (end_ dr)
  | _, _ =>
      match mode with
      | mode1year => mkRange (subMonths center 6) (addMonths center 6)
      | mode6month => mkRange (subMonths center 3) (addMonths center 3)
      | mode1month => mkRange (startOfMonth center) (endOfMonth center)
      | full => mkRange (subYears now 5) now
      end
  end.

Definition config (viewMode : ViewModeState) : ViewModeConfig :=
  VIEW_MODES (currentMode viewMode).

(** The effect that follows a change of mode or centre date. *)
Definition updateDateRange (viewMode : ViewModeState) : ViewModeState :=
  mkViewModeState (currentMode viewMode) (centerDate viewMode)
    (calculateDateRange (currentMode viewMode) (centerDate viewMode))
    (isLoading viewMode) (cacheStatus viewMode).

Definition setViewMode (viewMode : ViewModeState) (mode : ViewModeType)
    : ViewModeState :=
  mkViewModeState mode (centerDate viewMode) (dateRange viewMode)
    (isLoading viewMode) (mkCacheStatus false false []).

Definition setCenterDate (viewMode : ViewModeState) (date : Date)
    : ViewModeState :=
  mkViewModeState (currentMode viewMode) date (dateRange viewMode)
    (isLoading viewMode) (cacheStatus viewMode).

(** The centre date one navigation step back, and one forward. *)
Definition stepPrevious (viewMode : ViewModeState) : Date :=
  let step := navigationStep (config viewMode) in
  match step_unit step with
  | year => subYears (centerDate viewMode) (step_value step)
  | month => subMonths (centerDate viewMode) (step_value step)
  | day => centerDate viewMode
  end.

Definition stepNext (viewMode : ViewModeState) : Date :=
  let step := navigationStep (config viewMode) in
  match step_unit step with
  | year => addYears (centerDate viewMode) (step_value step)
  | month => addMonths (centerDate viewMode) (step_value step)
  | day => centerDate viewMode
  end.

Definition navigatePrevious (viewMode : ViewModeState) : ViewModeState :=
  setCenterDate viewMode (stepPrevious viewMode).

Definition navigateNext (viewMode : ViewModeState) : ViewModeState :=
  setCenterDate viewMode (stepNext viewMode).

Definition navigateToDate (viewMode : ViewModeState) (date : Date)
    : ViewModeState :=
  setCenterDate viewMode date.

Definition canNavigatePrevious (viewMode : ViewModeState) : bool :=
  match dataRange with
  | None => true
  | Some dr =>
      let testDate := stepPrevious viewMode in
      let testRange := calculateDateRange (currentMode viewMode) testDate in
      start testRange >=? start dr
  end.

Definition canNavigateNext (viewMode : ViewModeState) : bool :=
  match dataRange with
  | None => true
  | Some dr =>
      let testDate := stepNext viewMode in
      let testRange := calculateDateRange (currentMode viewMode) testDate in
      end_ testRange <=? end_ dr
  end.

Definition getDateRange (viewMode : ViewModeState) : DateRange :=
  dateRange viewMode.

End Provider.

(** The length in months of the navigation step of a mode. *)
Definition stepMonths (mode : ViewModeType) : Z :=
  let step := navigationStep (VIEW_MODES mode) in
  match step_unit step with
  | year => 12 * step_value step
  | month => step_value step
  | day => 0
  end.

End ViewModeContext.

(** ** useViewModeData: the data-loading hook *)

Module UseViewModeData.
Import JSDate ViewModes.

(** *** The adaptive sampling rate *)

(** The value of [Math.ceil(totalMinutes / targetPoints)] for two integers:
    a division by zero gives an infinity, or NaN for [0 / 0]. *)
Inductive Num : Type := Fin (z : Z) | PosInf | NegInf | NaN.

Definition ceilDiv (a b : Z) : Num :=
  if b =? 0 then
    if a >? 0 then PosInf else if a <? 0 then NegInf else NaN
  else Fin (- ((- a) / b)).

(** [x <= n]; every comparison with NaN is false. *)
Definition numLeb (x : Num) (n : Z) : bool :=
  match x with
  | Fin z => z <=? n
  | NegInf => true
  | PosInf => false
  | NaN => false
  end.

Definition samplingForSpan (totalDays targetPoints : Z) : string :=
  let totalMinutes := totalDays * 24 * 60 in
  let minutesPerPoint := ceilDiv totalMinutes targetPoints in
  if numLeb minutesPerPoint 15 then "15min"
  else if numLeb minutesPerPoint 30 then "30min"
  else if numLeb minutesPerPoint 60 then "1hour"
  else if numLeb minutesPerPoint 180 then "3hour"
  else if numLeb minutesPerPoint 360 then "6hour"
  else if numLeb minutesPerPoint 720 then "12hour"
  else if numLeb minutesPerPoint 1440 then "1day"
  else if numLeb minutesPerPoint 2880 then "2day"
  else "1week".

(** What the range endpoint answered: a failure of any kind (the request
    rejected, a status that is not ok, no [success] or no [data]), or the two
    dates. *)
Inductive RangeResponse : Type :=
  | RangeFailed
  | RangeOk (startDate endDate : Date).

Definition calculateFullViewSampling (config : ViewModeConfig)
    (response : RangeResponse) : string :=
  match response with
  | RangeFailed => "1day"
  | RangeOk startDate endDate =>
      samplingForSpan (DateFns.differenceInDays endDate startDate)
        (targetPoints config)
  end.

(** The ladder of sampling rates with their length in minutes, the rung the
    specification asks for (the first one that is at least the minutes per
    point, [1week] when there is none), and the place of a rate in it. *)
Definition ladder : list (string * Z) :=
  [ ("15min", 15); ("30min", 30); ("1hour", 60); ("3hour", 180);
    ("6hour", 360); ("12hour", 720); ("1day", 1440); ("2day", 2880);
    ("1week", 10080) ].

Definition firstRungAtLeast (minutesPerPoint : Q) : string :=
  match List.find (fun r => Qle_bool minutesPerPoint (inject_Z r.2)) ladder with
  | Some r => r.1
  | None => "1week"
  end.

Fixpoint rungIndexIn (l : list (string * Z)) (rate : string) : nat :=
  match l with
  | [] => O
  | r :: rest => if String.eqb r.1 rate then O else S (rungIndexIn rest rate)
  end.

Definition rungIndex (rate : string) : nat := rungIndexIn ladder rate.

(** The length of a rate of the ladder in minutes (0 for any other string),
    and the rates of the ladder. *)
Definition rungMinutes (rate : string) : Z :=
  match List.find (fun r => String.eqb r.1 rate) ladder with
  | Some r => r.2
  | None => 0
  end.

Definition isLadderRate (rate : string) : bool :=
  existsb (fun r => String.eqb r.1 rate) ladder.

(** *** Loading *)

(** Modelled from the spec: the reading type [WaterLevelReading] of the API
    module, which is not among the sources. *)
Record WaterLevelReading : Type := mkReading {
  timestamp : string;
  waterLevel : option Q;
  temperature : option Q;
  isManualReading : bool;
  dataQuality : string
}.

(** The segment literal that [loadData] builds. *)
Record CachedDataSegment : Type := mkSegment {
  seg_id : string;
  seg_wellNumber : string;
  seg_samplingRate : string;
  seg_startDate : string;
  seg_endDate : string;
  seg_data : list WaterLevelReading;
  cachedAt : Date;
  lastAccessed : Date;
  sizeBytes : Z
}.

(** The three methods of the segment cache that the hook calls.  [cacheGet]
    and [cachePut] read the clock. *)
Class SegmentCache (C : Type) : Type := {
  generateCacheKey : string -> string -> string -> string -> string;
  cacheGet : C -> string -> Z -> option CachedDataSegment * C;
  cachePut : C -> CachedDataSegment -> Z -> C
}.

Record HitStatus : Type := mkHitStatus {
  hit : bool;
  preloaded : bool;
  cachedSegments : Z
}.

(** The two dates of the metadata are kept as the ISO strings they are made
    from. *)
Record Metadata : Type := mkMetadata {
  totalPoints : Z;
  meta_dateRange : option (string * string);
  meta_cacheStatus : HitStatus
}.

Record DataState : Type := mkDataState {
  data : list WaterLevelReading;
  isLoading : bool;
  error : option string;
  cacheHit : bool;
  metadata : Metadata
}.

Definition initialDataState : DataState :=
  mkDataState [] false None false
    (mkMetadata 0 None (mkHitStatus false false 0)).

(** What a call of [loadData] closes over. *)
Record Closure : Type := mkClosure {
  databaseId : string;
  wellNumber : string;
  mode : ViewModeType;
  range : DateRange
}.

Definition config (cl : Closure) : ViewModeConfig := VIEW_MODES (mode cl).
Definition startDate (cl : Closure) : string := toISOString (start (range cl)).
Definition endDate (cl : Closure) : string := toISOString (end_ (range cl)).

(** The requests sent to the server, one constructor per [fetch] in the
    hook. *)
Inductive RemoteCall : Type :=
  | RangeRequest (databaseId wellNumber : string)
  | PrimaryFetch (databaseId wellNumber samplingRate startDate endDate : string)
  | PreloadFetch (databaseId wellNumber samplingRate startDate endDate : string).

(** What the readings endpoint answered: a failure with its message, or the
    rows. *)
Inductive FetchResponse : Type :=
  | FetchFailed (message : string)
  | FetchOk (rows : list WaterLevelReading).

(** Where a call is suspended.  A call of [loadData] runs up to an [await]
    and goes on when what it waits for arrives; calls that are under way at
    the same time take turns in this way.  The steps kept apart are the ones
    that wait for the server or for the first answer of the cache; the
    [response.json()] and the cache's [put] after a response, and the cache
    lookups of the preload loop, are taken to complete within the step that
    starts them. *)
Inductive Pending : Type :=
  | AwaitRange (cl : Closure)
  | AwaitCacheGet (cl : Closure) (samplingRate : string)
  | AwaitFetch (cl : Closure) (samplingRate : string)
  | AwaitPreload (cl : Closure) (samplingRate : string)
      (offsetStart offsetEnd : Date).

Section Hook.
Context {C : Type} `{SegmentCache C}.

Record Hook : Type := mkHook {
  state : DataState;
  cache : C;
  pending : gmap nat Pending;
  nextId : nat;
  remote : list RemoteCall;
  reported : list string
}.

Definition initialHook (c : C) : Hook :=
  mkHook initialDataState c ∅ O [] [].

Definition cacheKey (cl : Closure) (samplingRate : string) : string :=
  generateCacheKey (wellNumber cl) samplingRate (startDate cl) (endDate cl).

(** The neighbouring range at one offset of the preload strategy, when
    there is one to load. *)
Definition offsetRange (cl : Closure) (offset : Z) : option (Date * Date) :=
  if offset =? 0 then None
  else
    let step := navigationStep (config cl) in
    let monthsToAdd :=
      match step_unit step with month => step_value step * offset | _ => 0 end in
    let yearsToAdd :=
      match step_unit step with year => step_value step * offset | _ => 0 end in
    let s := start (range cl) in
    let e := end_ (range cl) in
    if negb (monthsToAdd =? 0) then
      Some (setMonth s (getMonth s + monthsToAdd),
            setMonth e (getMonth e + monthsToAdd))
    else if negb (yearsToAdd =? 0) then
      Some (setFullYear s (getFullYear s + yearsToAdd),
            setFullYear e (getFullYear e + yearsToAdd))
    else None.

(** One turn of the loop of [preloadAdjacentRanges]. *)
Definition preloadOne (cl : Closure) (samplingRate : string) (now : Z)
    (h : Hook) (offset : Z) : Hook :=
  match offsetRange cl offset with
  | None => h
  | Some (offsetStart, offsetEnd) =>
      let key :=
        generateCacheKey (wellNumber cl) samplingRate
          (toISOString offsetStart) (toISOString offsetEnd) in
      let '(existing, c1) := cacheGet (cache h) key now in
      match existing with
      | Some _ => mkHook (state h) c1 (pending h) (nextId h) (remote h)
                    (reported h)
      | None =>
          mkHook (state h) c1
            (<[nextId h := AwaitPreload cl samplingRate offsetStart offsetEnd]>
               (pending h))
            (S (nextId h))
            (remote h ++
               [PreloadFetch (databaseId cl) (wellNumber cl) samplingRate
                  (toISOString offsetStart) (toISOString offsetEnd)])%list
            (reported h)
      end
  end.

Definition preloadAdjacentRanges (cl : Closure) (samplingRate : string)
    (now : Z) (h : Hook) : Hook :=
  match mode cl with
  | full => h
  | _ =>
      fold_left (preloadOne cl samplingRate now)
        (preloadStrategy (config cl)) h
  end.

(** [loadData()] up to its first suspension. *)
Definition loadData (cl : Closure) (h : Hook) : Hook :=
  let st :=
    mkDataState (data (state h)) true None (cacheHit (state h))
      (metadata (state h)) in
  if String.eqb (samplingRate (config cl)) "adaptive" then
    mkHook st (cache h) (<[nextId h := AwaitRange cl]> (pending h))
      (S (nextId h))
      (remote h ++ [RangeRequest (databaseId cl) (wellNumber cl)])%list
      (reported h)
  else
    mkHook st (cache h)
      (<[nextId h := AwaitCacheGet cl (samplingRate (config cl))]> (pending h))
      (S (nextId h)) (remote h) (reported h).

(** The range endpoint has answered: the rate is known, the cache is asked. *)
Definition resumeRange (id : nat) (response : RangeResponse) (h : Hook)
    : Hook :=
  match pending h !! id with
  | Some (AwaitRange cl) =>
      mkHook (state h) (cache h)
        (<[id := AwaitCacheGet cl (calculateFullViewSampling (config cl) response)]>
           (pending h))
        (nextId h) (remote h) (reported h)
  | _ => h
  end.

(** The cache has answered: on a hit the segment is published and the
    neighbours are preloaded; on a miss the readings are requested. *)
Definition resumeCacheGet (id : nat) (now : Z) (h : Hook) : Hook :=
  match pending h !! id with
  | Some (AwaitCacheGet cl samplingRate) =>
      let '(cachedSegment, c1) :=
        cacheGet (cache h) (cacheKey cl samplingRate) now in
      match cachedSegment with
      | Some seg =>
          let st :=
            mkDataState (seg_data seg) false (error (state h)) true
              (mkMetadata (Z.of_nat (List.length (seg_data seg)))
                 (Some (seg_startDate seg, seg_endDate seg))
                 (mkHitStatus true false 1)) in
          preloadAdjacentRanges cl samplingRate now
            (mkHook st c1 (base.delete id (pending h)) (nextId h) (remote h)
               (reported h))
      | None =>
          mkHook (state h) c1
            (<[id := AwaitFetch cl samplingRate]> (pending h)) (nextId h)
            (remote h ++
               [PrimaryFetch (databaseId cl) (wellNumber cl) samplingRate
                  (startDate cl) (endDate cl)])%list
            (reported h)
      end
  | _ => h
  end.

(** The readings have arrived, or the request has failed. *)
Definition resumeFetch (id : nat) (response : FetchResponse) (now : Z)
    (h : Hook) : Hook :=
  match pending h !! id with
  | Some (AwaitFetch cl samplingRate) =>
      match response with
      | FetchFailed errorMessage =>
          mkHook
            (mkDataState (data (state h)) false (Some errorMessage)
               (cacheHit (state h)) (metadata (state h)))
            (cache h) (base.delete id (pending h)) (nextId h) (remote h)
            (reported h ++ [errorMessage])%list
      | FetchOk rows =>
          let segment :=
            mkSegment (cacheKey cl samplingRate) (wellNumber cl) samplingRate
              (startDate cl) (endDate cl) rows now now 0 in
          let c1 := cachePut (cache h) segment now in
          let st :=
            mkDataState rows false (error (state h)) false
              (mkMetadata (Z.of_nat (List.length rows))
                 (Some (startDate cl, endDate cl))
                 (mkHitStatus false false 1)) in
          preloadAdjacentRanges cl samplingRate now
            (mkHook st c1 (base.delete id (pending h)) (nextId h) (remote h)
               (reported h))
      end
  | _ => h
  end.

(** A preload request has been answered. *)
Definition resumePreload (id : nat) (response : FetchResponse) (now : Z)
    (h : Hook) : Hook :=
  match pending h !! id with
  | Some (AwaitPreload cl samplingRate offsetStart offsetEnd) =>
      match response with
      | FetchFailed _ =>
          mkHook (state h) (cache h) (base.delete id (pending h)) (nextId h)
            (remote h) (reported h)
      | FetchOk rows =>
          let segment :=
            mkSegment
              (generateCacheKey (wellNumber cl) samplingRate
                 (toISOString offsetStart) (toISOString offsetEnd))
              (wellNumber cl) samplingRate (toISOString offsetStart)
              (toISOString offsetEnd) rows now now 0 in
          mkHook (state h) (cachePut (cache h) segment now)
            (base.delete id (pending h)) (nextId h) (remote h) (reported h)
      end
  | _ => h
  end.

(** What can happen: the effect calls [loadData], or something that a
    suspended call waits for arrives. *)
Inductive Event : Type :=
  | CallLoadData (cl : Closure)
  | RangeArrives (id : nat) (response : RangeResponse)
  | CacheAnswers (id : nat) (now : Z)
  | FetchArrives (id : nat) (response : FetchResponse) (now : Z)
  | PreloadArrives (id : nat) (response : FetchResponse) (now : Z).

Definition step (h : Hook) (e : Event) : Hook :=
  match e with
  | CallLoadData cl => loadData cl h
  | RangeArrives id response => resumeRange id response h
  | CacheAnswers id now => resumeCacheGet id now h
  | FetchArrives id response now => resumeFetch id response now h
  | PreloadArrives id response now => resumePreload id response now h
  end.

Definition run (h : Hook) (events : list Event) : Hook :=
  fold_left step events h.

Definition isPrimaryFetch (r : RemoteCall) : bool :=
  match r with PrimaryFetch _ _ _ _ _ => true | _ => false end.

Definition isPreloadFetch (r : RemoteCall) : bool :=
  match r with PreloadFetch _ _ _ _ _ => true | _ => false end.

Definition isReadingsFetch (r : RemoteCall) : bool :=
  match r with RangeRequest _ _ => false | _ => true end.

(** One call of [loadData] up to the answer of the cache: the events, and
    the sampling rate it works with. *)
Definition isAdaptive (cl : Closure) : bool :=
  String.eqb (samplingRate (config cl)) "adaptive".

Definition resolvedRate (cl : Closure) (response : RangeResponse) : string :=
  if isAdaptive cl then calculateFullViewSampling (config cl) response
  else samplingRate (config cl).

(** The requests that a call may send when the cache has the segment: the
    range request of an adaptive mode and, in a mode other than [full], the
    preloads of other ranges than the one of the call. *)
Definition sentOnHit (cl : Closure) (r : RemoteCall) : bool :=
  match r with
  | RangeRequest _ _ => isAdaptive cl
  | PrimaryFetch _ _ _ _ _ => false
  | PreloadFetch _ _ _ startDate' endDate' =>
      match mode cl with full => false | _ => true end
      && negb (String.eqb startDate' (startDate cl)
               && String.eqb endDate' (endDate cl))
  end.

Definition invocation (cl : Closure) (id : nat) (response : RangeResponse)
    (now : Z) : list Event :=
  if isAdaptive cl
  then [CallLoadData cl; RangeArrives id response; CacheAnswers id now]
  else [CallLoadData cl; CacheAnswers id now].

(** The sampling rate that a request for readings carries. *)
Definition requestRate (r : RemoteCall) : option string :=
  match r with
  | RangeRequest _ _ => None
  | PrimaryFetch _ _ rate _ _ => Some rate
  | PreloadFetch _ _ rate _ _ => Some rate
  end.

(** The sampling rate that a suspended call works with, once it has one, and
    the closure of a suspended call. *)
Definition pendingRate (p : Pending) : option string :=
  match p with
  | AwaitRange _ => None
  | AwaitCacheGet _ rate => Some rate
  | AwaitFetch _ rate => Some rate
  | AwaitPreload _ rate _ _ => Some rate
  end.

Definition pendingClosure (p : Pending) : Closure :=
  match p with
  | AwaitRange cl => cl
  | AwaitCacheGet cl _ => cl
  | AwaitFetch cl _ => cl
  | AwaitPreload cl _ _ _ => cl
  end.

(** The calls of [loadData] among the events are all in the mode [full]. *)
Definition loadsFullOnly (e : Event) : bool :=
  match e with
  | CallLoadData cl => match mode cl with full => true | _ => false end
  | _ => true
  end.

(** A request for readings carries a rate of the ladder, and a suspended
    call works with one. *)
Definition rateOnLadder (r : RemoteCall) : bool :=
  match requestRate r with
  | Some rate => isLadderRate rate
  | None => true
  end.

Definition pendingOnLadder (p : Pending) : bool :=
  match pendingRate p with
  | Some rate => isLadderRate rate
  | None => true
  end.

(** A suspended call that was made in the mode [full]. *)
Definition pendingInFull (p : Pending) : bool :=
  match mode (pendingClosure p) with
  | full => true
  | _ => false
  end.

(** The kinds of event and of request, and the suspended calls that have
    not yet asked for their readings. *)
Definition isPreloadAnswer (e : Event) : bool :=
  match e with PreloadArrives _ _ _ => true | _ => false end.

Definition isCall (e : Event) : bool :=
  match e with CallLoadData _ => true | _ => false end.

Definition isAdaptiveCall (e : Event) : bool :=
  match e with
  | CallLoadData cl => isAdaptive cl
  | _ => false
  end.

Definition isRangeRequest (r : RemoteCall) : bool :=
  match r with RangeRequest _ _ => true | _ => false end.

Definition beforeFetch (p : Pending) : bool :=
  match p with
  | AwaitRange _ => true
  | AwaitCacheGet _ _ => true
  | _ => false
  end.

Definition waiting (m : gmap nat Pending) : nat :=
  size (filter (fun kv => beforeFetch kv.2 = true) m).

Definition countPrimary (l : list RemoteCall) : nat :=
  List.length (List.filter isPrimaryFetch l).

Definition countRange (l : list RemoteCall) : nat :=
  List.length (List.filter isRangeRequest l).

(** The identifiers of the suspended calls are below the next one. *)
Definition pendingBelowNext (h : Hook) : Prop :=
  forall id p, pending h !! id = Some p -> (id < nextId h)%nat.

(** What a preload leaves alone: the published state and the suspended
    calls; it only adds preload requests. *)
Definition preloadFrame (h h' : Hook) : Prop :=
  state h' = state h
  /\ (nextId h <= nextId h')%nat
  /\ (forall id, (id < nextId h)%nat -> pending h' !! id = pending h !! id)
  /\ exists extra,
       remote h' = (remote h ++ extra)%list
       /\ forallb isPreloadFetch extra = true.

(** What holds of every state that the hook reaches: the rates in use are
    on the ladder; and, when every call was in the mode [full], so are the
    suspended calls, and no preload request was sent. *)
Definition ratesInv (h : Hook) : Prop :=
  (forall id p, pending h !! id = Some p -> pendingOnLadder p = true)
  /\ forallb rateOnLadder (remote h) = true.

Definition fullInv (h : Hook) : Prop :=
  (forall id p, pending h !! id = Some p -> pendingInFull p = true)
  /\ List.filter isPreloadFetch (remote h) = [].

(** The primary requests sent and the calls that may still send one, and
    the range requests sent. *)
Definition counted (h : Hook) : nat * nat :=
  ((countPrimary (remote h) + waiting (pending h))%nat, countRange (remote h)).


End Hook.

Arguments Hook C : clear implicits.

(** *** The segment cache

    The segment cache that the hook calls ([indexedDBCache], with
    [generateCacheKey], [get] and [put]) is not among the sources; what
    follows is written from the specification of the time-series segment
    cache. *)

(** Modelled from the spec: the segments are kept in the key-value store,
    each under its [id]. *)
Abbreviation SegmentStore :=
  (gmap string (IndexedDBCache.CacheEntry CachedDataSegment)).

(** Modelled from the spec: [generateKey], the four fields joined in a fixed
    order.  The well identifier comes last: the sampling rates of the ladder
    and the ISO strings of the two dates hold no separator, so that one in
    the well identifier cannot make two keys collide. *)
Definition memoryKey (wellNumber samplingRate startDate endDate : string)
    : string :=
  samplingRate +:+ "_" +:+ startDate +:+ "_" +:+ endDate +:+ "_" +:+ wellNumber.

(** Modelled from the spec: the fixed time-to-live of a segment, one hour. *)
Definition segmentTTL : Z := 3600000.

(** Modelled from the spec: the running total of the sizes of the stored
    segments. *)
Definition totalSizeBytes (st : SegmentStore) : Z :=
  map_fold (fun _ entry acc => acc + sizeBytes (IndexedDBCache.data entry))
    0 st.

(** Modelled from the spec: the order of eviction, ascending [lastAccessed],
    ties broken by the oldest [cachedAt] first. *)
Definition evictedBefore (a b : CachedDataSegment) : bool :=
  (lastAccessed a <? lastAccessed b)
  || ((lastAccessed a =? lastAccessed b) && (cachedAt a <=? cachedAt b)).

Definition pickEarlier
    (best : option (string * IndexedDBCache.CacheEntry CachedDataSegment))
    (kv : string * IndexedDBCache.CacheEntry CachedDataSegment)
    : option (string * IndexedDBCache.CacheEntry CachedDataSegment) :=
  match best with
  | None => Some kv
  | Some b =>
      if evictedBefore (IndexedDBCache.data b.2) (IndexedDBCache.data kv.2)
      then Some b else Some kv
  end.

(** Modelled from the spec: the segment that is evicted next, the first one
    in the order of eviction. *)
Definition leastRecent (st : SegmentStore)
    : option (string * IndexedDBCache.CacheEntry CachedDataSegment) :=
  fold_left pickEarlier (map_to_list st) None.

Section Budget.
(** Modelled from the spec: the storage budget in bytes, and the length of
    the serialized payload from which [put] computes [sizeBytes]. *)
Variable budget : Z.
Variable serializedLength : list WaterLevelReading -> Z.

(** Modelled from the spec: while the total exceeds the budget, the least
    recently accessed segment is evicted.  The loop runs at most once for
    every stored segment. *)
Fixpoint evict (fuel : nat) (st : SegmentStore) : SegmentStore :=
  match fuel with
  | O => st
  | S fuel' =>
      if totalSizeBytes st >? budget then
        match leastRecent st with
        | Some (key, _) => evict fuel' (base.delete key st)
        | None => st
        end
      else st
  end.

Definition enforceBudget (st : SegmentStore) : SegmentStore :=
  evict (size st) st.

Definition withSize (segment : CachedDataSegment) : CachedDataSegment :=
  mkSegment (seg_id segment) (seg_wellNumber segment)
    (seg_samplingRate segment) (seg_startDate segment) (seg_endDate segment)
    (seg_data segment) (cachedAt segment) (lastAccessed segment)
    (serializedLength (seg_data segment)).

(** Modelled from the spec: [put] computes [sizeBytes], stores the segment
    under its [id] with the fixed time-to-live, and then enforces the
    budget. *)
Definition segmentPut (st : SegmentStore) (segment : CachedDataSegment)
    (now : Z) : SegmentStore :=
  enforceBudget
    (IndexedDBCache.set st (seg_id segment) (withSize segment) segmentTTL now).

End Budget.

Definition touch (segment : CachedDataSegment) (now : Z) : CachedDataSegment :=
  mkSegment (seg_id segment) (seg_wellNumber segment)
    (seg_samplingRate segment) (seg_startDate segment) (seg_endDate segment)
    (seg_data segment) (cachedAt segment) now (sizeBytes segment).

(** Modelled from the spec: [get] looks the key up in the store, where an
    expired entry is absent and is deleted; on a hit it updates
    [lastAccessed]. *)
Definition segmentGet (st : SegmentStore) (key : string) (now : Z)
    : option CachedDataSegment * SegmentStore :=
  match st !! key with
  | Some entry =>
      if now >? IndexedDBCache.timestamp entry + IndexedDBCache.ttl entry
      then (None, base.delete key st)
      else
        let touched := touch (IndexedDBCache.data entry) now in
        (Some touched,
         <[key := IndexedDBCache.mkCacheEntry (IndexedDBCache.key entry)
                    touched (IndexedDBCache.timestamp entry)
                    (IndexedDBCache.ttl entry)]> st)
  | None => (None, st)
  end.

(** Modelled from the spec: the budget of 50 MB.  The size of a payload is
    approximate, and the serialization is not specified: a reading is
    counted with the characters of its two strings and eight bytes for each
    of its other three fields. *)
Definition storageBudget : Z := 50 * 1024 * 1024.

Definition approximateSize (rows : list WaterLevelReading) : Z :=
  fold_right
    (fun reading acc =>
       Z.of_nat (String.length (timestamp reading))
       + Z.of_nat (String.length (dataQuality reading)) + 24 + acc)
    0 rows.

(** The segment cache of the examples. *)
#[global] Instance memoryCache : SegmentCache SegmentStore :=
  {| generateCacheKey := memoryKey;
     cacheGet := segmentGet;
     cachePut := segmentPut storageBudget approximateSize |}.

Definition emptySegmentStore
    : gmap string (IndexedDBCache.CacheEntry CachedDataSegment) := ∅.

(** The values of the examples: a well viewed by month, in March and in April
    2024, and two readings. *)
Definition march2024 : Closure :=
  mkClosure "db1" "W1" mode1month
    (mkRange (mkDate 2024 2 1 0 0 0 0) (mkDate 2024 2 31 23 59 59 999)).

Definition april2024 : Closure :=
  mkClosure "db1" "W1" mode1month
    (mkRange (mkDate 2024 3 1 0 0 0 0) (mkDate 2024 3 30 23 59 59 999)).

Definition readingMarch : WaterLevelReading :=
  mkReading "2024-03-10T00:00:00.000Z" (Some 12%Q) None false "good".

Definition readingApril : WaterLevelReading :=
  mkReading "2024-04-10T00:00:00.000Z" (Some 13%Q) None false "good".

Definition marchSegment : CachedDataSegment :=
  mkSegment (memoryKey "W1" "15min" (startDate march2024) (endDate march2024))
    "W1" "15min" (startDate march2024) (endDate march2024) [readingMarch]
    1000 1000 0.

End UseViewModeData.

(** ** ViewModeNavigation and DateRangePicker: the callers of the context *)

Module ViewModeNavigation.
Import JSDate ViewModes.

Section Navigation.
Variable dataRange : option DateRange.
Variable now : Date.
(** The component's [disabled] prop. *)
Variable disabled : bool.

Definition handlePrevious (viewMode : ViewModeState) : ViewModeState :=
  if negb disabled && ViewModeContext.canNavigatePrevious dataRange now viewMode
  then ViewModeContext.navigatePrevious viewMode
  else viewMode.

Definition handleNext (viewMode : ViewModeState) : ViewModeState :=
  if negb disabled && ViewModeContext.canNavigateNext dataRange now viewMode
  then ViewModeContext.navigateNext viewMode
  else viewMode.

(** [new Date(x)] for a time value that may be a half: the fraction is
    dropped, towards zero; [twice] is the double of the value. *)
Definition dateOfHalves (twice : Z) : Date := Z.quot twice 2.

(** The [onRangeChange] of the date picker: the centre of the range becomes
    the centre date. *)
Definition onRangeChange (viewMode : ViewModeState) (start_ finish : Date)
    : ViewModeState :=
  ViewModeContext.navigateToDate viewMode (dateOfHalves (start_ + finish)).

End Navigation.

End ViewModeNavigation.

Module DateRangePicker.
Import JSDate.

Record Selection : Type := mkSelection {
  selectedStart : Date;
  selectedEnd : Date;
  selectingEnd : bool
}.

Section Picker.
(** The props [startDate], [endDate] and [disabled]. *)
Variable startDate endDate : Date.
Variable disabled : bool.

Definition initialSelection : Selection :=
  mkSelection startDate endDate false.

Definition handleDateClick (sel : Selection) (date : Date) : Selection :=
  if disabled then sel
  else if negb (selectingEnd sel) then mkSelection date date true
  else if date <? selectedStart sel
       then mkSelection date (selectedStart sel) false
       else mkSelection (selectedStart sel) date false.

(** [handleApply]: the range handed to [onRangeChange]. *)
Definition handleApply (sel : Selection) : Date * Date :=
  (selectedStart sel, selectedEnd sel).

Definition handleCancel (sel : Selection) : Selection :=
  mkSelection startDate endDate false.

End Picker.

End DateRangePicker.

(** ** The calendar on examples *)

Example toISOString_example :
  JSDate.toISOString (JSDate.mkDate 2024 2 15 13 4 5 67)
  = "2024-03-15T13:04:05.067Z".
Proof. vm_compute. reflexivity. Qed.

Example toISOString_epoch : JSDate.toISOString 0 = "1970-01-01T00:00:00.000Z".
Proof. vm_compute. reflexivity. Qed.

Example toISOString_before_epoch :
  JSDate.toISOString (-1) = "1969-12-31T23:59:59.999Z".
Proof. vm_compute. reflexivity. Qed.

Example toISOString_negative_year :
  JSDate.toISOString (JSDate.mkDate (-1) 11 31 0 0 0 0)
  = "-000001-12-31T00:00:00.000Z".
Proof. vm_compute. reflexivity. Qed.

(** date-fns keeps the month and shortens the day: 31 January plus a month is
    29 February 2024.  [setMonth] lets the day run over: 31 March moved to
    April is 1 May. *)
Example addMonths_end_of_month :
  JSDate.toISOString (JSDate.addMonths (JSDate.mkDate 2024 0 31 0 0 0 0) 1)
  = "2024-02-29T00:00:00.000Z".
Proof. vm_compute. reflexivity. Qed.

Example setMonth_overflow :
  JSDate.toISOString (JSDate.setMonth (JSDate.mkDate 2024 2 31 23 59 59 999) 3)
  = "2024-05-01T23:59:59.999Z".
Proof. vm_compute. reflexivity. Qed.

(** The range of the mode 1month around 15 March 2024. *)
Example month_range_example (now : JSDate.Date) :
  let r :=
    ViewModeContext.calculateDateRange None now ViewModes.mode1month
      (JSDate.mkDate 2024 2 15 10 30 0 0) in
  JSDate.toISOString (ViewModes.start r) = "2024-03-01T00:00:00.000Z"
  /\ JSDate.toISOString (ViewModes.end_ r) = "2024-03-31T23:59:59.999Z".
Proof. vm_compute. split; reflexivity. Qed.

(** The range of the mode 1year around 1 March 2024, and of the stepped
    centre date. *)
Example year_range_example (now : JSDate.Date) :
  let r :=
    ViewModeContext.calculateDateRange None now ViewModes.mode1year
      (JSDate.mkDate 2024 2 1 0 0 0 0) in
  let r' :=
    ViewModeContext.calculateDateRange None now ViewModes.mode1year
      (JSDate.addYears (JSDate.mkDate 2024 2 1 0 0 0 0) 1) in
  JSDate.toISOString (ViewModes.start r) = "2023-09-01T00:00:00.000Z"
  /\ JSDate.toISOString (ViewModes.end_ r) = "2024-09-01T00:00:00.000Z"
  /\ JSDate.toISOString (ViewModes.end_ r') = "2025-09-01T00:00:00.000Z".
Proof. vm_compute. repeat split. Qed.

Example differenceInDays_example :
  DateFns.differenceInDays (JSDate.mkDate 2024 5 1 0 0 0 0)
    (JSDate.mkDate 2020 0 1 12 0 0 0) = 1612.
Proof. vm_compute. reflexivity. Qed.

(** C4. An entry read while [now <= timestamp + ttl] yields its payload and
    leaves the store as it is; read when [now > timestamp + ttl] it yields
    nothing and the entry is deleted from the store. *)
Theorem get_lazy_expiration {D : Type}
    (st : gmap string (IndexedDBCache.CacheEntry D)) (k : string) (d : D)
    (T storedAt now : Z) :
  let st1 := IndexedDBCache.set st k d T storedAt in
  IndexedDBCache.get st1 k now =
    if now <=? storedAt + T
    then (Some d, st1)
    else (None, base.delete k st1).
Proof.
  intros st1. unfold IndexedDBCache.get, st1, IndexedDBCache.set.
  rewrite lookup_insert_eq. simpl.
  destruct (Z.leb_spec now (storedAt + T)) as [Hle | Hgt].
  - assert ((now >? storedAt + T) = false) as -> by lia. reflexivity.
  - assert ((now >? storedAt + T) = true) as -> by lia. reflexivity.
Qed.


(** ** Strings and the cache key *)

Section KeyFacts.
Import JSDate SmartTimeSeriesCache.

Local Abbreviation las := list_ascii_of_string.

Lemma append_cons (ch : ascii) (a b : string) :
  String ch a +:+ b = String ch (a +:+ b).
Proof. reflexivity. Qed.

Lemma append_nil_l (b : string) : "" +:+ b = b.
Proof. reflexivity. Qed.

Lemma append_assoc (a b c : string) : (a +:+ b) +:+ c = a +:+ (b +:+ c).
Proof.
  induction a as [| ch a IH]; [done |].
  rewrite !append_cons. by f_equal.
Qed.

Lemma prefix_append (a b : string) : String.prefix a (a +:+ b) = true.
Proof.
  induction a as [| ch a IH].
  - rewrite append_nil_l. by destruct b.
  - rewrite append_cons. cbn [String.prefix].
    destruct (ascii_dec ch ch); [apply IH | congruence].
Qed.

Lemma las_append (a b : string) : las (a +:+ b) = (las a ++ las b)%list.
Proof.
  induction a as [| ch a IH]; [done |].
  rewrite append_cons. cbn. by rewrite IH.
Qed.

Lemma las_inj (a b : string) : las a = las b -> a = b.
Proof.
  intros Heq. rewrite <- (string_of_list_ascii_of_string a),
    <- (string_of_list_ascii_of_string b). by rewrite Heq.
Qed.

Lemma las_length (a : string) : List.length (las a) = String.length a.
Proof. induction a as [| ch a IH]; cbn; [done | by rewrite IH]. Qed.

(** Two ways of cutting one string: the shorter tail is the end of the longer
    one. *)
Lemma append_tail_drop (a1 a2 s1 s2 : string) :
  a1 +:+ s1 = a2 +:+ s2 ->
  (String.length s1 <= String.length s2)%nat ->
  las s1 = drop (String.length s2 - String.length s1) (las s2)
  /\ las a1 = (las a2 ++
               take (String.length s2 - String.length s1) (las s2))%list.
Proof.
  intros Heq Hlen. apply (f_equal las) in Heq. rewrite !las_append in Heq.
  set (k := (String.length s2 - String.length s1)%nat).
  rewrite <- (take_drop k (las s2)) in Heq. rewrite app_assoc in Heq.
  apply app_inj_2 in Heq as [H1 H2].
  - by split.
  - rewrite length_drop, !las_length. unfold k. lia.
Qed.

Lemma append_tail_inj (a1 a2 s1 s2 : string) :
  a1 +:+ s1 = a2 +:+ s2 ->
  String.length s1 = String.length s2 ->
  a1 = a2 /\ s1 = s2.
Proof.
  intros Heq Hlen.
  destruct (append_tail_drop a1 a2 s1 s2 Heq) as [H1 H2]; [lia |].
  rewrite Hlen, Nat.sub_diag in H1, H2. cbn in H1, H2.
  rewrite app_nil_r in H2. split; by apply las_inj.
Qed.

Lemma matchesPattern_length (p : list CharClass) (s : string) :
  matchesPattern p s = true -> String.length s = List.length p.
Proof.
  revert s. induction p as [| cl p IH]; intros [| c s] Hm; try done.
  cbn in Hm. apply andb_true_iff in Hm as [_ Hm]. cbn. by rewrite (IH s).
Qed.

Lemma matchesPattern_app (p1 p2 : list CharClass) (s1 s2 : string) :
  matchesPattern p1 s1 = true -> matchesPattern p2 s2 = true ->
  matchesPattern (p1 ++ p2) (s1 +:+ s2) = true.
Proof.
  revert s1. induction p1 as [| cl p1 IH]; intros [| c s1] H1 H2; try done.
  cbn in H1. apply andb_true_iff in H1 as [Hc H1].
  rewrite append_cons. cbn. rewrite Hc. cbn. by apply IH.
Qed.

(** An ISO string has 24 characters, or 27 of which the third is a digit. *)
Lemma isISOString_shape (s : string) :
  isISOString s = true ->
  String.length s = 24%nat
  \/ (String.length s = 27%nat
      /\ exists c0 c1 c2 rest,
           s = String c0 (String c1 (String c2 rest)) /\ isDigit c2 = true).
Proof.
  unfold isISOString. intros Hs. apply orb_true_iff in Hs as [Hs | Hs].
  - left. by apply matchesPattern_length in Hs.
  - right. pose proof (matchesPattern_length _ _ Hs) as Hlen.
    split; [done |].
    destruct s as [| c0 [| c1 [| c2 rest]]]; try (cbn in Hlen; discriminate).
    exists c0, c1, c2, rest. split; [done |].
    cbn in Hs. by repeat (apply andb_true_iff in Hs as [? Hs]).
Qed.

(** The last dash-and-date of a key can be cut off in one way only. *)
Lemma iso_tail_unique (a1 a2 e1 e2 : string) :
  isISOString e1 = true -> isISOString e2 = true ->
  a1 +:+ String "-" e1 = a2 +:+ String "-" e2 ->
  a1 = a2 /\ e1 = e2.
Proof.
  assert (Hdiff : forall b1 b2 d1 d2,
            String.length d1 = 24%nat ->
            (String.length d2 = 27%nat
             /\ exists c0 c1 c2 rest,
                  d2 = String c0 (String c1 (String c2 rest))
                  /\ isDigit c2 = true) ->
            b1 +:+ String "-" d1 = b2 +:+ String "-" d2 -> False).
  { intros b1 b2 d1 d2 Hl1 (Hl2 & c0 & c1 & c2 & rest & -> & Hd) Heq.
    cbn [String.length] in Hl2.
    assert (Hrest : String.length rest = 24%nat) by lia.
    apply append_tail_drop in Heq as [Heq _];
      [| cbn [String.length]; lia].
    cbn [String.length] in Heq. rewrite Hl1, Hrest in Heq.
    cbn in Heq. injection Heq as Heq _. by subst c2. }
  intros H1 H2 Heq.
  apply isISOString_shape in H1 as [H1 | H1];
    apply isISOString_shape in H2 as [H2 | H2].
  - apply append_tail_inj in Heq as [-> Heq]; [| cbn; congruence].
    by injection Heq as ->.
  - exfalso. by eapply Hdiff.
  - exfalso. symmetry in Heq. by eapply Hdiff.
  - destruct H1 as [H1 _], H2 as [H2 _].
    apply append_tail_inj in Heq as [-> Heq]; [| cbn; congruence].
    by injection Heq as ->.
Qed.

(** The same for the resolution at the end of a key. *)
Lemma resolution_tail_unique (a1 a2 : string) (r1 r2 : Resolution) :
  a1 +:+ String "-" (resolutionName r1) = a2 +:+ String "-" (resolutionName r2) ->
  a1 = a2 /\ r1 = r2.
Proof.
  intros Heq.
  destruct r1, r2;
    try (apply append_tail_inj in Heq as [-> _]; [done | done]);
    exfalso;
    first
      [ apply append_tail_drop in Heq as [Heq _]; [| cbn; lia]; by cbn in Heq
      | symmetry in Heq;
        apply append_tail_drop in Heq as [Heq _]; [| cbn; lia]; by cbn in Heq ].
Qed.

(** Digits, whatever the number. *)
Lemma isDigit_digitChar (n : Z) : isDigit (digitChar n) = true.
Proof.
  unfold digitChar.
  assert (Hr : (Z.to_nat (n mod 10) < 10)%nat)
    by (pose proof (Z.mod_pos_bound n 10); lia).
  revert Hr. generalize (Z.to_nat (n mod 10)). intros k Hk.
  do 10 (destruct k as [| k]; [reflexivity |]). lia.
Qed.

Lemma matchesPattern_padDigits (w : nat) (n : Z) (p : list CharClass)
    (acc : string) :
  matchesPattern p acc = true ->
  matchesPattern (repeat Digit w ++ p) (padDigits w n acc) = true.
Proof.
  revert n p acc. induction w as [| w IH]; intros n p acc Hacc; [done |].
  cbn [padDigits].
  assert (Hr : (repeat Digit (S w) ++ p = repeat Digit w ++ Digit :: p)%list).
  { cbn [repeat]. by rewrite repeat_cons, <- app_assoc. }
  rewrite Hr. apply IH. cbn. by rewrite isDigit_digitChar.
Qed.

Lemma matchesPattern_pad (w : nat) (n : Z) :
  matchesPattern (repeat Digit w) (pad w n) = true.
Proof.
  unfold pad. rewrite <- (app_nil_r (repeat Digit w)).
  by apply matchesPattern_padDigits.
Qed.

Ltac iso_lit c :=
  apply (matchesPattern_app [Lit c] _ (String c EmptyString)); [reflexivity |].
Ltac iso_digits w :=
  apply (matchesPattern_app (repeat Digit w)); [apply matchesPattern_pad |].

(** *** The calendar *)

Lemma allFrom_spec (f : Z -> bool) (n : nat) (i x : Z) :
  allFrom f n i = true -> i <= x < i + Z.of_nat n -> f x = true.
Proof.
  revert i. induction n as [| n IH]; intros i Hall Hx; [lia |].
  cbn in Hall. apply andb_true_iff in Hall as [Hi Hall].
  destruct (Z.eq_dec x i) as [-> | Hne]; [done |].
  apply (IH (i + 1)); [done | lia].
Qed.

Lemma era_days_ok : allFrom eraDayOk (Z.to_nat 146097) 0 = true.
Proof. vm_compute. reflexivity. Qed.

Lemma eraDayOk_spec (doe : Z) :
  0 <= doe < 146097 ->
  0 <= yoeOf doe < 400 /\ 1 <= monthOf doe <= 12 /\ 1 <= domOf doe <= 31
  /\ doeOf (yoeOf doe) (monthOf doe) (domOf doe) = doe.
Proof.
  intros Hdoe.
  assert (Hok : eraDayOk doe = true).
  { apply (allFrom_spec eraDayOk (Z.to_nat 146097) 0 doe era_days_ok).
    rewrite Z2Nat.id; lia. }
  change (eraDayOk doe) with
    ((0 <=? yoeOf doe) && (yoeOf doe <? 400)
     && (1 <=? monthOf doe) && (monthOf doe <=? 12)
     && (1 <=? domOf doe) && (domOf doe <=? 31)
     && (doeOf (yoeOf doe) (monthOf doe) (domOf doe) =? doe)) in Hok.
  rewrite !andb_true_iff in Hok.
  destruct Hok as ((((((H1 & H2) & H3) & H4) & H5) & H6) & H7).
  apply Z.leb_le in H1, H3, H4, H5, H6. apply Z.ltb_lt in H2.
  apply Z.eqb_eq in H7. auto with zarith.
Qed.

Lemma civilFromDays_unfold (z0 : Z) :
  let z := z0 + 719468 in
  let era := z / 146097 in
  let doe := z - era * 146097 in
  civilFromDays z0 =
    (yoeOf doe + era * 400 + (if monthOf doe <=? 2 then 1 else 0),
     monthOf doe - 1, domOf doe).
Proof. reflexivity. Qed.

Lemma era_day_range (z : Z) : 0 <= z - z / 146097 * 146097 < 146097.
Proof. Z.div_mod_to_equations. lia. Qed.

(** The fields of a day number are in range, and give the day number back. *)
Lemma civilFromDays_fields (z0 : Z) :
  let '(y, m, d) := civilFromDays z0 in
  0 <= m <= 11 /\ 1 <= d <= 31 /\ daysFromCivil y m d = z0
  /\ (z0 + 719468) / 146097 * 400 <= y <= (z0 + 719468) / 146097 * 400 + 400.
Proof.
  rewrite civilFromDays_unfold.
  set (era := (z0 + 719468) / 146097).
  set (doe := z0 + 719468 - era * 146097).
  destruct (eraDayOk_spec doe (era_day_range _)) as (Hy & Hm & Hd & Hback).
  split; [lia |]. split; [lia |]. split.
  - unfold daysFromCivil.
    replace (monthOf doe - 1 + 1) with (monthOf doe) by lia.
    set (y' := if monthOf doe <=? 2 then _ else _).
    assert (Hy' : y' = yoeOf doe + era * 400).
    { unfold y'. destruct (monthOf doe <=? 2); lia. }
    rewrite Hy'.
    assert (Hera : (yoeOf doe + era * 400) / 400 = era).
    { rewrite Z.div_add by lia. rewrite Z.div_small by lia. lia. }
    rewrite Hera.
    replace (yoeOf doe + era * 400 - era * 400) with (yoeOf doe) by lia.
    fold (doeOf (yoeOf doe) (monthOf doe) (domOf doe)).
    rewrite Hback. unfold doe. lia.
  - destruct (monthOf doe <=? 2); lia.
Qed.

Lemma Day_valid (t : Date) :
  validDate t -> - 100000000 <= Day t <= 100000000.
Proof.
  unfold validDate, maxTimeValue, Day, msPerDay. intros Ht.
  Z.div_mod_to_equations. lia.
Qed.

Lemma getFullYear_valid (t : Date) :
  validDate t -> - 1000000 < getFullYear t < 1000000.
Proof.
  intros Ht. apply Day_valid in Ht. unfold getFullYear.
  pose proof (civilFromDays_fields (Day t)) as Hf.
  destruct (civilFromDays (Day t)) as [[y m] d]. cbn.
  destruct Hf as (_ & _ & _ & Hy).
  assert (- 690 <= (Day t + 719468) / 146097 <= 690)
    by (Z.div_mod_to_equations; lia).
  lia.
Qed.

Lemma time_fields (t : Date) :
  0 <= getHours t < 24 /\ 0 <= getMinutes t < 60 /\ 0 <= getSeconds t < 60
  /\ 0 <= getMilliseconds t < 1000
  /\ TimeWithinDay t =
       MakeTime (getHours t) (getMinutes t) (getSeconds t) (getMilliseconds t).
Proof.
  unfold getHours, getMinutes, getSeconds, getMilliseconds, MakeTime.
  assert (0 <= TimeWithinDay t < 86400000)
    by (unfold TimeWithinDay, msPerDay; apply Z.mod_pos_bound; lia).
  generalize dependent (TimeWithinDay t). intros w Hw.
  repeat split; Z.div_mod_to_equations; lia.
Qed.

(** A date is determined by its seven fields. *)
Lemma date_of_fields (t1 t2 : Date) :
  getFullYear t1 = getFullYear t2 -> getMonth t1 = getMonth t2 ->
  getDate t1 = getDate t2 -> getHours t1 = getHours t2 ->
  getMinutes t1 = getMinutes t2 -> getSeconds t1 = getSeconds t2 ->
  getMilliseconds t1 = getMilliseconds t2 ->
  t1 = t2.
Proof.
  unfold getFullYear, getMonth, getDate. intros Hy Hm Hd Hh Hmi Hs Hms.
  pose proof (civilFromDays_fields (Day t1)) as H1.
  pose proof (civilFromDays_fields (Day t2)) as H2.
  destruct (civilFromDays (Day t1)) as [[y1 m1] d1].
  destruct (civilFromDays (Day t2)) as [[y2 m2] d2].
  cbn in Hy, Hm, Hd. subst y2 m2 d2.
  destruct H1 as (_ & _ & H1 & _), H2 as (_ & _ & H2 & _).
  assert (HD : Day t1 = Day t2) by congruence.
  pose proof (time_fields t1) as (_ & _ & _ & _ & Hw1).
  pose proof (time_fields t2) as (_ & _ & _ & _ & Hw2).
  assert (HW : TimeWithinDay t1 = TimeWithinDay t2) by congruence.
  unfold Day, TimeWithinDay, msPerDay in HD, HW.
  rewrite (Z.div_mod t1 86400000), (Z.div_mod t2 86400000) by lia.
  by rewrite HD, HW.
Qed.

Lemma toISOString_unfold (t : Date) :
  toISOString t = isoYear (getFullYear t) +:+ isoAfterYear t.
Proof. reflexivity. Qed.

Lemma isoAfterYear_shape (t : Date) :
  matchesPattern isoRest (isoAfterYear t) = true.
Proof.
  unfold isoAfterYear.
  iso_lit "-"%char. iso_digits 2%nat. iso_lit "-"%char. iso_digits 2%nat.
  iso_lit "T"%char. iso_digits 2%nat. iso_lit ":"%char. iso_digits 2%nat.
  iso_lit ":"%char. iso_digits 2%nat. iso_lit "."%char.
  apply (matchesPattern_app (repeat Digit 3) [Lit "Z"%char]);
    [apply matchesPattern_pad | reflexivity].
Qed.

(** What [toISOString] returns is an ISO string. *)
Lemma toISOString_shape (t : Date) : isISOString (toISOString t) = true.
Proof.
  rewrite toISOString_unfold. unfold isISOString.
  pose proof (isoAfterYear_shape t) as Hrest.
  generalize dependent (isoAfterYear t). intros rest Hrest.
  unfold isoYear.
  destruct ((0 <=? getFullYear t) && (getFullYear t <=? 9999)).
  - apply orb_true_iff. left.
    apply (matchesPattern_app (repeat Digit 4) isoRest); [| done].
    apply matchesPattern_pad.
  - apply orb_true_iff. right.
    destruct (getFullYear t <? 0); rewrite append_assoc.
    + apply (matchesPattern_app [Sign] (repeat Digit 6 ++ isoRest) "-");
        [reflexivity |].
      apply matchesPattern_app; [apply matchesPattern_pad | done].
    + apply (matchesPattern_app [Sign] (repeat Digit 6 ++ isoRest) "+");
        [reflexivity |].
      apply matchesPattern_app; [apply matchesPattern_pad | done].
Qed.

(** *** Reading the digits back *)

Lemma append_head_inj (a1 a2 s1 s2 : string) :
  a1 +:+ s1 = a2 +:+ s2 ->
  String.length a1 = String.length a2 ->
  a1 = a2 /\ s1 = s2.
Proof.
  intros Heq Hlen. apply (f_equal las) in Heq. rewrite !las_append in Heq.
  apply app_inj_1 in Heq as [H1 H2]; [| by rewrite !las_length].
  split; by apply las_inj.
Qed.

Lemma pad_length (w : nat) (n : Z) : String.length (pad w n) = w.
Proof.
  rewrite (matchesPattern_length _ _ (matchesPattern_pad w n)).
  apply repeat_length.
Qed.

Lemma digitChar_inj (n n' : Z) :
  digitChar n = digitChar n' -> n mod 10 = n' mod 10.
Proof.
  unfold digitChar. intros Heq. apply (f_equal nat_of_ascii) in Heq.
  pose proof (Z.mod_pos_bound n 10). pose proof (Z.mod_pos_bound n' 10).
  rewrite !nat_ascii_embedding in Heq by lia. lia.
Qed.

Lemma padDigits_inj (w : nat) (n n' : Z) (acc acc' : string) :
  padDigits w n acc = padDigits w n' acc' ->
  String.length acc = String.length acc' ->
  acc = acc' /\ n mod 10 ^ Z.of_nat w = n' mod 10 ^ Z.of_nat w.
Proof.
  revert n n' acc acc'. induction w as [| w IH]; intros n n' acc acc' Heq Hlen.
  - cbn in Heq. split; [done |]. cbn. by rewrite !Z.mod_1_r.
  - cbn [padDigits] in Heq. apply IH in Heq as [Hacc Hmod]; [| cbn; lia].
    injection Hacc as Hd Hacc. apply digitChar_inj in Hd. split; [done |].
    rewrite Nat2Z.inj_succ, Z.pow_succ_r by lia.
    rewrite !Z.rem_mul_r by lia. lia.
Qed.

Lemma pad_inj (w : nat) (n n' : Z) :
  0 <= n < 10 ^ Z.of_nat w -> 0 <= n' < 10 ^ Z.of_nat w ->
  pad w n = pad w n' -> n = n'.
Proof.
  intros Hn Hn' Heq. apply padDigits_inj in Heq as [_ Heq]; [| done].
  by rewrite !Z.mod_small in Heq.
Qed.

Lemma isoYear_length (y : Z) :
  String.length (isoYear y) =
    if (0 <=? y) && (y <=? 9999) then 4%nat else 7%nat.
Proof.
  unfold isoYear. destruct ((0 <=? y) && (y <=? 9999)).
  - apply pad_length.
  - destruct (y <? 0); rewrite append_cons, append_nil_l; cbn [String.length];
      by rewrite pad_length.
Qed.

Lemma isoYear_inj (y y' : Z) :
  - 1000000 < y < 1000000 -> - 1000000 < y' < 1000000 ->
  isoYear y = isoYear y' -> y = y'.
Proof.
  intros Hy Hy' Heq.
  pose proof (f_equal String.length Heq) as Hlen.
  rewrite !isoYear_length in Hlen. unfold isoYear in Heq.
  destruct ((0 <=? y) && (y <=? 9999)) eqn:Hs.
  - destruct ((0 <=? y') && (y' <=? 9999)) eqn:Hs'; [| discriminate].
    apply andb_true_iff in Hs as [? ?], Hs' as [? ?].
    apply pad_inj in Heq; cbn; lia.
  - destruct ((0 <=? y') && (y' <=? 9999)) eqn:Hs'; [discriminate |].
    apply andb_false_iff in Hs, Hs'.
    destruct (Z.ltb_spec y 0), (Z.ltb_spec y' 0);
      apply append_head_inj in Heq as [Hsign Heq]; try done;
      apply pad_inj in Heq; cbn; lia.
Qed.

Lemma isoAfterYear_inj (t t' : Date) :
  isoAfterYear t = isoAfterYear t' ->
  getMonth t = getMonth t' /\ getDate t = getDate t'
  /\ getHours t = getHours t' /\ getMinutes t = getMinutes t'
  /\ getSeconds t = getSeconds t' /\ getMilliseconds t = getMilliseconds t'.
Proof.
  unfold isoAfterYear. intros Heq.
  pose proof (time_fields t) as (Hh & Hmi & Hs & Hms & _).
  pose proof (time_fields t') as (Hh' & Hmi' & Hs' & Hms' & _).
  pose proof (civilFromDays_fields (Day t)) as Hc.
  pose proof (civilFromDays_fields (Day t')) as Hc'.
  unfold getMonth, getDate in *.
  destruct (civilFromDays (Day t)) as [[y m] d].
  destruct (civilFromDays (Day t')) as [[y' m'] d'].
  cbn [fst snd] in *.
  destruct Hc as (Hm & Hd & _), Hc' as (Hm' & Hd' & _).
  apply append_head_inj in Heq as [_ Heq]; [| done].
  apply append_head_inj in Heq as [Hmonth Heq]; [| by rewrite !pad_length].
  apply append_head_inj in Heq as [_ Heq]; [| done].
  apply append_head_inj in Heq as [Hdate Heq]; [| by rewrite !pad_length].
  apply append_head_inj in Heq as [_ Heq]; [| done].
  apply append_head_inj in Heq as [Hhours Heq]; [| by rewrite !pad_length].
  apply append_head_inj in Heq as [_ Heq]; [| done].
  apply append_head_inj in Heq as [Hminutes Heq]; [| by rewrite !pad_length].
  apply append_head_inj in Heq as [_ Heq]; [| done].
  apply append_head_inj in Heq as [Hseconds Heq]; [| by rewrite !pad_length].
  apply append_head_inj in Heq as [_ Heq]; [| done].
  apply append_head_inj in Heq as [Hmillis _]; [| by rewrite !pad_length].
  apply pad_inj in Hmonth, Hdate, Hhours, Hminutes, Hseconds, Hmillis;
    cbn; lia.
Qed.

(** Two valid dates with the same ISO string are the same date. *)
Lemma toISOString_inj (t t' : Date) :
  validDate t -> validDate t' -> toISOString t = toISOString t' -> t = t'.
Proof.
  intros Hv Hv' Heq. rewrite !toISOString_unfold in Heq.
  apply append_tail_inj in Heq as [Hyear Hrest].
  - apply isoYear_inj in Hyear; try by apply getFullYear_valid.
    apply isoAfterYear_inj in Hrest as (? & ? & ? & ? & ? & ?).
    by apply date_of_fields.
  - by rewrite !(matchesPattern_length _ _ (isoAfterYear_shape _)).
Qed.

(** Two keys are equal only when their four parts are. *)
Lemma keyTemplate_inj (w1 w2 s1 s2 e1 e2 : string) (r1 r2 : Resolution) :
  isISOString s1 = true -> isISOString e1 = true ->
  isISOString s2 = true -> isISOString e2 = true ->
  keyTemplate w1 s1 e1 (resolutionName r1)
    = keyTemplate w2 s2 e2 (resolutionName r2) ->
  w1 = w2 /\ s1 = s2 /\ e1 = e2 /\ r1 = r2.
Proof.
  intros Hs1 He1 Hs2 He2 Heq. unfold keyTemplate in Heq.
  assert (Hshape : forall w s e r,
            w +:+ "-" +:+ s +:+ "-" +:+ e +:+ "-" +:+ r
            = ((w +:+ String "-" s) +:+ String "-" e) +:+ String "-" r).
  { intros w s e r. by rewrite !append_assoc. }
  rewrite !Hshape in Heq.
  apply resolution_tail_unique in Heq as [Heq ->].
  apply iso_tail_unique in Heq as [Heq ->]; [| done | done].
  apply iso_tail_unique in Heq as [-> ->]; done.
Qed.

End KeyFacts.

(** C3.  The key of a range is a function of the well number, the two dates
    and the resolution, and for dates that are not invalid it determines all
    four: two keys are equal exactly when the four arguments are, also when a
    well number contains a dash. *)
Theorem rangeKey_injective (w1 w2 : string) (s1 e1 s2 e2 : JSDate.Date)
    (r1 r2 : SmartTimeSeriesCache.Resolution) :
  JSDate.validDate s1 -> JSDate.validDate e1 ->
  JSDate.validDate s2 -> JSDate.validDate e2 ->
  SmartTimeSeriesCache.rangeKey w1 s1 e1 r1
    = SmartTimeSeriesCache.rangeKey w2 s2 e2 r2
  <-> w1 = w2 /\ s1 = s2 /\ e1 = e2 /\ r1 = r2.
Proof.
  intros Hs1 He1 Hs2 He2. split.
  - unfold SmartTimeSeriesCache.rangeKey. intros Heq.
    apply keyTemplate_inj in Heq as (Hw & Hs & He & Hr);
      try apply toISOString_shape.
    apply toISOString_inj in Hs, He; done.
  - by intros (-> & -> & -> & ->).
Qed.

Lemma rangeKey_injective_witness :
  SmartTimeSeriesCache.rangeKey "MW-1"
    (JSDate.mkDate 2023 0 1 0 0 0 0) (JSDate.mkDate 2023 1 1 0 0 0 0)
    SmartTimeSeriesCache.medium
  = SmartTimeSeriesCache.rangeKey "MW"
      (JSDate.mkDate (-1) 0 1 0 0 0 0) (JSDate.mkDate 2023 1 1 0 0 0 0)
      SmartTimeSeriesCache.medium
  <-> "MW-1" = "MW"
      /\ JSDate.mkDate 2023 0 1 0 0 0 0 = JSDate.mkDate (-1) 0 1 0 0 0 0
      /\ JSDate.mkDate 2023 1 1 0 0 0 0 = JSDate.mkDate 2023 1 1 0 0 0 0
      /\ SmartTimeSeriesCache.medium = SmartTimeSeriesCache.medium.
Proof.
  apply rangeKey_injective;
    unfold JSDate.validDate; vm_compute; split; discriminate.
Defined.

(** ** The smart cache *)

Section SmartCacheFacts.
Import SmartTimeSeriesCache.

Lemma fold_delete_lookup {D : Type} (ks : list string)
    (st : gmap string (IndexedDBCache.CacheEntry D)) (k : string) :
  fold_left IndexedDBCache.delete ks st !! k =
    if decide (k ∈ ks) then None else st !! k.
Proof.
  revert st. induction ks as [| k0 ks IH]; intros st; cbn [fold_left].
  - destruct (decide (k ∈ [])) as [Hin | _]; [| done].
    by apply elem_of_nil in Hin.
  - rewrite IH. unfold IndexedDBCache.delete.
    destruct (decide (k ∈ ks)) as [Hin | Hnin];
      destruct (decide (k ∈ k0 :: ks)) as [Hin' | Hnin']; try done.
    + exfalso. apply Hnin'. by right.
    + apply elem_of_cons in Hin' as [-> | ?]; [| done].
      apply lookup_delete_eq.
    + apply lookup_delete_ne. intros ->. apply Hnin'. by left.
Qed.

Lemma elem_of_getAllKeys {D : Type}
    (st : gmap string (IndexedDBCache.CacheEntry D)) (k : string) :
  k ∈ IndexedDBCache.getAllKeys st <-> is_Some (st !! k).
Proof.
  unfold IndexedDBCache.getAllKeys. rewrite list_elem_of_fmap. split.
  - intros [[k' e] [-> Hin]]. apply elem_of_map_to_list in Hin. by exists e.
  - intros [e He]. exists (k, e). split; [done |].
    by apply elem_of_map_to_list.
Qed.

(** [getByWellNumber] returns entries whose key contains the well number. *)
Lemma getByWellNumber_includes {D : Type} (isTruthy : D -> bool)
    (st : gmap string (IndexedDBCache.CacheEntry D)) (w : string) (now : Z) :
  Forall (fun r : string * D => includes r.1 w = true)
    (IndexedDBCache.getByWellNumber isTruthy st w now).1.
Proof.
  unfold IndexedDBCache.getByWellNumber.
  set (wellKeys := List.filter _ _).
  assert (Hkeys : Forall (fun k => includes k w = true) wellKeys).
  { apply Forall_forall. intros k Hk.
    apply list_elem_of_In, filter_In in Hk. tauto. }
  assert (Hacc : Forall (fun r : string * D => includes r.1 w = true)
                   (([] : list (string * D)), st).1) by constructor.
  revert Hacc. generalize (([] : list (string * D)), st).
  induction Hkeys as [| k ks Hk _ IH]; intros acc Hacc; cbn [fold_left].
  - done.
  - apply IH.
    destruct (IndexedDBCache.get acc.2 k now) as [[d |] st']; [| done].
    destruct (isTruthy d); [| done].
    cbn. apply Forall_app. split; [done |]. by constructor.
Qed.

Lemma invalidateWellData_lookup (c : Cache) (w k : string) :
  store (invalidateWellData c w) !! k =
    if isWellKey w k then None else store c !! k.
Proof.
  unfold invalidateWellData. simpl. rewrite fold_delete_lookup.
  destruct (isWellKey w k) eqn:Hk.
  - destruct (decide _) as [Hin | Hnin]; [done |].
    destruct (store c !! k) as [e |] eqn:Hl; [| done].
    exfalso. apply Hnin. apply list_elem_of_In, filter_In. split; [| done].
    apply list_elem_of_In, elem_of_getAllKeys. by exists e.
  - destruct (decide _) as [Hin | Hnin]; [| done].
    apply list_elem_of_In, filter_In in Hin. destruct Hin as [_ Hin].
    congruence.
Qed.

Lemma isWellKey_rangeKey (w : string) (s e : JSDate.Date) (r : Resolution) :
  isWellKey w (rangeKey w s e r) = true.
Proof.
  unfold isWellKey, rangeKey, keyTemplate.
  rewrite <- (append_assoc w "-" _). apply prefix_append.
Qed.

End SmartCacheFacts.

(** *** The segment cache and its budget *)

Section BudgetFacts.
Import UseViewModeData.
Local Abbreviation Entry := (IndexedDBCache.CacheEntry CachedDataSegment).









Section Evict.
Variable budget : Z.


End Evict.


End BudgetFacts.



(** The scenario of the claim.  With a budget of two readings, the segments
    A and B are put, A is looked up, and C is put: B, accessed least
    recently, is evicted, and A and C are kept. *)
Example accessed_segment_survives :
  let budget := 2 in
  let serializedLength :=
    fun rows : list UseViewModeData.WaterLevelReading =>
      Z.of_nat (List.length rows) in
  let segment :=
    fun (key : string) (t : Z) =>
      UseViewModeData.mkSegment key "W1" "15min" "" ""
        [UseViewModeData.readingMarch] t t 0 in
  let st2 :=
    UseViewModeData.segmentPut budget serializedLength
      (UseViewModeData.segmentPut budget serializedLength ∅
         (segment "A" 1000) 1000)
      (segment "B" 2000) 2000 in
  let st := (UseViewModeData.segmentGet st2 "A" 3000).2 in
  let st' :=
    UseViewModeData.segmentPut budget serializedLength st (segment "C" 4000)
      4000 in
  UseViewModeData.totalSizeBytes st2 = 2
  /\ is_Some (st' !! "A") /\ st' !! "B" = None /\ is_Some (st' !! "C")
  /\ UseViewModeData.totalSizeBytes st' = 2.
Proof.
  vm_compute. repeat split; eexists; reflexivity.
Qed.

(** C9 (as the code has it).  [invalidateWellData] removes every entry that
    was cached for the well through [cacheDataRange], whatever its range and
    resolution; it keeps, unchanged, every entry whose key does not begin with
    the well number followed by a dash; it returns nothing, and sets
    [stats.cacheSize] to the number of entries that are left. *)
Theorem invalidateWellData_removes_well (c : SmartTimeSeriesCache.Cache)
    (w : string) :
  let c' := SmartTimeSeriesCache.invalidateWellData c w in
  (forall s e r,
     SmartTimeSeriesCache.store c' !! SmartTimeSeriesCache.rangeKey w s e r
       = None)
  /\ (forall k,
        SmartTimeSeriesCache.isWellKey w k = false ->
        SmartTimeSeriesCache.store c' !! k
          = SmartTimeSeriesCache.store c !! k)
  /\ SmartTimeSeriesCache.cacheSize (SmartTimeSeriesCache.stats c')
       = IndexedDBCache.size (SmartTimeSeriesCache.store c').
Proof.
  intros c'. repeat split.
  - intros s e r. unfold c'. rewrite invalidateWellData_lookup.
    by rewrite isWellKey_rangeKey.
  - intros k Hk. unfold c'. rewrite invalidateWellData_lookup. by rewrite Hk.
Qed.

Lemma invalidateWellData_removes_well_witness :
  let s := JSDate.mkDate 2023 0 1 0 0 0 0 in
  let e := JSDate.mkDate 2023 1 1 0 0 0 0 in
  let c :=
    SmartTimeSeriesCache.cacheDataRange
      (SmartTimeSeriesCache.cacheDataRange SmartTimeSeriesCache.emptyCache
         "W1" s e [] SmartTimeSeriesCache.medium 3600000 1000)
      "W2" s e [] SmartTimeSeriesCache.low 3600000 2000 in
  let k := SmartTimeSeriesCache.rangeKey "W2" s e SmartTimeSeriesCache.low in
  SmartTimeSeriesCache.isWellKey "W1" k = false
  /\ SmartTimeSeriesCache.store
       (SmartTimeSeriesCache.invalidateWellData c "W1") !! k
     = SmartTimeSeriesCache.store c !! k.
Proof.
  intros s e c k. split; [vm_compute; reflexivity |].
  apply (proj1 (proj2 (invalidateWellData_removes_well c "W1"))).
  vm_compute. reflexivity.
Defined.

(** C9 fails as stated.  With a segment cached for well MW-1 and one for well
    MW, invalidating MW also removes the segment of MW-1, whose key begins
    with "MW-". *)
Lemma invalidateWellData_removes_other_well :
  let s := JSDate.mkDate 2023 0 1 0 0 0 0 in
  let e := JSDate.mkDate 2023 1 1 0 0 0 0 in
  let c :=
    SmartTimeSeriesCache.cacheDataRange
      (SmartTimeSeriesCache.cacheDataRange SmartTimeSeriesCache.emptyCache
         "MW-1" s e [] SmartTimeSeriesCache.medium 3600000 1000)
      "MW" s e [] SmartTimeSeriesCache.medium 3600000 2000 in
  let k := SmartTimeSeriesCache.rangeKey "MW-1" s e SmartTimeSeriesCache.medium in
  is_Some (SmartTimeSeriesCache.store c !! k)
  /\ SmartTimeSeriesCache.store
       (SmartTimeSeriesCache.invalidateWellData c "MW") !! k = None.
Proof.
  vm_compute. split; [eexists; reflexivity | reflexivity].
Qed.

(** ** The running statistics *)

Section Statistics.
Import SmartTimeSeriesCache.

Lemma truthy_present (r : option Payload) :
  truthy r = true -> is_Some r.
Proof. by destruct r as [p |]; [exists p |]. Qed.

Lemma getTimeSeriesData_stats (c : Cache) (key : string)
    (startTime now endTime : Z) :
  let r := (IndexedDBCache.get (store c) key now).1 in
  let c' := (getTimeSeriesData c key startTime now endTime).2 in
  (getTimeSeriesData c key startTime now endTime).1 = r
  /\ totalRequests (stats c') = totalRequests (stats c) + 1
  /\ totalHits (stats c') = totalHits (stats c) + hitOf r
  /\ hitRate (stats c')
     = hitRateOf (totalHits (stats c')) (totalRequests (stats c')).
Proof.
  unfold getTimeSeriesData, hitOf.
  destruct (IndexedDBCache.get (store c) key now) as [r st] eqn:Hget.
  cbn [fst snd stats totalRequests totalHits hitRate].
  split; [done |]. split; [done |]. split; [| done].
  destruct (truthy r); lia.
Qed.

Lemma runOp_other (c : Cache) (o : Op) :
  isLookup o = false ->
  (runOp c o).1 = [] /\ sameCounters c (runOp c o).2.
Proof.
  destruct o; cbn; try discriminate; intros _; by repeat split.
Qed.

Lemma countTruthy_cons (r : option Payload) (rs : list (option Payload)) :
  countTruthy (r :: rs) = hitOf r + countTruthy rs.
Proof.
  unfold countTruthy, hitOf. cbn [List.filter].
  destruct (truthy r); cbn [List.length]; lia.
Qed.

(** The counters after a sequence of calls, from those before it. *)
Lemma runOps_counters (ops : list Op) (c : Cache) :
  let results := (runOps c ops).1 in
  let c' := (runOps c ops).2 in
  let n := Z.of_nat (List.length (List.filter isLookup ops)) in
  totalRequests (stats c') = totalRequests (stats c) + n
  /\ totalHits (stats c') = totalHits (stats c) + countTruthy results
  /\ Z.of_nat (List.length results) = n
  /\ hitRate (stats c') =
       (if n =? 0 then hitRate (stats c)
        else hitRateOf (totalHits (stats c')) (totalRequests (stats c'))).
Proof.
  revert c. induction ops as [| o ops IH]; intros c.
  - cbn. unfold countTruthy. cbn. repeat split; lia.
  - cbn [runOps].
    destruct (runOp c o) as [r1 c1] eqn:H1.
    specialize (IH c1).
    destruct (runOps c1 ops) as [r2 c2] eqn:H2.
    cbn [fst snd] in *. destruct IH as (IHq & IHh & IHl & IHr).
    destruct (isLookup o) eqn:Ho.
    + destruct o; try discriminate. cbn [runOp] in H1.
      pose proof (getTimeSeriesData_stats c key startTime now endTime)
        as (Hr & Hq & Hh & Hrate).
      destruct (getTimeSeriesData c key startTime now endTime) as [r c1'].
      injection H1 as <- <-. cbn [fst snd] in *.
      cbn [List.filter isLookup List.length app].
      rewrite countTruthy_cons, Nat2Z.inj_succ. subst r.
      split; [lia |]. split; [lia |]. split; [lia |].
      rewrite IHr.
      destruct (Z.eqb_spec (Z.of_nat (List.length (List.filter isLookup ops))) 0)
        as [Hz | Hnz].
      * assert (Hq2 : totalRequests (stats c2) = totalRequests (stats c1'))
          by lia.
        assert (Hh2 : totalHits (stats c2) = totalHits (stats c1')).
        { rewrite IHh. destruct r2; [unfold countTruthy; cbn; lia |].
          cbn [List.length] in IHl. lia. }
        rewrite Hq2, Hh2, Hrate.
        destruct (Z.eqb_spec (Z.succ (Z.of_nat (List.length (List.filter isLookup ops)))) 0);
          [lia | reflexivity].
      * destruct (Z.eqb_spec (Z.succ (Z.of_nat (List.length (List.filter isLookup ops)))) 0);
          [lia | reflexivity].
    + pose proof (runOp_other c o Ho) as [Hnil (Sq & Sh & Sr)].
      rewrite H1 in *. cbn [fst snd] in *. subst r1.
      cbn [List.filter]. rewrite Ho. cbn [app].
      rewrite <- Sq, <- Sh, <- Sr. by repeat split.
Qed.

Lemma countTruthy_bounds (rs : list (option Payload)) :
  0 <= countTruthy rs <= countPresent rs
  /\ countPresent rs <= Z.of_nat (List.length rs).
Proof.
  unfold countTruthy, countPresent. induction rs as [| r rs IH]; [cbn; lia |].
  cbn [List.filter List.length]. destruct r as [[| | []] |];
    cbn [truthy List.length]; lia.
Qed.

End Statistics.

(** C10 (as the code has it).  After [clearStats] and any sequence of calls
    of the other public methods, each resolved before the next:
    [totalRequests] is the number of lookups made since; [totalHits] is the
    number of them that returned a truthy value, which is at most the
    number of them for which the store had a present, unexpired value, and
    so at most [totalRequests]; and [hitRate] is 0 before the first lookup
    and then the double [(totalHits / totalRequests) * 100]. *)
Theorem lookup_statistics (c : SmartTimeSeriesCache.Cache)
    (ops : list SmartTimeSeriesCache.Op) :
  let c0 := SmartTimeSeriesCache.clearStats c in
  let results := (SmartTimeSeriesCache.runOps c0 ops).1 in
  let st := SmartTimeSeriesCache.stats (SmartTimeSeriesCache.runOps c0 ops).2 in
  SmartTimeSeriesCache.totalRequests st =
    Z.of_nat (List.length (List.filter SmartTimeSeriesCache.isLookup ops))
  /\ List.length results =
       List.length (List.filter SmartTimeSeriesCache.isLookup ops)
  /\ SmartTimeSeriesCache.totalHits st =
       SmartTimeSeriesCache.countTruthy results
  /\ 0 <= SmartTimeSeriesCache.totalHits st
       <= SmartTimeSeriesCache.countPresent results
  /\ SmartTimeSeriesCache.countPresent results
       <= SmartTimeSeriesCache.totalRequests st
  /\ SmartTimeSeriesCache.hitRate st =
       (if SmartTimeSeriesCache.totalRequests st =? 0 then 0%float
        else SmartTimeSeriesCache.hitRateOf
               (SmartTimeSeriesCache.totalHits st)
               (SmartTimeSeriesCache.totalRequests st)).
Proof.
  intros c0 results st.
  pose proof (runOps_counters ops c0) as (Hq & Hh & Hl & Hr).
  fold results in Hh, Hl. fold st in Hq, Hh, Hr.
  change (SmartTimeSeriesCache.totalRequests (SmartTimeSeriesCache.stats c0))
    with 0 in Hq.
  change (SmartTimeSeriesCache.totalHits (SmartTimeSeriesCache.stats c0))
    with 0 in Hh.
  change (SmartTimeSeriesCache.hitRate (SmartTimeSeriesCache.stats c0))
    with 0%float in Hr.
  rewrite Z.add_0_l in Hq, Hh.
  pose proof (countTruthy_bounds results) as [Hb1 Hb2].
  split; [lia |]. split; [lia |]. split; [lia |]. split; [lia |].
  split; [lia |]. by rewrite Hr, <- Hq.
Qed.

(** C10 fails as stated.  Of three lookups one finds its key: the counters
    are 3 and 1, and [hitRate] is the double [(1 / 3) * 100], which is not
    the double [100 * 1 / 3].  And a value that is not truthy, stored
    through the inherited [set], is returned by a lookup that is not counted
    as a hit. *)
Lemma hit_rate_is_rounded :
  (let c1 :=
     SmartTimeSeriesCache.cacheTimeSeriesData
       (SmartTimeSeriesCache.clearStats SmartTimeSeriesCache.emptyCache)
       "MW-1" [] 3600000 1000 in
   let ops :=
     [ SmartTimeSeriesCache.OpGet "MW-1" 2000 2000 2001;
       SmartTimeSeriesCache.OpGet "MW-2" 2002 2002 2003;
       SmartTimeSeriesCache.OpGet "MW-3" 2004 2004 2005 ] in
   let st := SmartTimeSeriesCache.stats (SmartTimeSeriesCache.runOps c1 ops).2 in
   SmartTimeSeriesCache.totalRequests st = 3
   /\ SmartTimeSeriesCache.totalHits st = 1
   /\ SmartTimeSeriesCache.hitRate st
      = (SmartTimeSeriesCache.double 1 / SmartTimeSeriesCache.double 3 * 100)%float
   /\ SmartTimeSeriesCache.hitRate st
      <> (100 * SmartTimeSeriesCache.double (SmartTimeSeriesCache.totalHits st)
          / SmartTimeSeriesCache.double (SmartTimeSeriesCache.totalRequests st))%float)
  /\ (let c2 :=
        (SmartTimeSeriesCache.runOp
           (SmartTimeSeriesCache.clearStats SmartTimeSeriesCache.emptyCache)
           (SmartTimeSeriesCache.OpSet "note" (SmartTimeSeriesCache.Other false)
              3600000 1000)).2 in
      let r := SmartTimeSeriesCache.getTimeSeriesData c2 "note" 2000 2000 2001 in
      r.1 = Some (SmartTimeSeriesCache.Other false)
      /\ SmartTimeSeriesCache.totalRequests (SmartTimeSeriesCache.stats r.2) = 1
      /\ SmartTimeSeriesCache.totalHits (SmartTimeSeriesCache.stats r.2) = 0).
Proof.
  split.
  - cbn zeta. split; [vm_compute; reflexivity |].
    split; [vm_compute; reflexivity |]. split; [vm_compute; reflexivity |].
    intros Heq.
    apply (f_equal (fun x => PrimFloat.eqb x
             (SmartTimeSeriesCache.double 1 / SmartTimeSeriesCache.double 3
              * 100)%float)) in Heq.
    vm_compute in Heq. discriminate Heq.
  - vm_compute. repeat split.
Qed.

(** ** The adaptive sampling rate *)

Section Sampling.
Import UseViewModeData.

Lemma ceilDiv_pos (a b : Z) : 0 < b -> ceilDiv a b = Fin (- ((- a) / b)).
Proof. intros Hb. unfold ceilDiv. by destruct (Z.eqb_spec b 0); [lia |]. Qed.

Lemma ceil_le_iff (a b n : Z) : 0 < b -> - ((- a) / b) <= n <-> a <= n * b.
Proof. intros Hb. split; intros Hle; Z.div_mod_to_equations; nia. Qed.

Lemma Qle_bool_quotient (a b n : Z) :
  0 < b ->
  Qle_bool (inject_Z a / inject_Z b) (inject_Z n) = (- ((- a) / b) <=? n).
Proof.
  intros Hb. destruct b as [| p | p]; try lia.
  unfold Qle_bool, Qdiv, Qmult, Qinv, inject_Z. cbn [Qnum Qden].
  destruct (Z.leb_spec (- (- a / Z.pos p)) n) as [Hle | Hgt].
  - apply Z.leb_le. apply ceil_le_iff in Hle; lia.
  - apply Z.leb_gt.
    assert (Hn : ~ a <= n * Z.pos p) by (rewrite <- ceil_le_iff; lia).
    lia.
Qed.

Lemma ceil_monotone (a1 a2 b : Z) :
  0 < b -> a2 <= a1 -> - ((- a2) / b) <= - ((- a1) / b).
Proof.
  intros Hb Hle.
  assert (- a1 / b <= - a2 / b) by (apply Z.div_le_mono; lia). lia.
Qed.

End Sampling.

(** C6.  With a positive target point count, the rate computed from the
    well's span is the first rung of the ladder 15min, 30min, 1hour, 3hour,
    6hour, 12hour, 1day, 2day, 1week that is at least
    [daysBetween * 1440 / targetPoints] minutes, and 1week when no rung is. *)
Theorem adaptive_rate_first_rung (config : ViewModes.ViewModeConfig)
    (startDate endDate : JSDate.Date) :
  0 < ViewModes.targetPoints config ->
  UseViewModeData.calculateFullViewSampling config
    (UseViewModeData.RangeOk startDate endDate) =
  UseViewModeData.firstRungAtLeast
    (inject_Z (DateFns.differenceInDays endDate startDate * 1440)
     / inject_Z (ViewModes.targetPoints config)).
Proof.
  intros Hpos. unfold UseViewModeData.calculateFullViewSampling,
    UseViewModeData.samplingForSpan, UseViewModeData.firstRungAtLeast.
  set (days := DateFns.differenceInDays endDate startDate).
  replace (days * 24 * 60) with (days * 1440) by lia.
  rewrite ceilDiv_pos by done.
  cbn [UseViewModeData.ladder List.find snd fst UseViewModeData.numLeb].
  rewrite !Qle_bool_quotient by done.
  repeat (match goal with
          | |- context [?a <=? ?b] => destruct (a <=? b)
          end; try reflexivity).
Qed.

Lemma adaptive_rate_first_rung_witness :
  UseViewModeData.calculateFullViewSampling
    (ViewModes.VIEW_MODES ViewModes.full)
    (UseViewModeData.RangeOk (JSDate.mkDate 2020 0 1 0 0 0 0)
       (JSDate.mkDate 2024 5 1 0 0 0 0)) =
  UseViewModeData.firstRungAtLeast
    (inject_Z
       (DateFns.differenceInDays (JSDate.mkDate 2024 5 1 0 0 0 0)
          (JSDate.mkDate 2020 0 1 0 0 0 0) * 1440)
     / inject_Z (ViewModes.targetPoints (ViewModes.VIEW_MODES ViewModes.full))).
Proof.
  apply (adaptive_rate_first_rung (ViewModes.VIEW_MODES ViewModes.full)).
  vm_compute. reflexivity.
Defined.

(** C7.  With a positive target point count, a longer span never resolves to
    a rate that comes earlier in the ladder than the rate of a shorter span. *)
Theorem adaptive_rate_monotone (targetPoints days1 days2 : Z) :
  0 < targetPoints ->
  days2 <= days1 ->
  (UseViewModeData.rungIndex
     (UseViewModeData.samplingForSpan days2 targetPoints)
   <= UseViewModeData.rungIndex
        (UseViewModeData.samplingForSpan days1 targetPoints))%nat.
Proof.
  intros Hpos Hle. unfold UseViewModeData.samplingForSpan.
  rewrite !ceilDiv_pos by done.
  assert (Hm : - (- (days2 * 24 * 60) / targetPoints)
               <= - (- (days1 * 24 * 60) / targetPoints))
    by (apply ceil_monotone; lia).
  revert Hm.
  generalize (- (- (days1 * 24 * 60) / targetPoints)).
  generalize (- (- (days2 * 24 * 60) / targetPoints)).
  intros m2 m1 Hm. cbn [UseViewModeData.numLeb].
  repeat (match goal with
          | |- context [?a <=? ?b] => destruct (Z.leb_spec a b)
          end);
    solve [ vm_compute; lia | lia ].
Qed.

Lemma adaptive_rate_monotone_witness :
  (UseViewModeData.rungIndex (UseViewModeData.samplingForSpan 365 5000)
   <= UseViewModeData.rungIndex (UseViewModeData.samplingForSpan 3650 5000))%nat.
Proof. apply adaptive_rate_monotone; lia. Defined.

(** ** Months *)

Section Calendar.
Import JSDate.

(** The two tests hold of the 4800 months and of the 146097 days of one era
    of 400 years; they are evaluated when the proofs are checked. *)
Lemma month_lengths_ok : allFrom monthLengthOk (Z.to_nat 4800) 0 = true.
Proof. vm_cast_no_check (eq_refl true). Qed.

Lemma era_days_in_month :
  allFrom dayInMonthOk (Z.to_nat 146097) (- 719468) = true.
Proof. vm_cast_no_check (eq_refl true). Qed.

(** The calendar repeats after an era. *)
Lemma civilFromDays_period (z k : Z) :
  civilFromDays (z + 146097 * k)
  = ((civilFromDays z).1.1 + 400 * k, (civilFromDays z).1.2,
     (civilFromDays z).2).
Proof.
  rewrite !civilFromDays_unfold. cbn zeta. cbn [fst snd].
  replace (z + 146097 * k + 719468) with (z + 719468 + k * 146097) by lia.
  rewrite Z.div_add by lia.
  replace (z + 719468 + k * 146097 - ((z + 719468) / 146097 + k) * 146097)
    with (z + 719468 - (z + 719468) / 146097 * 146097) by lia.
  f_equal. f_equal. lia.
Qed.

Lemma daysFromCivil_period (y m d k : Z) :
  daysFromCivil (y + 400 * k) m d = daysFromCivil y m d + 146097 * k.
Proof.
  unfold daysFromCivil. cbn zeta.
  set (y' := if m + 1 <=? 2 then y - 1 else y).
  replace (if m + 1 <=? 2 then y + 400 * k - 1 else y + 400 * k)
    with (y' + k * 400) by (unfold y'; destruct (m + 1 <=? 2); lia).
  rewrite Z.div_add by lia.
  replace (y' + k * 400 - (y' / 400 + k) * 400) with (y' - y' / 400 * 400)
    by lia.
  lia.
Qed.

Lemma daysFromCivil_day (y m d : Z) :
  daysFromCivil y m d = daysFromCivil y m 1 + d - 1.
Proof. unfold daysFromCivil. cbn zeta. lia. Qed.

Lemma monthStart_period (i k : Z) :
  monthStart (i + 4800 * k) = monthStart i + 146097 * k.
Proof.
  unfold monthStart.
  replace (i + 4800 * k) with (i + (400 * k) * 12) by lia.
  rewrite Z.div_add, Z.mod_add by lia. apply daysFromCivil_period.
Qed.

Lemma monthStart_fields (y m : Z) :
  0 <= m <= 11 -> monthStart (12 * y + m) = daysFromCivil y m 1.
Proof.
  intros Hm. unfold monthStart.
  replace (12 * y + m) with (m + y * 12) by lia.
  rewrite Z.div_add, Z.mod_add by lia.
  rewrite Z.div_small, Z.mod_small by lia. f_equal; lia.
Qed.

(** Every month has 28 to 31 days. *)
Lemma daysInMonth_bounds (i : Z) : 28 <= daysInMonth i <= 31.
Proof.
  assert (Hok : monthLengthOk (i mod 4800) = true).
  { apply (allFrom_spec monthLengthOk (Z.to_nat 4800) 0 _ month_lengths_ok).
    rewrite Z2Nat.id by lia. pose proof (Z.mod_pos_bound i 4800). lia. }
  unfold monthLengthOk in Hok. apply andb_prop in Hok as [H1 H2].
  assert (Hlen : daysInMonth i = daysInMonth (i mod 4800)).
  { unfold daysInMonth.
    rewrite (Z.div_mod i 4800) at 1 2 by lia.
    replace (4800 * (i / 4800) + i mod 4800 + 1)
      with (i mod 4800 + 1 + 4800 * (i / 4800)) by lia.
    replace (4800 * (i / 4800) + i mod 4800)
      with (i mod 4800 + 4800 * (i / 4800)) by lia.
    rewrite !monthStart_period. lia. }
  rewrite Hlen. lia.
Qed.

Lemma monthStart_next (i : Z) :
  monthStart (i + 1) = monthStart i + daysInMonth i.
Proof. unfold daysInMonth. lia. Qed.

Lemma monthStart_mono (i j : Z) :
  i <= j -> monthStart i + 28 * (j - i) <= monthStart j.
Proof.
  intros Hle. replace j with (i + Z.of_nat (Z.to_nat (j - i))) by lia.
  generalize (Z.to_nat (j - i)). intros n. induction n as [| n IH].
  - replace (i + Z.of_nat 0) with i by lia. lia.
  - replace (i + Z.of_nat (S n)) with (i + Z.of_nat n + 1) by lia.
    rewrite monthStart_next. pose proof (daysInMonth_bounds (i + Z.of_nat n)).
    lia.
Qed.

(** The fields of a day number: the day of the month is within the month. *)
Lemma day_in_month (z : Z) :
  let '(y, m, d) := civilFromDays z in
  0 <= m <= 11 /\ 1 <= d
  /\ z = monthStart (12 * y + m) + d - 1
  /\ z < monthStart (12 * y + m + 1).
Proof.
  pose proof (civilFromDays_fields z) as Hf.
  set (k := (z + 719468) / 146097).
  set (z0 := z - 146097 * k).
  assert (Hz0 : - 719468 <= z0 < - 719468 + 146097).
  { unfold z0, k. Z.div_mod_to_equations. lia. }
  assert (Hok : dayInMonthOk z0 = true).
  { apply (allFrom_spec dayInMonthOk (Z.to_nat 146097) (- 719468) _
             era_days_in_month).
    rewrite Z2Nat.id by lia. lia. }
  pose proof (civilFromDays_period z0 k) as Hper.
  replace (z0 + 146097 * k) with z in Hper by (unfold z0; lia).
  unfold dayInMonthOk in Hok.
  destruct (civilFromDays z0) as [[y0 m0] d0]. cbn [fst snd] in Hper.
  rewrite Hper in Hf |- *. destruct Hf as (Hm & Hd & Hback & _).
  apply Z.ltb_lt in Hok.
  split; [done |]. split; [lia |]. split.
  - rewrite monthStart_fields by done. rewrite daysFromCivil_day in Hback. lia.
  - replace (12 * (y0 + 400 * k) + m0 + 1)
      with (12 * y0 + m0 + 1 + 4800 * k) by lia.
    rewrite monthStart_period. unfold z0 in Hok. lia.
Qed.

(** A day between the first days of two months that follow each other is
    a day of the first of them. *)
Lemma civil_of_month_day (i z : Z) :
  monthStart i <= z < monthStart (i + 1) ->
  civilFromDays z = (i / 12, i mod 12, z - monthStart i + 1).
Proof.
  intros Hz. pose proof (day_in_month z) as Hf.
  destruct (civilFromDays z) as [[y m] d].
  destruct Hf as (Hm & Hd & Heq & Hlt).
  assert (Hi : 12 * y + m = i).
  { destruct (Z.lt_trichotomy (12 * y + m) i) as [Hl | [He | Hg]]; [| done |].
    - pose proof (monthStart_mono (12 * y + m + 1) i). lia.
    - pose proof (monthStart_mono (i + 1) (12 * y + m)). lia. }
  subst i. f_equal; [f_equal |].
  - Z.div_mod_to_equations. lia.
  - Z.div_mod_to_equations. lia.
  - lia.
Qed.

Lemma TimeWithinDay_bounds (t : Date) : 0 <= TimeWithinDay t < msPerDay.
Proof. unfold TimeWithinDay, msPerDay. apply Z.mod_pos_bound. lia. Qed.

Lemma Day_MakeDate (day time : Z) :
  0 <= time < msPerDay -> Day (MakeDate day time) = day.
Proof.
  unfold Day, MakeDate, msPerDay. intros Ht.
  Z.div_mod_to_equations. lia.
Qed.

Lemma TimeWithinDay_MakeDate (day time : Z) :
  0 <= time < msPerDay -> TimeWithinDay (MakeDate day time) = time.
Proof.
  unfold TimeWithinDay, MakeDate, msPerDay. intros Ht.
  Z.div_mod_to_equations. lia.
Qed.

Lemma MakeDate_parts (t : Date) : t = MakeDate (Day t) (TimeWithinDay t).
Proof.
  unfold MakeDate, Day, TimeWithinDay, msPerDay.
  Z.div_mod_to_equations. lia.
Qed.

Lemma MakeDay_monthStart (y m dt : Z) :
  MakeDay y m dt = monthStart (12 * y + m) + dt - 1.
Proof.
  unfold MakeDay, monthStart.
  replace (12 * y + m) with (m + y * 12) by lia.
  rewrite Z.div_add, Z.mod_add by lia. f_equal. f_equal. f_equal. lia.
Qed.

(** A date taken apart: the month, the day of the month within the month,
    and the time of the day. *)
Lemma date_parts (t : Date) :
  t = MakeDate (monthStart (monthIndex t) + getDate t - 1) (TimeWithinDay t)
  /\ 1 <= getDate t <= daysInMonth (monthIndex t)
  /\ 0 <= getMonth t <= 11.
Proof.
  unfold monthIndex, getFullYear, getMonth, getDate, daysInMonth.
  pose proof (day_in_month (Day t)) as Hf.
  destruct (civilFromDays (Day t)) as [[y m] d]. cbn [fst snd].
  destruct Hf as (Hm & Hd & Heq & Hlt).
  split; [rewrite <- Heq; apply MakeDate_parts |]. lia.
Qed.

(** A date put together. *)
Lemma fields_MakeDate (i d w : Z) :
  1 <= d <= daysInMonth i -> 0 <= w < msPerDay ->
  let t := MakeDate (monthStart i + d - 1) w in
  monthIndex t = i /\ getDate t = d /\ TimeWithinDay t = w
  /\ getFullYear t = i / 12 /\ getMonth t = i mod 12.
Proof.
  intros Hd Hw t.
  assert (Hday : Day t = monthStart i + d - 1) by (by apply Day_MakeDate).
  assert (Hc : civilFromDays (Day t) = (i / 12, i mod 12, d)).
  { rewrite Hday, (civil_of_month_day i).
    - f_equal. lia.
    - unfold daysInMonth in Hd. lia. }
  unfold monthIndex, getFullYear, getMonth, getDate. rewrite Hc. cbn [fst snd].
  split; [Z.div_mod_to_equations; lia |]. split; [done |].
  split; [by apply TimeWithinDay_MakeDate | done].
Qed.

Lemma startOfMonth_spec (t : Date) :
  startOfMonth t = MakeDate (monthStart (monthIndex t)) 0.
Proof.
  unfold startOfMonth, setHours, setDate, setMonth2, setFullYear3.
  rewrite Day_MakeDate by apply TimeWithinDay_bounds.
  rewrite MakeDay_monthStart. unfold monthIndex, MakeTime.
  f_equal. lia.
Qed.

Lemma endOfMonth_spec (t : Date) :
  endOfMonth t = MakeDate (monthStart (monthIndex t + 1) - 1) (msPerDay - 1).
Proof.
  unfold endOfMonth, setHours, setFullYear3.
  rewrite Day_MakeDate by apply TimeWithinDay_bounds.
  rewrite MakeDay_monthStart. unfold monthIndex.
  replace (12 * getFullYear t + (getMonth t + 1))
    with (12 * getFullYear t + getMonth t + 1) by lia.
  unfold MakeDate, MakeTime, msPerDay. lia.
Qed.

Lemma setMonth_spec (t : Date) (month : Z) :
  setMonth t month
  = MakeDate (monthStart (12 * getFullYear t + month) + getDate t - 1)
      (TimeWithinDay t).
Proof.
  unfold setMonth, setMonth2, setFullYear3. by rewrite MakeDay_monthStart.
Qed.

Lemma setFullYear_spec (t : Date) (year : Z) :
  setFullYear t year
  = MakeDate (monthStart (12 * year + getMonth t) + getDate t - 1)
      (TimeWithinDay t).
Proof.
  unfold setFullYear, setFullYear3. by rewrite MakeDay_monthStart.
Qed.

Lemma addMonths_zero (t : Date) : addMonths t 0 = t.
Proof. reflexivity. Qed.

Lemma addMonths_unfold (t : Date) (amount : Z) :
  amount <> 0 ->
  addMonths t amount
  = (if getDate t
        >=? getDate (setMonth2 t (getMonth t + amount + 1) 0)
     then setMonth2 t (getMonth t + amount + 1) 0
     else setFullYear3 t
            (getFullYear (setMonth2 t (getMonth t + amount + 1) 0))
            (getMonth (setMonth2 t (getMonth t + amount + 1) 0))
            (getDate t)).
Proof.
  intros Hne. unfold addMonths.
  destruct (Z.eqb_spec amount 0) as [Heq | _]; [done | reflexivity].
Qed.

Lemma endOfDesiredMonth_spec (t : Date) (amount : Z) :
  setMonth2 t (getMonth t + amount + 1) 0
  = MakeDate
      (monthStart (monthIndex t + amount)
       + daysInMonth (monthIndex t + amount) - 1)
      (TimeWithinDay t).
Proof.
  unfold setMonth2, setFullYear3. rewrite MakeDay_monthStart.
  unfold daysInMonth, monthIndex. f_equal.
  replace (12 * getFullYear t + (getMonth t + amount + 1))
    with (12 * getFullYear t + getMonth t + amount + 1) by lia.
  lia.
Qed.

(** date-fns [addMonths] keeps the day of the month, or takes the last day
    of the month when the month is shorter. *)
Lemma addMonths_spec (t : Date) (amount : Z) :
  addMonths t amount
  = MakeDate
      (monthStart (monthIndex t + amount)
       + Z.min (getDate t) (daysInMonth (monthIndex t + amount)) - 1)
      (TimeWithinDay t).
Proof.
  destruct (date_parts t) as (Ht & Hd & Hm).
  destruct (Z.eq_dec amount 0) as [-> | Hne].
  - rewrite addMonths_zero, Z.add_0_r, Z.min_l by lia. exact Ht.
  - rewrite addMonths_unfold by done. rewrite endOfDesiredMonth_spec.
    pose proof (daysInMonth_bounds (monthIndex t + amount)) as Hlen.
    destruct (fields_MakeDate (monthIndex t + amount)
                (daysInMonth (monthIndex t + amount)) (TimeWithinDay t))
      as (Hi & Hdd & _ & Hy & Hmo); [lia | apply TimeWithinDay_bounds |].
    rewrite Hdd.
    destruct (Z.geb_spec (getDate t) (daysInMonth (monthIndex t + amount)))
      as [Hge | Hlt].
    + by rewrite Z.min_r by lia.
    + rewrite Z.min_l by lia. unfold setFullYear3.
      rewrite Hy, Hmo, MakeDay_monthStart.
      replace (12 * ((monthIndex t + amount) / 12)
               + (monthIndex t + amount) mod 12)
        with (monthIndex t + amount)
        by (pose proof (Z.div_mod (monthIndex t + amount) 12); lia).
      reflexivity.
Qed.

Lemma monthStart_strict (i j : Z) : i < j -> monthStart i < monthStart j.
Proof. intros Hlt. pose proof (monthStart_mono i j). lia. Qed.

Lemma monthStart_upper (i j : Z) :
  i <= j -> monthStart j <= monthStart i + 31 * (j - i).
Proof.
  intros Hle. replace j with (i + Z.of_nat (Z.to_nat (j - i))) by lia.
  generalize (Z.to_nat (j - i)). intros n. induction n as [| n IH].
  - replace (i + Z.of_nat 0) with i by lia. lia.
  - replace (i + Z.of_nat (S n)) with (i + Z.of_nat n + 1) by lia.
    rewrite monthStart_next. pose proof (daysInMonth_bounds (i + Z.of_nat n)).
    lia.
Qed.

Lemma Day_parts (t : Date) :
  Day t = monthStart (monthIndex t) + getDate t - 1.
Proof.
  destruct (date_parts t) as (Ht & Hd & Hm).
  rewrite Ht at 1. apply Day_MakeDate, TimeWithinDay_bounds.
Qed.

(** [addMonths] moves the month by the amount, keeps the time of the day,
    and keeps the day of the month unless the month is shorter. *)
Lemma addMonths_fields (t : Date) (amount : Z) :
  monthIndex (addMonths t amount) = monthIndex t + amount
  /\ getDate (addMonths t amount)
     = Z.min (getDate t) (daysInMonth (monthIndex t + amount))
  /\ TimeWithinDay (addMonths t amount) = TimeWithinDay t.
Proof.
  destruct (date_parts t) as (Ht & Hd & Hm).
  pose proof (daysInMonth_bounds (monthIndex t + amount)) as Hlen.
  rewrite addMonths_spec.
  destruct (fields_MakeDate (monthIndex t + amount)
              (Z.min (getDate t) (daysInMonth (monthIndex t + amount)))
              (TimeWithinDay t))
    as (Hi & Hdd & Hw & _); [lia | apply TimeWithinDay_bounds |].
  split; [exact Hi |]. split; [exact Hdd | exact Hw].
Qed.

End Calendar.

(** ** The navigation guards *)

Section StepFacts.
Import JSDate ViewModes.

Lemma stepNext_addMonths (viewMode : ViewModeState) :
  ViewModeContext.stepNext viewMode
  = addMonths (centerDate viewMode) (ViewModeContext.stepMonths (currentMode viewMode)).
Proof.
  unfold ViewModeContext.stepNext, ViewModeContext.config, ViewModeContext.stepMonths.
  destruct (currentMode viewMode); reflexivity.
Qed.

Lemma stepPrevious_addMonths (viewMode : ViewModeState) :
  ViewModeContext.stepPrevious viewMode
  = addMonths (centerDate viewMode) (- ViewModeContext.stepMonths (currentMode viewMode)).
Proof.
  unfold ViewModeContext.stepPrevious, ViewModeContext.config, ViewModeContext.stepMonths.
  destruct (currentMode viewMode); reflexivity.
Qed.

End StepFacts.

(** C8.  With a known dataset span, [canNavigateNext] is false exactly when
    the range that [navigateNext] leads to ends after the span, and
    [canNavigatePrevious] is false exactly when the range that
    [navigatePrevious] leads to starts before it.  The step that both take
    moves the centre date by the months of the mode's navigation step (1, 6
    or 12) and keeps the time of the day and the day of the month, or the
    last day of a shorter month.  With the span 2020-01-01 to 2024-06-01:
    in the mode 1year at 2024-03-01 the range is 2023-09-01 to 2024-09-01,
    the stepped range ends on 2025-09-01, and [canNavigateNext] is false; in
    the mode 1month at 2024-05-15 the range is May, within the span, the
    stepped range is June, which ends after the span, so [canNavigateNext]
    is false, and [canNavigatePrevious] is true, April being within it. *)
Theorem navigation_guards (dataRange : ViewModes.DateRange) (now : JSDate.Date)
    (viewMode : ViewModes.ViewModeState) (anyRange : ViewModes.DateRange)
    (loading : bool) (status : ViewModes.CacheStatus) :
  let next :=
    ViewModeContext.updateDateRange (Some dataRange) now
      (ViewModeContext.navigateNext viewMode) in
  let previous :=
    ViewModeContext.updateDateRange (Some dataRange) now
      (ViewModeContext.navigatePrevious viewMode) in
  let months := ViewModeContext.stepMonths (ViewModes.currentMode viewMode) in
  let span :=
    Some (ViewModes.mkRange (JSDate.mkDate 2020 0 1 0 0 0 0)
            (JSDate.mkDate 2024 5 1 0 0 0 0)) in
  let march1year :=
    ViewModes.mkViewModeState ViewModes.mode1year
      (JSDate.mkDate 2024 2 1 0 0 0 0) anyRange loading status in
  let may1month :=
    ViewModes.mkViewModeState ViewModes.mode1month
      (JSDate.mkDate 2024 4 15 0 0 0 0) anyRange loading status in
  let rangeOf :=
    fun state : ViewModes.ViewModeState =>
      (JSDate.toISOString
         (ViewModes.start
            (ViewModes.dateRange
               (ViewModeContext.updateDateRange span now state))),
       JSDate.toISOString
         (ViewModes.end_
            (ViewModes.dateRange
               (ViewModeContext.updateDateRange span now state)))) in
  (ViewModeContext.canNavigateNext (Some dataRange) now viewMode
   = negb (ViewModes.end_ dataRange
           <? ViewModes.end_ (ViewModes.dateRange next)))
  /\ (ViewModeContext.canNavigatePrevious (Some dataRange) now viewMode
      = negb (ViewModes.start (ViewModes.dateRange previous)
              <? ViewModes.start dataRange))
  /\ (JSDate.monthIndex (ViewModes.centerDate next)
      = JSDate.monthIndex (ViewModes.centerDate viewMode) + months
      /\ JSDate.getDate (ViewModes.centerDate next)
         = Z.min (JSDate.getDate (ViewModes.centerDate viewMode))
             (JSDate.daysInMonth
                (JSDate.monthIndex (ViewModes.centerDate viewMode) + months))
      /\ JSDate.TimeWithinDay (ViewModes.centerDate next)
         = JSDate.TimeWithinDay (ViewModes.centerDate viewMode))
  /\ (JSDate.monthIndex (ViewModes.centerDate previous)
      = JSDate.monthIndex (ViewModes.centerDate viewMode) - months
      /\ JSDate.getDate (ViewModes.centerDate previous)
         = Z.min (JSDate.getDate (ViewModes.centerDate viewMode))
             (JSDate.daysInMonth
                (JSDate.monthIndex (ViewModes.centerDate viewMode) - months))
      /\ JSDate.TimeWithinDay (ViewModes.centerDate previous)
         = JSDate.TimeWithinDay (ViewModes.centerDate viewMode))
  /\ (months = match ViewModes.currentMode viewMode with
               | ViewModes.mode1month => 1
               | ViewModes.mode6month => 6
               | _ => 12
               end)
  /\ (rangeOf march1year
      = ("2023-09-01T00:00:00.000Z", "2024-09-01T00:00:00.000Z")
      /\ rangeOf (ViewModeContext.navigateNext march1year)
         = ("2024-09-01T00:00:00.000Z", "2025-09-01T00:00:00.000Z")
      /\ ViewModeContext.canNavigateNext span now march1year = false)
  /\ (rangeOf may1month
      = ("2024-05-01T00:00:00.000Z", "2024-05-31T23:59:59.999Z")
      /\ rangeOf (ViewModeContext.navigateNext may1month)
         = ("2024-06-01T00:00:00.000Z", "2024-06-30T23:59:59.999Z")
      /\ rangeOf (ViewModeContext.navigatePrevious may1month)
         = ("2024-04-01T00:00:00.000Z", "2024-04-30T23:59:59.999Z")
      /\ ViewModeContext.canNavigateNext span now may1month = false
      /\ ViewModeContext.canNavigatePrevious span now may1month = true).
Proof.
  intros next previous months span march1year may1month rangeOf.
  split; [| split; [| split; [| split; [| split; [| split]]]]].
  - unfold ViewModeContext.canNavigateNext. cbn.
    rewrite Z.ltb_antisym. by rewrite negb_involutive.
  - unfold ViewModeContext.canNavigatePrevious. cbn.
    rewrite Z.geb_leb, Z.ltb_antisym. by rewrite negb_involutive.
  - change (ViewModes.centerDate next)
      with (ViewModeContext.stepNext viewMode).
    rewrite stepNext_addMonths. apply addMonths_fields.
  - change (ViewModes.centerDate previous)
      with (ViewModeContext.stepPrevious viewMode).
    rewrite stepPrevious_addMonths.
    pose proof (addMonths_fields (ViewModes.centerDate viewMode) (- months))
      as Hf.
    replace (JSDate.monthIndex (ViewModes.centerDate viewMode) + - months)
      with (JSDate.monthIndex (ViewModes.centerDate viewMode) - months) in Hf
      by lia.
    exact Hf.
  - unfold months. by destruct (ViewModes.currentMode viewMode).
  - vm_compute. repeat split; reflexivity.
  - vm_compute. repeat split; reflexivity.
Qed.

(** ** The data-loading hook *)

Section HookFacts.
Import UseViewModeData.
Context {C : Type} `{SegmentCache C}.

Lemma preloadFrame_refl (h : Hook C) : preloadFrame h h.
Proof.
  repeat split; [lia |]. exists []. by rewrite app_nil_r.
Qed.

Lemma preloadFrame_trans (h1 h2 h3 : Hook C) :
  preloadFrame h1 h2 -> preloadFrame h2 h3 -> preloadFrame h1 h3.
Proof.
  intros (Hs1 & Hn1 & Hp1 & x1 & Hr1 & Hx1) (Hs2 & Hn2 & Hp2 & x2 & Hr2 & Hx2).
  split; [congruence |]. split; [lia |]. split.
  - intros id Hid. rewrite Hp2 by lia. by apply Hp1.
  - exists (x1 ++ x2)%list. rewrite Hr2, Hr1, <- app_assoc. split; [done |].
    rewrite forallb_app. by rewrite Hx1, Hx2.
Qed.

Lemma preloadOne_frame (cl : Closure) (rate : string) (now : Z) (h : Hook C)
    (offset : Z) :
  preloadFrame h (preloadOne cl rate now h offset).
Proof.
  unfold preloadOne.
  destruct (offsetRange cl offset) as [[offsetStart offsetEnd] |];
    [| apply preloadFrame_refl].
  destruct (cacheGet (cache h) _ now) as [[seg |] c1].
  - repeat split; cbn; [lia |]. exists []. by rewrite app_nil_r.
  - repeat split; cbn; [lia | |].
    + intros id Hid. apply lookup_insert_ne. lia.
    + eexists. split; [reflexivity | reflexivity].
Qed.

Lemma preloadAdjacentRanges_frame (cl : Closure) (rate : string) (now : Z)
    (h : Hook C) :
  preloadFrame h (preloadAdjacentRanges cl rate now h).
Proof.
  unfold preloadAdjacentRanges.
  assert (Hfold : forall offsets h0,
            preloadFrame h0
              (fold_left (preloadOne cl rate now) offsets h0)).
  { induction offsets as [| o offsets IH]; intros h0; cbn [fold_left].
    - apply preloadFrame_refl.
    - eapply preloadFrame_trans; [apply preloadOne_frame | apply IH]. }
  destruct (mode cl); [apply preloadFrame_refl | apply Hfold ..].
Qed.

Lemma preloadAdjacentRanges_full (cl : Closure) (rate : string) (now : Z)
    (h : Hook C) :
  mode cl = ViewModes.full -> preloadAdjacentRanges cl rate now h = h.
Proof. intros Hm. unfold preloadAdjacentRanges. by rewrite Hm. Qed.

(** In every state that the hook reaches, the suspended calls have
    identifiers below the next one. *)
Lemma pendingBelowNext_insert (h : Hook C) (p : Pending) (st : DataState)
    (c : C) (r : list RemoteCall) (e : list string) :
  pendingBelowNext h ->
  pendingBelowNext
    (mkHook st c (<[nextId h := p]> (pending h)) (S (nextId h)) r e).
Proof.
  intros Hwf id q. cbn. rewrite lookup_insert.
  destruct (decide (nextId h = id)) as [<- | Hne]; [lia |].
  intros Hq. apply Hwf in Hq. lia.
Qed.

Lemma pendingBelowNext_update (h : Hook C) (id : nat) (p q : Pending)
    (st : DataState) (c : C) (r : list RemoteCall) (e : list string) :
  pendingBelowNext h -> pending h !! id = Some q ->
  pendingBelowNext (mkHook st c (<[id := p]> (pending h)) (nextId h) r e).
Proof.
  intros Hwf Hq id' q'. cbn. rewrite lookup_insert.
  destruct (decide (id = id')) as [<- | Hne]; [intros _; by eapply Hwf |].
  apply Hwf.
Qed.

Lemma pendingBelowNext_delete (h : Hook C) (id : nat) (st : DataState) (c : C)
    (r : list RemoteCall) (e : list string) :
  pendingBelowNext h ->
  pendingBelowNext (mkHook st c (base.delete id (pending h)) (nextId h) r e).
Proof.
  intros Hwf id' q'. cbn. rewrite lookup_delete.
  destruct (decide (id = id')); [done | apply Hwf].
Qed.

Lemma pendingBelowNext_preload (cl : Closure) (rate : string) (now : Z)
    (h : Hook C) :
  pendingBelowNext h ->
  pendingBelowNext (preloadAdjacentRanges cl rate now h).
Proof.
  unfold preloadAdjacentRanges.
  assert (Hone : forall h0 offset,
            pendingBelowNext h0 ->
            pendingBelowNext (preloadOne cl rate now h0 offset)).
  { intros h0 offset Hwf. unfold preloadOne.
    destruct (offsetRange cl offset) as [[offsetStart offsetEnd] |]; [| done].
    destruct (cacheGet (cache h0) _ now) as [[seg |] c1].
    - intros id q. cbn. apply Hwf.
    - by apply pendingBelowNext_insert. }
  assert (Hfold : forall offsets h0,
            pendingBelowNext h0 ->
            pendingBelowNext (fold_left (preloadOne cl rate now) offsets h0)).
  { induction offsets as [| o offsets IH]; intros h0 Hwf; cbn [fold_left];
      [done | by apply IH, Hone]. }
  intros Hwf. destruct (mode cl); [done | by apply Hfold ..].
Qed.

Lemma pendingBelowNext_step (h : Hook C) (e : Event) :
  pendingBelowNext h -> pendingBelowNext (step h e).
Proof.
  intros Hwf. destruct e as [cl | id r | id now | id r now | id r now]; cbn.
  - unfold loadData. destruct (String.eqb _ _);
      by apply pendingBelowNext_insert.
  - unfold resumeRange.
    destruct (pending h !! id) as [[] |] eqn:Hp; try done.
    by eapply pendingBelowNext_update.
  - unfold resumeCacheGet.
    destruct (pending h !! id) as [[] |] eqn:Hp; try done.
    destruct (cacheGet (cache h) _ now) as [[seg |] c1].
    + apply pendingBelowNext_preload. by apply pendingBelowNext_delete.
    + by eapply pendingBelowNext_update.
  - unfold resumeFetch.
    destruct (pending h !! id) as [[] |] eqn:Hp; try done.
    destruct r.
    + by apply pendingBelowNext_delete.
    + apply pendingBelowNext_preload. by apply pendingBelowNext_delete.
  - unfold resumePreload.
    destruct (pending h !! id) as [[] |] eqn:Hp; try done.
    destruct r; by apply pendingBelowNext_delete.
Qed.

Lemma pendingBelowNext_run (events : list Event) (c : C) :
  pendingBelowNext (run (initialHook c) events).
Proof.
  unfold run.
  assert (Hinit : pendingBelowNext (initialHook c)) by (intros id p; done).
  revert Hinit. generalize (initialHook c).
  induction events as [| e events IH]; intros h Hwf; cbn [fold_left];
    [done | by apply IH, pendingBelowNext_step].
Qed.

(** The readings have arrived: they are published, whatever has happened
    since they were requested. *)
Lemma resumeFetch_publishes (h : Hook C) (id : nat) (cl : Closure)
    (rate : string) (rows : list WaterLevelReading) (now : Z) :
  pending h !! id = Some (AwaitFetch cl rate) ->
  let h' := resumeFetch id (FetchOk rows) now h in
  data (state h') = rows
  /\ cacheHit (state h') = false
  /\ isLoading (state h') = false
  /\ meta_dateRange (metadata (state h')) = Some (startDate cl, endDate cl)
  /\ (nextId h <= nextId h')%nat
  /\ forall id', (id' < nextId h)%nat -> id' <> id ->
       pending h' !! id' = pending h !! id'.
Proof.
  intros Hp h'. unfold h', resumeFetch. rewrite Hp.
  match goal with
  | |- context [preloadAdjacentRanges cl rate now ?h0] =>
      pose proof (preloadAdjacentRanges_frame cl rate now h0)
        as (Hs & Hn & Hpend & _);
      generalize dependent (preloadAdjacentRanges cl rate now h0)
  end.
  intros h1 Hs Hn Hpend. cbn in Hs, Hn, Hpend. rewrite Hs. cbn.
  repeat split; [done |].
  intros id' Hid Hne. rewrite Hpend by done. by apply lookup_delete_ne.
Qed.

End HookFacts.

(** C2 (as the code has it).  Readings that arrive for a call of [loadData]
    are published as they arrive; the call carries no tag that is compared
    with the current navigation state.  So when two requests are under way
    and the one issued second is answered first, the data published at the
    end are those of the request issued first. *)
Theorem late_response_is_published {C : Type}
    `{UseViewModeData.SegmentCache C} (h : UseViewModeData.Hook C)
    (id1 id2 : nat) (cl1 cl2 : UseViewModeData.Closure) (rate1 rate2 : string)
    (rows1 rows2 : list UseViewModeData.WaterLevelReading) (now1 now2 : Z) :
  UseViewModeData.pending h !! id1 = Some (UseViewModeData.AwaitFetch cl1 rate1) ->
  UseViewModeData.pending h !! id2 = Some (UseViewModeData.AwaitFetch cl2 rate2) ->
  id1 <> id2 ->
  (id1 < UseViewModeData.nextId h)%nat ->
  let h2 :=
    UseViewModeData.run h
      [UseViewModeData.FetchArrives id2 (UseViewModeData.FetchOk rows2) now2] in
  let h1 :=
    UseViewModeData.run h2
      [UseViewModeData.FetchArrives id1 (UseViewModeData.FetchOk rows1) now1] in
  UseViewModeData.data (UseViewModeData.state h2) = rows2
  /\ UseViewModeData.data (UseViewModeData.state h1) = rows1
  /\ UseViewModeData.meta_dateRange
       (UseViewModeData.metadata (UseViewModeData.state h1))
     = Some (UseViewModeData.startDate cl1, UseViewModeData.endDate cl1).
Proof.
  intros Hp1 Hp2 Hne Hid h2 h1. unfold h1, h2. cbn.
  pose proof (resumeFetch_publishes h id2 cl2 rate2 rows2 now2 Hp2)
    as (Hd2 & _ & _ & _ & _ & Hpend).
  cbn in Hd2, Hpend. split; [done |].
  assert (Hp1' : UseViewModeData.pending
                   (UseViewModeData.resumeFetch id2
                      (UseViewModeData.FetchOk rows2) now2 h) !! id1
                 = Some (UseViewModeData.AwaitFetch cl1 rate1)).
  { rewrite Hpend; done. }
  pose proof (resumeFetch_publishes _ id1 cl1 rate1 rows1 now1 Hp1')
    as (Hd1 & _ & _ & Hr1 & _).
  cbn in Hd1, Hr1. by split.
Qed.

Lemma late_response_is_published_witness :
  let h :=
    UseViewModeData.run
      (UseViewModeData.initialHook
         UseViewModeData.emptySegmentStore)
      [UseViewModeData.CallLoadData UseViewModeData.march2024;
       UseViewModeData.CacheAnswers 0 1000;
       UseViewModeData.CallLoadData UseViewModeData.april2024;
       UseViewModeData.CacheAnswers 1 1100] in
  let h2 :=
    UseViewModeData.run h
      [UseViewModeData.FetchArrives 1
         (UseViewModeData.FetchOk [UseViewModeData.readingApril]) 2000] in
  let h1 :=
    UseViewModeData.run h2
      [UseViewModeData.FetchArrives 0
         (UseViewModeData.FetchOk [UseViewModeData.readingMarch]) 3000] in
  UseViewModeData.data (UseViewModeData.state h2)
    = [UseViewModeData.readingApril]
  /\ UseViewModeData.data (UseViewModeData.state h1)
     = [UseViewModeData.readingMarch]
  /\ UseViewModeData.meta_dateRange
       (UseViewModeData.metadata (UseViewModeData.state h1))
     = Some (UseViewModeData.startDate UseViewModeData.march2024,
             UseViewModeData.endDate UseViewModeData.march2024).
Proof.
  intros h.
  apply (late_response_is_published h 0 1 UseViewModeData.march2024
           UseViewModeData.april2024 "15min" "15min").
  - vm_compute. reflexivity.
  - vm_compute. reflexivity.
  - lia.
  - vm_compute. lia.
Defined.

(** C2 fails as stated.  The view is on March 2024 and its readings are
    requested; the user moves to April 2024 and its readings are requested;
    April's readings arrive and are published; March's readings arrive and
    replace them. *)
Lemma stale_response_overwrites :
  let events :=
    [UseViewModeData.CallLoadData UseViewModeData.march2024;
     UseViewModeData.CacheAnswers 0 1000;
     UseViewModeData.CallLoadData UseViewModeData.april2024;
     UseViewModeData.CacheAnswers 1 1100;
     UseViewModeData.FetchArrives 1
       (UseViewModeData.FetchOk [UseViewModeData.readingApril]) 2000] in
  let h0 :=
    UseViewModeData.initialHook
      UseViewModeData.emptySegmentStore in
  let before := UseViewModeData.run h0 events in
  let after :=
    UseViewModeData.run before
      [UseViewModeData.FetchArrives 0
         (UseViewModeData.FetchOk [UseViewModeData.readingMarch]) 3000] in
  UseViewModeData.data (UseViewModeData.state before)
    = [UseViewModeData.readingApril]
  /\ UseViewModeData.data (UseViewModeData.state after)
     = [UseViewModeData.readingMarch]
  /\ UseViewModeData.data (UseViewModeData.state after)
     <> [UseViewModeData.readingApril].
Proof.
  vm_compute. repeat split. discriminate.
Qed.

Section OffsetFacts.
Import JSDate ViewModes UseViewModeData.

Lemma getFullYear_of_day (t : Date) :
  - 100001000 <= Day t <= 100001000 -> - 1000000 < getFullYear t < 1000000.
Proof.
  intros Ht. unfold getFullYear.
  pose proof (civilFromDays_fields (Day t)) as Hf.
  destruct (civilFromDays (Day t)) as [[y m] d]. cbn.
  destruct Hf as (_ & _ & _ & Hy).
  assert (- 690 <= (Day t + 719468) / 146097 <= 690)
    by (Z.div_mod_to_equations; lia).
  lia.
Qed.

Lemma toISOString_inj_years (t t' : Date) :
  - 1000000 < getFullYear t < 1000000 ->
  - 1000000 < getFullYear t' < 1000000 ->
  toISOString t = toISOString t' -> t = t'.
Proof.
  intros Hv Hv' Heq. rewrite !toISOString_unfold in Heq.
  apply append_tail_inj in Heq as [Hyear Hrest].
  - apply isoYear_inj in Hyear; try done.
    apply isoAfterYear_inj in Hrest as (? & ? & ? & ? & ? & ?).
    by apply date_of_fields.
  - by rewrite !(matchesPattern_length _ _ (isoAfterYear_shape _)).
Qed.

(** A date moved by [setMonth] or [setFullYear] to another month, at most a
    year away, has another ISO string. *)
Lemma moved_date_differs (t : Date) (months : Z) :
  validDate t -> months <> 0 -> - 12 <= months <= 12 ->
  let t' :=
    MakeDate (monthStart (monthIndex t + months) + getDate t - 1)
      (TimeWithinDay t) in
  toISOString t' <> toISOString t.
Proof.
  intros Hv Hne Hb t' Heq.
  assert (Hday' : Day t' = monthStart (monthIndex t + months) + getDate t - 1)
    by apply Day_MakeDate, TimeWithinDay_bounds.
  pose proof (Day_parts t) as Hday.
  pose proof (Day_valid t Hv) as Hrange.
  assert (Hdiff : Day t' <> Day t /\ - 400 <= Day t' - Day t <= 400).
  { destruct (Z.lt_trichotomy months 0) as [Hl | [He | Hg]]; [| done |].
    - pose proof (monthStart_strict (monthIndex t + months) (monthIndex t)).
      pose proof (monthStart_upper (monthIndex t + months) (monthIndex t)).
      lia.
    - pose proof (monthStart_strict (monthIndex t) (monthIndex t + months)).
      pose proof (monthStart_upper (monthIndex t) (monthIndex t + months)).
      lia. }
  apply toISOString_inj_years in Heq.
  - rewrite Heq in Hdiff. lia.
  - apply getFullYear_of_day. lia.
  - by apply getFullYear_valid.
Qed.

Lemma offsetRange_start (cl : Closure) (offset : Z) (s' e' : Date) :
  offsetRange cl offset = Some (s', e') ->
  exists months,
    months <> 0
    /\ months = ViewModeContext.stepMonths (mode cl) * offset
    /\ s' = MakeDate
              (monthStart (monthIndex (start (range cl)) + months)
               + getDate (start (range cl)) - 1)
              (TimeWithinDay (start (range cl))).
Proof.
  unfold offsetRange, config, ViewModeContext.stepMonths.
  destruct (Z.eqb_spec offset 0) as [-> | Hoff]; [done |].
  destruct (mode cl); cbn [navigationStep VIEW_MODES step_unit step_value];
    cbn zeta.
  - (* full: a step of one year *)
    destruct (Z.eqb_spec 0 0) as [_ | Hc]; [| done]. cbn [negb].
    destruct (Z.eqb_spec (1 * offset) 0) as [Hz | Hnz]; [lia |]. cbn [negb].
    intros [= <- <-]. exists (12 * 1 * offset). split; [lia |].
    split; [done |]. rewrite setFullYear_spec. unfold monthIndex.
    f_equal. f_equal. f_equal. f_equal. lia.
  - destruct (Z.eqb_spec 0 0) as [_ | Hc]; [| done]. cbn [negb].
    destruct (Z.eqb_spec (1 * offset) 0) as [Hz | Hnz]; [lia |]. cbn [negb].
    intros [= <- <-]. exists (12 * 1 * offset). split; [lia |].
    split; [done |]. rewrite setFullYear_spec. unfold monthIndex.
    f_equal. f_equal. f_equal. f_equal. lia.
  - destruct (Z.eqb_spec (6 * offset) 0) as [Hz | Hnz]; [lia |]. cbn [negb].
    intros [= <- <-]. exists (6 * offset). split; [lia |].
    split; [done |]. rewrite setMonth_spec. unfold monthIndex.
    f_equal. f_equal. f_equal. f_equal. lia.
  - destruct (Z.eqb_spec (1 * offset) 0) as [Hz | Hnz]; [lia |]. cbn [negb].
    intros [= <- <-]. exists (1 * offset). split; [lia |].
    split; [done |]. rewrite setMonth_spec. unfold monthIndex.
    f_equal. f_equal. f_equal. f_equal. lia.
Qed.

Lemma offsetRange_other_start (cl : Closure) (offset : Z) (s' e' : Date) :
  validDate (start (range cl)) -> - 1 <= offset <= 1 ->
  offsetRange cl offset = Some (s', e') ->
  toISOString s' <> startDate cl.
Proof.
  intros Hv Hoff Hrange.
  apply offsetRange_start in Hrange as (months & Hne & Hm & ->).
  apply moved_date_differs; [done | done |].
  subst months. unfold ViewModeContext.stepMonths. destruct (mode cl); cbn; lia.
Qed.

End OffsetFacts.

Section HitFacts.
Import UseViewModeData.
Context {C : Type} `{SegmentCache C}.

Lemma preloadStrategy_offsets (cl : Closure) :
  Forall (fun offset => - 1 <= offset <= 1)
    (ViewModes.preloadStrategy (config cl)).
Proof.
  unfold config. destruct (mode cl); cbn; repeat constructor; lia.
Qed.

Lemma preloadOne_sent (cl : Closure) (rate : string) (now : Z) (h : Hook C)
    (offset : Z) :
  JSDate.validDate (ViewModes.start (range cl)) ->
  mode cl <> ViewModes.full -> - 1 <= offset <= 1 ->
  exists extra,
    remote (preloadOne cl rate now h offset) = (remote h ++ extra)%list
    /\ forallb (UseViewModeData.sentOnHit cl) extra = true.
Proof.
  intros Hv Hmode Hoff. unfold preloadOne.
  destruct (offsetRange cl offset) as [[offsetStart offsetEnd] |] eqn:Hrange;
    [| exists []; by rewrite app_nil_r].
  destruct (cacheGet (cache h) _ now) as [[seg |] c1];
    [exists []; by rewrite app_nil_r |].
  eexists. split; [reflexivity |].
  cbn [forallb UseViewModeData.sentOnHit]. rewrite andb_true_r.
  apply andb_true_intro. split; [by destruct (mode cl) |].
  pose proof (offsetRange_other_start cl offset _ _ Hv Hoff Hrange) as Hne.
  apply String.eqb_neq in Hne. by rewrite Hne.
Qed.

Lemma preloadAdjacentRanges_sent (cl : Closure) (rate : string) (now : Z)
    (h : Hook C) :
  JSDate.validDate (ViewModes.start (range cl)) ->
  exists extra,
    remote (preloadAdjacentRanges cl rate now h) = (remote h ++ extra)%list
    /\ forallb (UseViewModeData.sentOnHit cl) extra = true.
Proof.
  intros Hv.
  assert (Hcases : mode cl = ViewModes.full \/ mode cl <> ViewModes.full)
    by (destruct (mode cl); [by left | by right ..]).
  destruct Hcases as [Hfull | Hmode].
  - rewrite preloadAdjacentRanges_full by done.
    exists []. by rewrite app_nil_r.
  - assert (Hfold : forall offsets h0,
              Forall (fun offset => - 1 <= offset <= 1) offsets ->
              exists extra,
                remote (fold_left (preloadOne cl rate now) offsets h0)
                = (remote h0 ++ extra)%list
                /\ forallb (UseViewModeData.sentOnHit cl) extra = true).
    { induction offsets as [| o offsets IH]; intros h0 Hall; cbn [fold_left].
      - exists []. by rewrite app_nil_r.
      - apply Forall_cons in Hall as [Ho Hall].
        destruct (preloadOne_sent cl rate now h0 o Hv Hmode Ho)
          as (x1 & Hr1 & Hx1).
        destruct (IH (preloadOne cl rate now h0 o) Hall) as (x2 & Hr2 & Hx2).
        exists (x1 ++ x2)%list. rewrite Hr2, Hr1, <- app_assoc.
        split; [done |]. rewrite forallb_app. by rewrite Hx1, Hx2. }
    unfold preloadAdjacentRanges.
    destruct (mode cl) eqn:Hm; [done | ..];
      apply Hfold, preloadStrategy_offsets.
Qed.

Lemma resumeCacheGet_hit_sent (h : Hook C) (id : nat) (cl : Closure)
    (rate : string) (now : Z) (seg : CachedDataSegment) (c1 : C) :
  JSDate.validDate (ViewModes.start (range cl)) ->
  pending h !! id = Some (AwaitCacheGet cl rate) ->
  cacheGet (cache h) (cacheKey cl rate) now = (Some seg, c1) ->
  let h' := resumeCacheGet id now h in
  state h'
  = mkDataState (seg_data seg) false (error (state h)) true
      (mkMetadata (Z.of_nat (List.length (seg_data seg)))
         (Some (seg_startDate seg, seg_endDate seg))
         (mkHitStatus true false 1))
  /\ exists extra,
       remote h' = (remote h ++ extra)%list
       /\ forallb (UseViewModeData.sentOnHit cl) extra = true.
Proof.
  intros Hv Hp Hget h'. unfold h', resumeCacheGet. rewrite Hp, Hget.
  match goal with
  | |- context [preloadAdjacentRanges cl rate now ?h0] =>
      pose proof (preloadAdjacentRanges_frame cl rate now h0)
        as (Hs & _ & _ & _);
      pose proof (preloadAdjacentRanges_sent cl rate now h0 Hv)
        as (extra & Hr & Hx)
  end.
  split; [exact Hs |]. exists extra. by split.
Qed.

End HitFacts.

(** C5.  When the cache holds the segment of the requested well, sampling
    rate and range, a call of [loadData] publishes the stored readings as
    they are, marks the result as a cache hit, and does not ask the server
    for the readings of that range: no primary request is sent, and what is
    sent is the range request of an adaptive mode and, in a mode other than
    [full], preload requests, each for a range other than the one of the
    call. *)
Theorem cache_hit_short_circuit {C : Type} `{UseViewModeData.SegmentCache C}
    (h : UseViewModeData.Hook C) (cl : UseViewModeData.Closure)
    (response : UseViewModeData.RangeResponse) (now : Z)
    (seg : UseViewModeData.CachedDataSegment) (c1 : C) :
  JSDate.validDate (ViewModes.start (UseViewModeData.range cl)) ->
  UseViewModeData.cacheGet (UseViewModeData.cache h)
    (UseViewModeData.cacheKey cl (UseViewModeData.resolvedRate cl response))
    now = (Some seg, c1) ->
  let h' :=
    UseViewModeData.run h
      (UseViewModeData.invocation cl (UseViewModeData.nextId h) response now) in
  UseViewModeData.data (UseViewModeData.state h')
    = UseViewModeData.seg_data seg
  /\ UseViewModeData.cacheHit (UseViewModeData.state h') = true
  /\ UseViewModeData.isLoading (UseViewModeData.state h') = false
  /\ exists extra,
       UseViewModeData.remote h' = (UseViewModeData.remote h ++ extra)%list
       /\ forallb (UseViewModeData.sentOnHit cl) extra = true.
Proof.
  intros Hv Hget h'. unfold h', UseViewModeData.invocation.
  unfold UseViewModeData.resolvedRate in Hget.
  destruct (UseViewModeData.isAdaptive cl) eqn:Had.
  - cbn [UseViewModeData.run fold_left UseViewModeData.step].
    unfold UseViewModeData.loadData.
    unfold UseViewModeData.isAdaptive in Had. rewrite Had.
    unfold UseViewModeData.resumeRange.
    cbn [UseViewModeData.pending]. rewrite lookup_insert_eq.
    match goal with
    | |- context [UseViewModeData.resumeCacheGet _ now ?h0] => set (h1 := h0)
    end.
    assert (Hp : UseViewModeData.pending h1 !! UseViewModeData.nextId h
                 = Some (UseViewModeData.AwaitCacheGet cl
                           (UseViewModeData.calculateFullViewSampling
                              (UseViewModeData.config cl) response)))
      by apply lookup_insert_eq.
    destruct (resumeCacheGet_hit_sent h1 _ _ _ now seg c1 Hv Hp Hget)
      as (Hs & extra & Hr & Hx).
    rewrite Hs. split; [done |]. split; [done |]. split; [done |].
    eexists. split; [rewrite Hr; cbn; rewrite <- app_assoc; reflexivity |].
    cbn [app forallb UseViewModeData.sentOnHit].
    unfold UseViewModeData.isAdaptive. rewrite Had. cbn [andb]. exact Hx.
  - cbn [UseViewModeData.run fold_left UseViewModeData.step].
    unfold UseViewModeData.loadData.
    unfold UseViewModeData.isAdaptive in Had. rewrite Had.
    match goal with
    | |- context [UseViewModeData.resumeCacheGet _ now ?h0] => set (h1 := h0)
    end.
    assert (Hp : UseViewModeData.pending h1 !! UseViewModeData.nextId h
                 = Some (UseViewModeData.AwaitCacheGet cl
                           (ViewModes.samplingRate (UseViewModeData.config cl))))
      by apply lookup_insert_eq.
    destruct (resumeCacheGet_hit_sent h1 _ _ _ now seg c1 Hv Hp Hget)
      as (Hs & extra & Hr & Hx).
    rewrite Hs. split; [done |]. split; [done |]. split; [done |].
    exists extra. by split.
Qed.

Lemma cache_hit_short_circuit_witness :
  let store :=
    UseViewModeData.cachePut
      UseViewModeData.emptySegmentStore
      UseViewModeData.marchSegment 1000 in
  let h' :=
    UseViewModeData.run (UseViewModeData.initialHook store)
      (UseViewModeData.invocation UseViewModeData.march2024 0
         UseViewModeData.RangeFailed 2000) in
  UseViewModeData.data (UseViewModeData.state h')
    = [UseViewModeData.readingMarch]
  /\ UseViewModeData.cacheHit (UseViewModeData.state h') = true
  /\ UseViewModeData.isLoading (UseViewModeData.state h') = false
  /\ exists extra,
       UseViewModeData.remote h' = ([] ++ extra)%list
       /\ forallb (UseViewModeData.sentOnHit UseViewModeData.march2024) extra
          = true.
Proof.
  intros store.
  apply (cache_hit_short_circuit (UseViewModeData.initialHook store)
           UseViewModeData.march2024 UseViewModeData.RangeFailed 2000
           (UseViewModeData.touch
              (UseViewModeData.withSize UseViewModeData.approximateSize
                 UseViewModeData.marchSegment) 2000)
           (UseViewModeData.segmentGet store
              (UseViewModeData.cacheKey UseViewModeData.march2024 "15min")
              2000).2).
  - unfold JSDate.validDate. vm_compute. split; discriminate.
  - vm_compute. reflexivity.
Defined.

(** The requests of a hit, on an example.  The cache holds the segment of
    March 2024 for well W1 at 15 minutes, and [loadData] is called for that
    month: the stored readings are published as a cache hit, and the two
    requests that are sent are the preloads of the ranges that [setMonth]
    makes of the range of March, a month back and a month on. *)
Example cache_hit_preloads :
  let store :=
    UseViewModeData.cachePut
      UseViewModeData.emptySegmentStore
      UseViewModeData.marchSegment 1000 in
  let h' :=
    UseViewModeData.run (UseViewModeData.initialHook store)
      (UseViewModeData.invocation UseViewModeData.march2024 0
         UseViewModeData.RangeFailed 2000) in
  UseViewModeData.cacheHit (UseViewModeData.state h') = true
  /\ UseViewModeData.data (UseViewModeData.state h')
     = [UseViewModeData.readingMarch]
  /\ UseViewModeData.remote h' =
       [ UseViewModeData.PreloadFetch "db1" "W1" "15min"
           "2024-02-01T00:00:00.000Z" "2024-03-02T23:59:59.999Z";
         UseViewModeData.PreloadFetch "db1" "W1" "15min"
           "2024-04-01T00:00:00.000Z" "2024-05-01T23:59:59.999Z" ].
Proof.
  vm_compute. repeat split.
Qed.

(** * Further properties of the code *)

(** ** More on the key-value wrapper *)

Section StoreFacts.
Context {D : Type}.
Implicit Types st : gmap string (IndexedDBCache.CacheEntry D).

Lemma getAllKeys_NoDup st : NoDup (IndexedDBCache.getAllKeys st).
Proof. apply NoDup_fst_map_to_list. Qed.

Lemma getAllKeys_length st :
  Z.of_nat (List.length (IndexedDBCache.getAllKeys st)) = IndexedDBCache.size st.
Proof.
  unfold IndexedDBCache.getAllKeys, IndexedDBCache.size.
  by rewrite length_fmap, length_map_to_list.
Qed.

Local Abbreviation readAt := IndexedDBCache.readAt.

Lemma get_result st k now :
  (IndexedDBCache.get st k now).1 = readAt now (st !! k).
Proof.
  unfold IndexedDBCache.get, IndexedDBCache.readAt, IndexedDBCache.unexpired.
  destruct (st !! k) as [e |]; [| done].
  by destruct (now >? _).
Qed.

Lemma get_store st k now k' :
  (IndexedDBCache.get st k now).2 !! k' =
    if decide (k' = k)
    then (if readAt now (st !! k) is Some _ then st !! k else None)
    else st !! k'.
Proof.
  unfold IndexedDBCache.get, IndexedDBCache.readAt, IndexedDBCache.unexpired,
    IndexedDBCache.delete.
  destruct (decide (k' = k)) as [-> | Hne].
  - destruct (st !! k) as [e |] eqn:He; [| exact He].
    destruct (now >? _); cbn; [apply lookup_delete_eq | done].
  - destruct (st !! k) as [e |]; [| done].
    destruct (now >? _); cbn; [by apply lookup_delete_ne | done].
Qed.

(** A read does not change what a read at the same time returns. *)
Lemma get_read_stable st k now k' :
  readAt now ((IndexedDBCache.get st k now).2 !! k') = readAt now (st !! k').
Proof.
  rewrite get_store. destruct (decide (k' = k)) as [-> | _]; [| done].
  by destruct (readAt now (st !! k)) eqn:Hr.
Qed.

End StoreFacts.

Section StoreTheorems.
Context {D : Type}.
Local Abbreviation readAt := IndexedDBCache.readAt.
Implicit Types st : gmap string (IndexedDBCache.CacheEntry D).

(** X2.  [set] under a key that is in use replaces the entry and leaves the
    size as it is; under a new key it adds one entry.  What is stored under
    any other key stays. *)
Theorem set_replaces_or_adds st (k : string) (d : D) (t now : Z) :
  let st' := IndexedDBCache.set st k d t now in
  IndexedDBCache.size st' =
    (if st !! k is Some _ then IndexedDBCache.size st
     else IndexedDBCache.size st + 1)
  /\ forall k', k' <> k -> st' !! k' = st !! k'.
Proof.
  cbn. unfold IndexedDBCache.set, IndexedDBCache.size. split.
  - destruct (st !! k) as [e |] eqn:He.
    + rewrite map_size_insert_Some; [done | by exists e].
    + rewrite map_size_insert_None by done. lia.
  - intros k' Hne. by apply lookup_insert_ne.
Qed.

(** X3.  [get] changes nothing under another key.  When it returns a value,
    the store is as before, the value is the stored one and its time to
    live has not run out; when it returns [null], nothing is stored under
    the key afterwards. *)
Theorem get_touches_only_its_key st (k : string) (now : Z) :
  let r := (IndexedDBCache.get st k now).1 in
  let st' := (IndexedDBCache.get st k now).2 in
  (forall k', k' <> k -> st' !! k' = st !! k')
  /\ match r with
     | Some d =>
         st' = st
         /\ exists e, st !! k = Some e /\ IndexedDBCache.data e = d
                      /\ now <= IndexedDBCache.timestamp e + IndexedDBCache.ttl e
     | None => st' !! k = None
     end.
Proof.
  cbn. split.
  - intros k' Hne. rewrite get_store. by rewrite decide_False.
  - unfold IndexedDBCache.get, IndexedDBCache.delete.
    destruct (st !! k) as [e |] eqn:He; [| done].
    destruct (Z.gtb_spec now (IndexedDBCache.timestamp e + IndexedDBCache.ttl e));
      cbn.
    + apply lookup_delete_eq.
    + split; [done |]. exists e. split; [done |]. split; [done | lia].
Qed.

(** The loop of [getByWellNumber] over keys that are all different. *)
Lemma getByWellNumber_loop (isTruthy : D -> bool) (now : Z) (ks : list string)
    (res : list (string * D)) st :
  NoDup ks ->
  let out :=
    fold_left
      (fun (acc : list (string * D) * gmap string (IndexedDBCache.CacheEntry D)) k =>
         match IndexedDBCache.get acc.2 k now with
         | (Some d, st') =>
             if isTruthy d then ((acc.1 ++ [(k, d)])%list, st') else (acc.1, st')
         | (None, st') => (acc.1, st')
         end)
      ks (res, st) in
  (forall k d, (k, d) ∈ out.1 <->
     (k, d) ∈ res
     \/ (k ∈ ks /\ readAt now (st !! k) = Some d /\ isTruthy d = true))
  /\ (forall k, out.2 !! k =
        if decide (k ∈ ks)
        then (if readAt now (st !! k) is Some _ then st !! k else None)
        else st !! k).
Proof.
  revert res st. induction ks as [| k0 ks IH]; intros res st Hnd; cbn [fold_left].
  - cbn. split.
    + intros k d. split; [by left | intros [? | [Hin _]]; [done |]].
      by apply elem_of_nil in Hin.
    + intros k. rewrite decide_False; [done | apply not_elem_of_nil].
  - apply NoDup_cons in Hnd as [Hk0 Hnd]. cbn [fst snd].
    pose proof (get_result st k0 now) as Hres.
    pose proof (get_store st k0 now) as Hst.
    destruct (IndexedDBCache.get st k0 now) as [r st1]. cbn [fst snd] in *.
    assert (Hother : forall k, k ∈ ks -> st1 !! k = st !! k).
    { intros k Hk. rewrite Hst. rewrite decide_False; [done |].
      intros ->. done. }
    set (res1 := match r with
                 | Some d => if isTruthy d then (res ++ [(k0, d)])%list else res
                 | None => res
                 end).
    assert (Hstep :
      (match r with
       | Some d => if isTruthy d then ((res ++ [(k0, d)])%list, st1) else (res, st1)
       | None => (res, st1)
       end) = (res1, st1)).
    { unfold res1. destruct r as [d |]; [by destruct (isTruthy d) | done]. }
    rewrite Hstep. destruct (IH res1 st1 Hnd) as [IH1 IH2].
    split.
    + intros k d. rewrite IH1. split.
      * intros [Hin | (Hk & Hr & Ht)].
        -- unfold res1 in Hin. destruct r as [d0 |]; [| by left].
           destruct (isTruthy d0) eqn:Ht0; [| by left].
           apply elem_of_app in Hin as [? | Hin]; [by left |].
           apply list_elem_of_singleton in Hin. injection Hin as -> ->.
           right. split; [by left |]. by rewrite <- Hres.
        -- right. rewrite Hother in Hr by done. split; [by right | done].
      * intros [Hin | (Hk & Hr & Ht)].
        -- left. unfold res1. destruct r as [d0 |]; [| done].
           destruct (isTruthy d0); [| done]. apply elem_of_app. by left.
        -- apply elem_of_cons in Hk as [-> | Hk].
           ++ left. unfold res1. rewrite Hres, Hr, Ht.
              apply elem_of_app. right. by apply list_elem_of_singleton.
           ++ right. by rewrite Hother.
    + intros k. rewrite IH2.
      destruct (decide (k ∈ ks)) as [Hk | Hk].
      * rewrite decide_True by (by right). by rewrite Hother.
      * rewrite Hst. destruct (decide (k = k0)) as [-> | Hne].
        -- rewrite decide_True by (by left). done.
        -- rewrite decide_False; [done |].
           intros Hc. apply elem_of_cons in Hc. tauto.
Qed.

(** X4.  [getByWellNumber] returns the stored values that are truthy and not
    expired, of the keys that contain the well number; the entries it drops
    from the store are the expired ones among these keys. *)
Theorem getByWellNumber_spec (isTruthy : D -> bool) st (w : string) (now : Z) :
  let results := (IndexedDBCache.getByWellNumber isTruthy st w now).1 in
  let st' := (IndexedDBCache.getByWellNumber isTruthy st w now).2 in
  (forall k d, (k, d) ∈ results <->
     includes k w = true
     /\ exists e, st !! k = Some e /\ IndexedDBCache.data e = d
                  /\ now <= IndexedDBCache.timestamp e + IndexedDBCache.ttl e
                  /\ isTruthy d = true)
  /\ (forall k, st' !! k =
        match st !! k with
        | Some e =>
            if includes k w
               && (now >? IndexedDBCache.timestamp e + IndexedDBCache.ttl e)
            then None else Some e
        | None => None
        end).
Proof.
  cbn zeta. unfold IndexedDBCache.getByWellNumber.
  set (ks := List.filter _ _).
  assert (Hks : forall k, k ∈ ks <-> includes k w = true /\ is_Some (st !! k)).
  { intros k. unfold ks. rewrite list_elem_of_In, filter_In, <- list_elem_of_In.
    rewrite elem_of_getAllKeys. tauto. }
  assert (Hnd : NoDup ks).
  { unfold ks. apply NoDup_ListNoDup, List.NoDup_filter, NoDup_ListNoDup.
    apply getAllKeys_NoDup. }
  destruct (getByWellNumber_loop isTruthy now ks [] st Hnd) as [H1 H2].
  split.
  - intros k d. rewrite H1, Hks. unfold IndexedDBCache.readAt, IndexedDBCache.unexpired.
    split.
    + intros [Hin | ((Hinc & _) & Hr & Ht)]; [by apply elem_of_nil in Hin |].
      split; [done |]. destruct (st !! k) as [e |]; [| done].
      destruct (Z.gtb_spec now (IndexedDBCache.timestamp e + IndexedDBCache.ttl e));
        cbn in Hr; [done |].
      injection Hr as <-. exists e. split; [done |]. split; [done |].
      split; [lia | done].
    + intros (Hinc & e & He & Hd & Hle & Ht). right. rewrite He.
      split; [split; [done | by exists e] |].
      destruct (Z.gtb_spec now (IndexedDBCache.timestamp e + IndexedDBCache.ttl e));
        [lia |]. cbn. by subst d.
  - intros k. rewrite H2. unfold IndexedDBCache.readAt, IndexedDBCache.unexpired.
    destruct (decide (k ∈ ks)) as [Hk | Hk].
    + apply Hks in Hk as [Hinc [e He]]. rewrite He, Hinc. cbn.
      by destruct (now >? _).
    + destruct (st !! k) as [e |] eqn:He; [| done].
      destruct (includes k w) eqn:Hinc; [| done].
      exfalso. apply Hk, Hks. split; [done | by exists e].
Qed.

End StoreTheorems.

Section NamedStores.
Context {D : Type}.
Implicit Types st : gmap string (IndexedDBCache.CacheEntry D).

Lemma named_keys_differ (a b c d : string) :
  IndexedDBCache.dailyOverviewKey a b <> IndexedDBCache.wellStatisticsKey c d
  /\ IndexedDBCache.dailyOverviewKey a b <> IndexedDBCache.wellsLocationsKey c
  /\ IndexedDBCache.wellStatisticsKey a b <> IndexedDBCache.wellsLocationsKey c.
Proof.
  unfold IndexedDBCache.dailyOverviewKey, IndexedDBCache.wellStatisticsKey,
    IndexedDBCache.wellsLocationsKey.
  repeat split; intros Heq; rewrite ?append_cons, ?append_nil_l in Heq;
    discriminate Heq.
Qed.

Lemma get_set_other st (k k' : string) (d : D) (t t0 now : Z) :
  k' <> k ->
  (IndexedDBCache.get (IndexedDBCache.set st k d t t0) k' now).1
  = (IndexedDBCache.get st k' now).1.
Proof.
  intros Hne. rewrite !get_result. unfold IndexedDBCache.set.
  by rewrite lookup_insert_ne.
Qed.

Lemma get_set_same st (k : string) (d : D) (t t0 now : Z) :
  (IndexedDBCache.get (IndexedDBCache.set st k d t t0) k now).1
  = if now <=? t0 + t then Some d else None.
Proof.
  rewrite get_result. unfold IndexedDBCache.set. rewrite lookup_insert_eq.
  unfold IndexedDBCache.readAt, IndexedDBCache.unexpired. cbn.
  destruct (Z.leb_spec now (t0 + t)), (Z.gtb_spec now (t0 + t)); try lia; done.
Qed.

(** X5.  The daily overview, the well statistics and the well locations are
    read back as stored for 15, 30 and 20 minutes, and storing one of them
    does not change what is read of another kind, whatever the database
    and well names are. *)
Theorem named_stores_keep_apart st (db w db' w' : string) (d : D) (t0 now : Z) :
  (IndexedDBCache.getDailyOverview
     (IndexedDBCache.storeDailyOverview st db w d t0) db w now).1
    = (if now <=? t0 + 900000 then Some d else None)
  /\ (IndexedDBCache.getWellStatistics
        (IndexedDBCache.storeWellStatistics st db w d t0) db w now).1
     = (if now <=? t0 + 1800000 then Some d else None)
  /\ (IndexedDBCache.getWellsLocations
        (IndexedDBCache.storeWellsLocations st db d t0) db now).1
     = (if now <=? t0 + 1200000 then Some d else None)
  /\ (IndexedDBCache.getDailyOverview
        (IndexedDBCache.storeWellStatistics st db' w' d t0) db w now).1
     = (IndexedDBCache.getDailyOverview st db w now).1
  /\ (IndexedDBCache.getDailyOverview
        (IndexedDBCache.storeWellsLocations st db' d t0) db w now).1
     = (IndexedDBCache.getDailyOverview st db w now).1
  /\ (IndexedDBCache.getWellStatistics
        (IndexedDBCache.storeDailyOverview st db' w' d t0) db w now).1
     = (IndexedDBCache.getWellStatistics st db w now).1
  /\ (IndexedDBCache.getWellStatistics
        (IndexedDBCache.storeWellsLocations st db' d t0) db w now).1
     = (IndexedDBCache.getWellStatistics st db w now).1
  /\ (IndexedDBCache.getWellsLocations
        (IndexedDBCache.storeDailyOverview st db' w' d t0) db now).1
     = (IndexedDBCache.getWellsLocations st db now).1
  /\ (IndexedDBCache.getWellsLocations
        (IndexedDBCache.storeWellStatistics st db' w' d t0) db now).1
     = (IndexedDBCache.getWellsLocations st db now).1.
Proof.
  unfold IndexedDBCache.getDailyOverview, IndexedDBCache.storeDailyOverview,
    IndexedDBCache.getWellStatistics, IndexedDBCache.storeWellStatistics,
    IndexedDBCache.getWellsLocations, IndexedDBCache.storeWellsLocations.
  pose proof (named_keys_differ db w db' w') as (H1 & H2 & H3).
  pose proof (named_keys_differ db' w' db w) as (H4 & H5 & H6).
  split; [apply get_set_same |]. split; [apply get_set_same |].
  split; [apply get_set_same |].
  repeat split; apply get_set_other; congruence.
Qed.

End NamedStores.

Section SmartFacts.
Import SmartTimeSeriesCache.
Local Abbreviation readAt := IndexedDBCache.readAt.

Lemma getTimeSeriesData_result (c : Cache) (key : string) (t1 now t2 : Z) :
  (getTimeSeriesData c key t1 now t2).1 = readAt now (store c !! key).
Proof.
  pose proof (getTimeSeriesData_stats c key t1 now t2) as (Hr & _).
  cbn in Hr. rewrite Hr. apply get_result.
Qed.

Lemma rangeKey_inj (w1 w2 : string) (s1 e1 s2 e2 : JSDate.Date)
    (r1 r2 : Resolution) :
  JSDate.validDate s1 -> JSDate.validDate e1 ->
  JSDate.validDate s2 -> JSDate.validDate e2 ->
  rangeKey w1 s1 e1 r1 = rangeKey w2 s2 e2 r2 ->
  w1 = w2 /\ s1 = s2 /\ e1 = e2 /\ r1 = r2.
Proof.
  intros Hs1 He1 Hs2 He2 Heq. unfold rangeKey in Heq.
  apply keyTemplate_inj in Heq as (Hw & Hs & He & Hr);
    try apply toISOString_shape.
  apply toISOString_inj in Hs, He; done.
Qed.

End SmartFacts.

(** X6.  A range that [cacheDataRange] stored is what [getDataRange] returns
    for the same well, dates and resolution until its time to live has run
    out, and nothing after that; the lookup is counted as a request, and as
    a hit when it returns the rows. *)
Theorem cached_range_round_trip (c : SmartTimeSeriesCache.Cache) (w : string)
    (s e : JSDate.Date) (rows : list SmartTimeSeriesCache.TimeSeriesData)
    (r : SmartTimeSeriesCache.Resolution) (ttl t0 startTime now endTime : Z) :
  let c1 := SmartTimeSeriesCache.cacheDataRange c w s e rows r ttl t0 in
  let c2 :=
    (SmartTimeSeriesCache.getDataRange c1 w s e r startTime now endTime).2 in
  (SmartTimeSeriesCache.getDataRange c1 w s e r startTime now endTime).1
    = (if now <=? t0 + ttl then Some (SmartTimeSeriesCache.Series rows)
       else None)
  /\ SmartTimeSeriesCache.totalRequests (SmartTimeSeriesCache.stats c2)
     = SmartTimeSeriesCache.totalRequests (SmartTimeSeriesCache.stats c) + 1
  /\ SmartTimeSeriesCache.totalHits (SmartTimeSeriesCache.stats c2)
     = SmartTimeSeriesCache.totalHits (SmartTimeSeriesCache.stats c)
       + (if now <=? t0 + ttl then 1 else 0).
Proof.
  intros c1 c2. unfold c2, SmartTimeSeriesCache.getDataRange.
  pose proof (getTimeSeriesData_stats c1
                (SmartTimeSeriesCache.rangeKey w s e r) startTime now endTime)
    as (Hr & Hq & Hh & _).
  cbn zeta in Hr, Hq, Hh. rewrite Hr, Hq, Hh.
  unfold c1, SmartTimeSeriesCache.cacheDataRange,
    SmartTimeSeriesCache.cacheTimeSeriesData.
  cbn [SmartTimeSeriesCache.store SmartTimeSeriesCache.stats
       SmartTimeSeriesCache.withCacheSize SmartTimeSeriesCache.totalRequests
       SmartTimeSeriesCache.totalHits].
  rewrite get_set_same.
  split; [done |]. split; [done |]. by destruct (now <=? t0 + ttl).
Qed.

(** X7.  Caching a range does not change what a lookup of another range
    returns: one that differs in the well, in a date or in the resolution. *)
Theorem caching_leaves_other_ranges (c : SmartTimeSeriesCache.Cache)
    (w w' : string) (s e s' e' : JSDate.Date)
    (rows : list SmartTimeSeriesCache.TimeSeriesData)
    (r r' : SmartTimeSeriesCache.Resolution) (ttl t0 startTime now endTime : Z) :
  JSDate.validDate s -> JSDate.validDate e ->
  JSDate.validDate s' -> JSDate.validDate e' ->
  (w', s', e', r') <> (w, s, e, r) ->
  (SmartTimeSeriesCache.getDataRange
     (SmartTimeSeriesCache.cacheDataRange c w s e rows r ttl t0)
     w' s' e' r' startTime now endTime).1
  = (SmartTimeSeriesCache.getDataRange c w' s' e' r' startTime now endTime).1.
Proof.
  intros Hs He Hs' He' Hne.
  unfold SmartTimeSeriesCache.getDataRange. rewrite !getTimeSeriesData_result.
  unfold SmartTimeSeriesCache.cacheDataRange,
    SmartTimeSeriesCache.cacheTimeSeriesData, IndexedDBCache.set.
  cbn [SmartTimeSeriesCache.store]. rewrite lookup_insert_ne; [done |].
  intros Heq. apply rangeKey_inj in Heq as (-> & -> & -> & ->); done.
Qed.

Lemma caching_leaves_other_ranges_witness :
  (SmartTimeSeriesCache.getDataRange
     (SmartTimeSeriesCache.cacheDataRange SmartTimeSeriesCache.emptyCache
        "MW-1" (JSDate.mkDate 2024 0 1 0 0 0 0) (JSDate.mkDate 2024 1 1 0 0 0 0)
        [] SmartTimeSeriesCache.high 60000 1000)
     "MW-1" (JSDate.mkDate 2024 0 1 0 0 0 0) (JSDate.mkDate 2024 1 1 0 0 0 0)
     SmartTimeSeriesCache.low 2000 2001 2002).1
  = (SmartTimeSeriesCache.getDataRange SmartTimeSeriesCache.emptyCache
       "MW-1" (JSDate.mkDate 2024 0 1 0 0 0 0) (JSDate.mkDate 2024 1 1 0 0 0 0)
       SmartTimeSeriesCache.low 2000 2001 2002).1.
Proof.
  apply caching_leaves_other_ranges;
    try (unfold JSDate.validDate; vm_compute; split; discriminate).
  discriminate.
Defined.

Section OptimizeFacts.
Import SmartTimeSeriesCache.
Local Abbreviation readAt := IndexedDBCache.readAt.

Lemma optimize_loop (now : Z) (ks : list string)
    (st : gmap string (IndexedDBCache.CacheEntry Payload)) :
  forall k,
    fold_left (fun s key => (IndexedDBCache.get s key now).2) ks st !! k =
      if decide (k ∈ ks)
      then (if readAt now (st !! k) is Some _ then st !! k else None)
      else st !! k.
Proof.
  revert st. induction ks as [| k0 ks IH]; intros st k; cbn [fold_left].
  - rewrite decide_False; [done | apply not_elem_of_nil].
  - rewrite IH, get_store.
    destruct (decide (k ∈ ks)) as [Hk | Hk];
      destruct (decide (k ∈ k0 :: ks)) as [Hk' | Hk'];
      destruct (decide (k = k0)) as [-> | Hne]; try done.
    + by destruct (readAt now (st !! k0)) eqn:Hr; [rewrite Hr |].
    + exfalso. apply Hk'. by right.
    + exfalso. apply Hk'. by right.
    + apply elem_of_cons in Hk'. tauto.
    + exfalso. apply Hk'. by left.
Qed.

End OptimizeFacts.

(** X8.  [optimizeCache] drops the entries whose time to live has run out and
    keeps all others; the size it records is the size of the store, and the
    request and hit counters stay. *)
Theorem optimizeCache_drops_expired (c : SmartTimeSeriesCache.Cache) (now : Z) :
  let c' := SmartTimeSeriesCache.optimizeCache c now in
  (forall k,
     SmartTimeSeriesCache.store c' !! k =
       match SmartTimeSeriesCache.store c !! k with
       | Some entry =>
           if now >? IndexedDBCache.timestamp entry + IndexedDBCache.ttl entry
           then None else Some entry
       | None => None
       end)
  /\ SmartTimeSeriesCache.cacheSize (SmartTimeSeriesCache.stats c')
     = IndexedDBCache.size (SmartTimeSeriesCache.store c')
  /\ SmartTimeSeriesCache.sameCounters c c'.
Proof.
  intros c'. split; [| by repeat split].
  intros k. unfold c', SmartTimeSeriesCache.optimizeCache.
  cbn [SmartTimeSeriesCache.store]. rewrite optimize_loop.
  unfold IndexedDBCache.readAt, IndexedDBCache.unexpired.
  destruct (decide _) as [Hk | Hk].
  - destruct (SmartTimeSeriesCache.store c !! k) as [entry |]; [| done].
    by destruct (now >? _).
  - destruct (SmartTimeSeriesCache.store c !! k) as [entry |] eqn:He; [| done].
    exfalso. apply Hk, elem_of_getAllKeys. by exists entry.
Qed.

Section InvalidateFacts.
Import SmartTimeSeriesCache.
Local Abbreviation readAt := IndexedDBCache.readAt.

Lemma fold_delete_size {D : Type} (ks : list string)
    (st : gmap string (IndexedDBCache.CacheEntry D)) :
  NoDup ks -> (forall k, k ∈ ks -> is_Some (st !! k)) ->
  IndexedDBCache.size (fold_left IndexedDBCache.delete ks st)
  = IndexedDBCache.size st - Z.of_nat (List.length ks).
Proof.
  revert st. induction ks as [| k0 ks IH]; intros st Hnd Hin; cbn [fold_left].
  - cbn. lia.
  - apply NoDup_cons in Hnd as [Hk0 Hnd].
    rewrite IH; [| done |].
    + destruct (Hin k0) as [e He]; [by left |].
      unfold IndexedDBCache.delete, IndexedDBCache.size.
      rewrite map_size_delete_Some by (by exists e).
      assert (0 < base.size st)%nat.
      { destruct (decide (base.size st = 0%nat)) as [Hz | ?]; [| lia].
        apply map_size_empty_iff in Hz. subst st. by rewrite lookup_empty in He. }
      cbn [List.length]. lia.
    + intros k Hk. unfold IndexedDBCache.delete.
      rewrite lookup_delete_ne; [apply Hin; by right |].
      intros ->. done.
Qed.

Lemma invalidateWellData_size (c : Cache) (w : string) :
  IndexedDBCache.size (store (invalidateWellData c w))
  = IndexedDBCache.size (store c) - countWellKeys c w.
Proof.
  unfold invalidateWellData, countWellKeys. cbn [store].
  apply fold_delete_size.
  - apply NoDup_ListNoDup, List.NoDup_filter, NoDup_ListNoDup.
    apply getAllKeys_NoDup.
  - intros k Hk. apply list_elem_of_In, filter_In in Hk as [Hk _].
    by apply list_elem_of_In, elem_of_getAllKeys in Hk.
Qed.

Lemma invalidateWellData_no_well_keys (c : Cache) (w : string) :
  List.filter (isWellKey w)
    (IndexedDBCache.getAllKeys (store (invalidateWellData c w))) = [].
Proof.
  destruct (List.filter _ _) as [| k ks] eqn:Hf; [done |].
  assert (Hin : List.In k (List.filter (isWellKey w)
                  (IndexedDBCache.getAllKeys (store (invalidateWellData c w))))).
  { rewrite Hf. by left. }
  apply filter_In in Hin as [Hin Hk].
  apply list_elem_of_In, elem_of_getAllKeys in Hin as [e He].
  rewrite invalidateWellData_lookup, Hk in He. done.
Qed.

Lemma invalidateWellData_nothing (c : Cache) (w : string) :
  List.filter (isWellKey w) (IndexedDBCache.getAllKeys (store c)) = [] ->
  cacheSize (stats c) = IndexedDBCache.size (store c) ->
  invalidateWellData c w = c.
Proof.
  intros Hf Hsize. unfold invalidateWellData. rewrite Hf. cbn [fold_left].
  rewrite <- Hsize. by destruct c as [st []].
Qed.

End InvalidateFacts.

(** X10.  After [invalidateWellData] a second call changes nothing, no range
    of the well is found, and the recorded size is the size before less
    the number of keys of the well. *)
Theorem invalidateWellData_idempotent (c : SmartTimeSeriesCache.Cache)
    (w : string) (s e : JSDate.Date) (r : SmartTimeSeriesCache.Resolution)
    (startTime now endTime : Z) :
  let c' := SmartTimeSeriesCache.invalidateWellData c w in
  SmartTimeSeriesCache.invalidateWellData c' w = c'
  /\ (SmartTimeSeriesCache.getDataRange c' w s e r startTime now endTime).1
     = None
  /\ SmartTimeSeriesCache.cacheSize (SmartTimeSeriesCache.stats c')
     = IndexedDBCache.size (SmartTimeSeriesCache.store c)
       - SmartTimeSeriesCache.countWellKeys c w.
Proof.
  intros c'. split; [| split].
  - apply invalidateWellData_nothing;
      [apply invalidateWellData_no_well_keys | reflexivity].
  - unfold SmartTimeSeriesCache.getDataRange.
    rewrite getTimeSeriesData_result. unfold c'.
    by rewrite invalidateWellData_lookup, isWellKey_rangeKey.
  - unfold c'. rewrite <- invalidateWellData_size. reflexivity.
Qed.

Section PreloadFacts.
Import SmartTimeSeriesCache.
Local Abbreviation readAt := IndexedDBCache.readAt.

Lemma marker_is_no_range_key (k : string) (w : string) (s e : JSDate.Date)
    (r : Resolution) :
  k +:+ "-preloading" <> rangeKey w s e r.
Proof.
  intros Heq. unfold rangeKey, keyTemplate in Heq.
  assert (Hshape : forall w s e r,
            w +:+ "-" +:+ s +:+ "-" +:+ e +:+ "-" +:+ r
            = (w +:+ "-" +:+ s +:+ "-" +:+ e) +:+ String "-" r).
  { intros. by rewrite !append_assoc. }
  rewrite Hshape in Heq. symmetry in Heq.
  apply append_tail_drop in Heq as [Heq _]; [| destruct r; cbn; lia].
  destruct r; cbn in Heq; discriminate Heq.
Qed.

Lemma preloadData_unfold (c : Cache) (w : string)
    (ranges : list (JSDate.Date * JSDate.Date)) (r : Resolution) (now : Z) :
  store (preloadData c w ranges r now)
  = fold_left (SmartTimeSeriesCache.preloadTurn w r now) ranges (store c).
Proof. reflexivity. Qed.

Lemma preloadTurn_lookup (w : string) (r : Resolution) (now : Z)
    (s : gmap string (IndexedDBCache.CacheEntry Payload))
    (range : JSDate.Date * JSDate.Date) (k : string) :
  readAt now (SmartTimeSeriesCache.preloadTurn w r now s range !! k) =
    if decide (k = rangeKey w range.1 range.2 r +:+ "-preloading")
    then (if truthy (readAt now (s !! rangeKey w range.1 range.2 r))
          then readAt now (s !! k) else Some PreloadingMark)
    else readAt now (s !! k).
Proof.
  unfold SmartTimeSeriesCache.preloadTurn.
  pose proof (get_result s (rangeKey w range.1 range.2 r) now) as Hres.
  pose proof (get_read_stable s (rangeKey w range.1 range.2 r) now k) as Hst.
  destruct (IndexedDBCache.get s (rangeKey w range.1 range.2 r) now)
    as [existing s1].
  cbn [fst snd] in *. rewrite Hres.
  destruct (truthy (readAt now (s !! rangeKey w range.1 range.2 r))).
  - rewrite Hst. by destruct (decide _).
  - unfold IndexedDBCache.set.
    destruct (decide _) as [-> | Hne].
    + rewrite lookup_insert_eq.
      unfold IndexedDBCache.readAt, IndexedDBCache.unexpired. cbn.
      by destruct (Z.gtb_spec now (now + 300000)); [lia |].
    + by rewrite lookup_insert_ne.
Qed.

Lemma preload_loop_ranges (w : string) (r : Resolution) (now : Z)
    (ranges : list (JSDate.Date * JSDate.Date))
    (s : gmap string (IndexedDBCache.CacheEntry Payload))
    (w' : string) (s' e' : JSDate.Date) (r' : Resolution) :
  readAt now (fold_left (SmartTimeSeriesCache.preloadTurn w r now) ranges s !! rangeKey w' s' e' r')
  = readAt now (s !! rangeKey w' s' e' r').
Proof.
  revert s. induction ranges as [| range ranges IH]; intros s; cbn [fold_left];
    [done |].
  rewrite IH, preloadTurn_lookup.
  destruct (decide _) as [Heq | _]; [| done].
  symmetry in Heq. by apply marker_is_no_range_key in Heq.
Qed.

Lemma preload_loop_marker_kept (w : string) (r : Resolution) (now : Z)
    (ranges : list (JSDate.Date * JSDate.Date))
    (s : gmap string (IndexedDBCache.CacheEntry Payload)) (m : string) :
  readAt now (s !! m) = Some PreloadingMark ->
  readAt now (fold_left (SmartTimeSeriesCache.preloadTurn w r now) ranges s !! m)
  = Some PreloadingMark.
Proof.
  revert s. induction ranges as [| range ranges IH]; intros s Hm;
    cbn [fold_left]; [done |].
  apply IH. rewrite preloadTurn_lookup.
  destruct (decide _); [| done].
  by destruct (truthy (readAt now (s !! rangeKey w range.1 range.2 r))).
Qed.

End PreloadFacts.

(** X11.  [preloadData] caches no range: for a range of the list that is not
    cached it stores the marker under the range's key followed by
    [-preloading], and every lookup of a range returns what it returned
    before; the statistics stay. *)
Theorem preloadData_marks_without_caching (c : SmartTimeSeriesCache.Cache)
    (w : string) (ranges : list (JSDate.Date * JSDate.Date))
    (r : SmartTimeSeriesCache.Resolution) (now : Z)
    (s e : JSDate.Date) :
  In (s, e) ranges ->
  IndexedDBCache.readAt now
    (SmartTimeSeriesCache.store c !! SmartTimeSeriesCache.rangeKey w s e r)
    = None ->
  let c' := SmartTimeSeriesCache.preloadData c w ranges r now in
  SmartTimeSeriesCache.stats c' = SmartTimeSeriesCache.stats c
  /\ IndexedDBCache.readAt now
       (SmartTimeSeriesCache.store c'
          !! (SmartTimeSeriesCache.rangeKey w s e r +:+ "-preloading"))
     = Some SmartTimeSeriesCache.PreloadingMark
  /\ forall w' s' e' r',
       IndexedDBCache.readAt now
         (SmartTimeSeriesCache.store c'
            !! SmartTimeSeriesCache.rangeKey w' s' e' r')
       = IndexedDBCache.readAt now
           (SmartTimeSeriesCache.store c
              !! SmartTimeSeriesCache.rangeKey w' s' e' r').
Proof.
  intros Hin Hmiss c'. split; [done |]. split.
  - unfold c'. rewrite preloadData_unfold.
    revert Hmiss. generalize (SmartTimeSeriesCache.store c).
    induction ranges as [| range ranges IH]; intros st Hmiss; [done |].
    cbn [fold_left]. destruct Hin as [-> | Hin].
    + apply preload_loop_marker_kept. rewrite preloadTurn_lookup. cbn [fst snd].
      rewrite decide_True by done. by rewrite Hmiss.
    + apply IH; [done |].
      rewrite preloadTurn_lookup.
      destruct (decide _) as [Heq | _]; [| done].
      symmetry in Heq. by apply marker_is_no_range_key in Heq.
  - intros w' s' e' r'. unfold c'. rewrite preloadData_unfold.
    apply preload_loop_ranges.
Qed.

Lemma preloadData_marks_without_caching_witness :
  let c' :=
    SmartTimeSeriesCache.preloadData SmartTimeSeriesCache.emptyCache "MW-1"
      [(JSDate.mkDate 2024 0 1 0 0 0 0, JSDate.mkDate 2024 1 1 0 0 0 0)]
      SmartTimeSeriesCache.high 1000 in
  SmartTimeSeriesCache.stats c'
    = SmartTimeSeriesCache.stats SmartTimeSeriesCache.emptyCache
  /\ IndexedDBCache.readAt 1000
       (SmartTimeSeriesCache.store c'
          !! (SmartTimeSeriesCache.rangeKey "MW-1"
                (JSDate.mkDate 2024 0 1 0 0 0 0)
                (JSDate.mkDate 2024 1 1 0 0 0 0) SmartTimeSeriesCache.high
              +:+ "-preloading"))
     = Some SmartTimeSeriesCache.PreloadingMark
  /\ forall w' s' e' r',
       IndexedDBCache.readAt 1000
         (SmartTimeSeriesCache.store c'
            !! SmartTimeSeriesCache.rangeKey w' s' e' r')
       = IndexedDBCache.readAt 1000
           (SmartTimeSeriesCache.store SmartTimeSeriesCache.emptyCache
              !! SmartTimeSeriesCache.rangeKey w' s' e' r').
Proof.
  apply preloadData_marks_without_caching; [left; reflexivity | reflexivity].
Defined.

(** X12.  Whatever the range endpoint answers and whatever the target point
    count is (zero and negative counts too), [calculateFullViewSampling]
    returns one of the nine rates of the ladder. *)
Theorem sampling_rate_on_ladder (config : ViewModes.ViewModeConfig)
    (response : UseViewModeData.RangeResponse) :
  UseViewModeData.isLadderRate
    (UseViewModeData.calculateFullViewSampling config response) = true.
Proof.
  destruct response as [| startDate endDate]; [reflexivity |].
  unfold UseViewModeData.calculateFullViewSampling,
    UseViewModeData.samplingForSpan.
  repeat (match goal with
          | |- context [UseViewModeData.numLeb ?x ?n] =>
              destruct (UseViewModeData.numLeb x n)
          end; try reflexivity).
Qed.

(** X13.  With a positive target point count and a span of at most two days
    per point, the span in minutes is at most the target point count times
    the length of the rate chosen: at the chosen rate the span holds no more
    points than the target. *)
Theorem adaptive_rate_keeps_target (totalDays targetPoints : Z) :
  0 < targetPoints ->
  totalDays * 1440 <= 2880 * targetPoints ->
  totalDays * 1440
  <= UseViewModeData.rungMinutes
       (UseViewModeData.samplingForSpan totalDays targetPoints)
     * targetPoints.
Proof.
  intros Hpos Hspan. unfold UseViewModeData.samplingForSpan.
  rewrite ceilDiv_pos by done. cbn [UseViewModeData.numLeb].
  replace (totalDays * 24 * 60) with (totalDays * 1440) by lia.
  assert (Hceil : - (- (totalDays * 1440) / targetPoints) <= 2880)
    by (apply ceil_le_iff; [done | lia]).
  repeat (match goal with
          | |- context [?a <=? ?b] =>
              destruct (Z.leb_spec a b) as [Hle | ?];
              [apply ceil_le_iff in Hle; [| done];
               change (UseViewModeData.rungMinutes _) with 15 ||
               change (UseViewModeData.rungMinutes _) with 30 ||
               change (UseViewModeData.rungMinutes _) with 60 ||
               change (UseViewModeData.rungMinutes _) with 180 ||
               change (UseViewModeData.rungMinutes _) with 360 ||
               change (UseViewModeData.rungMinutes _) with 720 ||
               change (UseViewModeData.rungMinutes _) with 1440 ||
               change (UseViewModeData.rungMinutes _) with 2880; lia |]
          end).
  lia.
Qed.

Lemma adaptive_rate_keeps_target_witness :
  1612 * 1440
  <= UseViewModeData.rungMinutes (UseViewModeData.samplingForSpan 1612 5000)
     * 5000.
Proof. apply (adaptive_rate_keeps_target 1612 5000); lia. Defined.

Section HookExtras.
Import UseViewModeData.
Context {C : Type} `{SegmentCache C}.

Lemma run_app (h : Hook C) (es1 es2 : list Event) :
  run h (es1 ++ es2) = run (run h es1) es2.
Proof. apply fold_left_app. Qed.

Lemma preloadAdjacentRanges_reported (cl : Closure) (rate : string) (now : Z)
    (h : Hook C) :
  reported (preloadAdjacentRanges cl rate now h) = reported h.
Proof.
  unfold preloadAdjacentRanges.
  assert (Hfold : forall offsets h0,
            reported (fold_left (preloadOne cl rate now) offsets h0)
            = reported h0).
  { induction offsets as [| o offsets IH]; intros h0; cbn [fold_left];
      [done |].
    rewrite IH. unfold preloadOne.
    destruct (offsetRange cl o) as [[offsetStart offsetEnd] |]; [| done].
    by destruct (cacheGet (cache h0) _ now) as [[seg |] c1]. }
  destruct (mode cl); [done | apply Hfold ..].
Qed.

(** One call of [loadData] that misses the cache, up to the request. *)
Lemma invocation_miss (h : Hook C) (cl : Closure) (response : RangeResponse)
    (now : Z) (c1 : C) :
  cacheGet (cache h) (cacheKey cl (resolvedRate cl response)) now = (None, c1) ->
  run h (invocation cl (nextId h) response now)
  = mkHook
      (mkDataState (data (state h)) true None (cacheHit (state h))
         (metadata (state h)))
      c1
      (<[nextId h := AwaitFetch cl (resolvedRate cl response)]> (pending h))
      (S (nextId h))
      ((remote h
        ++ (if isAdaptive cl
            then [RangeRequest (databaseId cl) (wellNumber cl)] else []))
       ++ [PrimaryFetch (databaseId cl) (wellNumber cl)
             (resolvedRate cl response) (startDate cl) (endDate cl)])%list
      (reported h).
Proof.
  unfold invocation, resolvedRate, isAdaptive. intros Hmiss.
  destruct (String.eqb (ViewModes.samplingRate (config cl)) "adaptive") eqn:Had;
    cbn [run fold_left step]; unfold loadData; rewrite Had.
  - unfold resumeRange. cbn [pending]. rewrite lookup_insert_eq.
    unfold resumeCacheGet. cbn [pending cache state nextId remote reported].
    rewrite lookup_insert_eq, Hmiss. f_equal.
    by rewrite !insert_insert_eq.
  - unfold resumeCacheGet. cbn [pending cache state nextId remote reported].
    rewrite lookup_insert_eq, Hmiss. f_equal.
    + by rewrite insert_insert_eq.
    + by rewrite app_nil_r.
Qed.

End HookExtras.

(** X14.  A call of [loadData] that misses the cache and whose request for
    readings fails: the message is published as the error and passed to
    [onError], loading is over, the readings, the hit flag and the metadata
    shown before stay, the cache is as the lookup left it, and the one
    request for readings that was sent is the primary one. *)
Theorem failed_load_keeps_data {C : Type} `{UseViewModeData.SegmentCache C}
    (h : UseViewModeData.Hook C) (cl : UseViewModeData.Closure)
    (response : UseViewModeData.RangeResponse) (now later : Z) (c1 : C)
    (message : string) :
  UseViewModeData.cacheGet (UseViewModeData.cache h)
    (UseViewModeData.cacheKey cl (UseViewModeData.resolvedRate cl response)) now
  = (None, c1) ->
  let id := UseViewModeData.nextId h in
  let h' :=
    UseViewModeData.run h
      (UseViewModeData.invocation cl id response now
       ++ [UseViewModeData.FetchArrives id
             (UseViewModeData.FetchFailed message) later]) in
  UseViewModeData.state h'
  = UseViewModeData.mkDataState
      (UseViewModeData.data (UseViewModeData.state h)) false (Some message)
      (UseViewModeData.cacheHit (UseViewModeData.state h))
      (UseViewModeData.metadata (UseViewModeData.state h))
  /\ UseViewModeData.reported h'
     = (UseViewModeData.reported h ++ [message])%list
  /\ UseViewModeData.cache h' = c1
  /\ UseViewModeData.pending h' !! id = None
  /\ List.filter UseViewModeData.isReadingsFetch
       (drop (List.length (UseViewModeData.remote h))
          (UseViewModeData.remote h'))
     = [UseViewModeData.PrimaryFetch (UseViewModeData.databaseId cl)
          (UseViewModeData.wellNumber cl)
          (UseViewModeData.resolvedRate cl response)
          (UseViewModeData.startDate cl) (UseViewModeData.endDate cl)].
Proof.
  intros Hmiss id h'. unfold h', id.
  rewrite run_app, (invocation_miss _ _ _ _ _ Hmiss).
  cbn [UseViewModeData.run fold_left UseViewModeData.step].
  unfold UseViewModeData.resumeFetch. cbn [UseViewModeData.pending].
  rewrite lookup_insert_eq.
  cbn [UseViewModeData.state UseViewModeData.reported UseViewModeData.cache
       UseViewModeData.pending UseViewModeData.remote UseViewModeData.data
       UseViewModeData.cacheHit UseViewModeData.metadata
       UseViewModeData.nextId].
  split; [done |]. split; [done |]. split; [done |].
  split; [apply lookup_delete_eq |].
  rewrite <- app_assoc, drop_app_length.
  by destruct (UseViewModeData.isAdaptive cl).
Qed.

Lemma failed_load_keeps_data_witness :
  let h := UseViewModeData.initialHook UseViewModeData.emptySegmentStore in
  let h' :=
    UseViewModeData.run h
      (UseViewModeData.invocation UseViewModeData.march2024 0
         UseViewModeData.RangeFailed 1000
       ++ [UseViewModeData.FetchArrives 0
             (UseViewModeData.FetchFailed "HTTP 500: Internal Server Error")
             2000]) in
  UseViewModeData.state h'
  = UseViewModeData.mkDataState [] false
      (Some "HTTP 500: Internal Server Error") false
      (UseViewModeData.metadata UseViewModeData.initialDataState)
  /\ UseViewModeData.reported h'
     = ([] ++ ["HTTP 500: Internal Server Error"])%list
  /\ UseViewModeData.cache h' = UseViewModeData.emptySegmentStore
  /\ UseViewModeData.pending h' !! O = None
  /\ List.filter UseViewModeData.isReadingsFetch
       (drop (List.length (UseViewModeData.remote h))
          (UseViewModeData.remote h'))
     = [UseViewModeData.PrimaryFetch "db1" "W1" "15min"
          (UseViewModeData.startDate UseViewModeData.march2024)
          (UseViewModeData.endDate UseViewModeData.march2024)].
Proof.
  intros h.
  apply (failed_load_keeps_data h UseViewModeData.march2024
           UseViewModeData.RangeFailed 1000 2000
           UseViewModeData.emptySegmentStore).
  vm_compute. reflexivity.
Defined.

(** X15.  A call of [loadData] that misses the cache and whose request for
    readings succeeds: the rows are published with their count and the
    requested dates, not as a cache hit, with loading over and the error
    cleared; nothing is reported to [onError]; exactly one primary request
    was sent; and in the mode [full] the cache is the one after the lookup
    with the segment put in. *)
Theorem missed_load_publishes_rows {C : Type}
    `{UseViewModeData.SegmentCache C}
    (h : UseViewModeData.Hook C) (cl : UseViewModeData.Closure)
    (response : UseViewModeData.RangeResponse) (now later : Z) (c1 : C)
    (rows : list UseViewModeData.WaterLevelReading) :
  UseViewModeData.cacheGet (UseViewModeData.cache h)
    (UseViewModeData.cacheKey cl (UseViewModeData.resolvedRate cl response)) now
  = (None, c1) ->
  let id := UseViewModeData.nextId h in
  let h' :=
    UseViewModeData.run h
      (UseViewModeData.invocation cl id response now
       ++ [UseViewModeData.FetchArrives id
             (UseViewModeData.FetchOk rows) later]) in
  UseViewModeData.state h'
  = UseViewModeData.mkDataState rows false None false
      (UseViewModeData.mkMetadata (Z.of_nat (List.length rows))
         (Some (UseViewModeData.startDate cl, UseViewModeData.endDate cl))
         (UseViewModeData.mkHitStatus false false 1))
  /\ UseViewModeData.reported h' = UseViewModeData.reported h
  /\ UseViewModeData.pending h' !! id = None
  /\ List.filter UseViewModeData.isPrimaryFetch
       (drop (List.length (UseViewModeData.remote h))
          (UseViewModeData.remote h'))
     = [UseViewModeData.PrimaryFetch (UseViewModeData.databaseId cl)
          (UseViewModeData.wellNumber cl)
          (UseViewModeData.resolvedRate cl response)
          (UseViewModeData.startDate cl) (UseViewModeData.endDate cl)]
  /\ (UseViewModeData.mode cl = ViewModes.full ->
      UseViewModeData.cache h'
      = UseViewModeData.cachePut c1
          (UseViewModeData.mkSegment
             (UseViewModeData.cacheKey cl
                (UseViewModeData.resolvedRate cl response))
             (UseViewModeData.wellNumber cl)
             (UseViewModeData.resolvedRate cl response)
             (UseViewModeData.startDate cl) (UseViewModeData.endDate cl)
             rows later later 0)
          later).
Proof.
  intros Hmiss id h'. unfold h', id.
  rewrite run_app, (invocation_miss _ _ _ _ _ Hmiss).
  cbn [UseViewModeData.run fold_left UseViewModeData.step].
  unfold UseViewModeData.resumeFetch. cbn [UseViewModeData.pending].
  rewrite lookup_insert_eq.
  cbn [UseViewModeData.state UseViewModeData.reported UseViewModeData.cache
       UseViewModeData.pending UseViewModeData.remote UseViewModeData.data
       UseViewModeData.cacheHit UseViewModeData.metadata
       UseViewModeData.nextId UseViewModeData.error].
  match goal with
  | |- context [UseViewModeData.preloadAdjacentRanges ?c ?r ?n ?h0] =>
      pose proof (preloadAdjacentRanges_frame c r n h0)
        as (Hst & Hn & Hp & extra & Hr & Hx);
      pose proof (preloadAdjacentRanges_reported c r n h0) as Hrep;
      pose proof (preloadAdjacentRanges_full c r n h0) as Hfull
  end.
  cbn [UseViewModeData.state UseViewModeData.reported UseViewModeData.cache
       UseViewModeData.pending UseViewModeData.remote
       UseViewModeData.nextId] in Hst, Hn, Hp, Hr, Hrep.
  split; [exact Hst |]. split; [exact Hrep |]. split.
  { rewrite Hp by lia. apply lookup_delete_eq. }
  split.
  - rewrite Hr, <- !app_assoc, drop_app_length, !List.filter_app.
    assert (Hnone : List.filter UseViewModeData.isPrimaryFetch extra = []).
    { clear -Hx. induction extra as [| r extra IH]; [done |].
      cbn in Hx. apply andb_prop in Hx as [Hr Hx]. cbn.
      destruct r; try discriminate. by apply IH. }
    rewrite Hnone. by destruct (UseViewModeData.isAdaptive cl).
  - intros Hm. by rewrite (Hfull Hm).
Qed.

Lemma missed_load_publishes_rows_witness :
  let h := UseViewModeData.initialHook UseViewModeData.emptySegmentStore in
  let h' :=
    UseViewModeData.run h
      (UseViewModeData.invocation UseViewModeData.march2024 0
         UseViewModeData.RangeFailed 1000
       ++ [UseViewModeData.FetchArrives 0
             (UseViewModeData.FetchOk [UseViewModeData.readingMarch]) 2000]) in
  UseViewModeData.state h'
  = UseViewModeData.mkDataState [UseViewModeData.readingMarch] false None false
      (UseViewModeData.mkMetadata 1
         (Some (UseViewModeData.startDate UseViewModeData.march2024,
                UseViewModeData.endDate UseViewModeData.march2024))
         (UseViewModeData.mkHitStatus false false 1))
  /\ UseViewModeData.reported h' = []
  /\ UseViewModeData.pending h' !! O = None
  /\ List.filter UseViewModeData.isPrimaryFetch
       (drop (List.length (UseViewModeData.remote h))
          (UseViewModeData.remote h'))
     = [UseViewModeData.PrimaryFetch "db1" "W1" "15min"
          (UseViewModeData.startDate UseViewModeData.march2024)
          (UseViewModeData.endDate UseViewModeData.march2024)]
  /\ (UseViewModeData.mode UseViewModeData.march2024 = ViewModes.full ->
      UseViewModeData.cache h'
      = UseViewModeData.cachePut UseViewModeData.emptySegmentStore
          (UseViewModeData.mkSegment
             (UseViewModeData.cacheKey UseViewModeData.march2024 "15min")
             "W1" "15min"
             (UseViewModeData.startDate UseViewModeData.march2024)
             (UseViewModeData.endDate UseViewModeData.march2024)
             [UseViewModeData.readingMarch] 2000 2000 0)
          2000).
Proof.
  intros h.
  apply (missed_load_publishes_rows h UseViewModeData.march2024
           UseViewModeData.RangeFailed 1000 2000
           UseViewModeData.emptySegmentStore).
  vm_compute. reflexivity.
Defined.

(** X16.  Answers to preload requests, successful or failed, change neither
    the published state nor what was reported to [onError], and send no
    request. *)
Theorem preload_answers_never_publish {C : Type}
    `{UseViewModeData.SegmentCache C}
    (h : UseViewModeData.Hook C) (events : list UseViewModeData.Event) :
  forallb UseViewModeData.isPreloadAnswer events = true ->
  UseViewModeData.state (UseViewModeData.run h events)
  = UseViewModeData.state h
  /\ UseViewModeData.reported (UseViewModeData.run h events)
     = UseViewModeData.reported h
  /\ UseViewModeData.remote (UseViewModeData.run h events)
     = UseViewModeData.remote h.
Proof.
  revert h. induction events as [| e events IH]; intros h Hall; [done |].
  cbn in Hall. apply andb_prop in Hall as [He Hall].
  cbn [UseViewModeData.run fold_left].
  destruct (IH (UseViewModeData.step h e) Hall) as (Hs & Hr & Hm).
  unfold UseViewModeData.run in Hs, Hr, Hm. rewrite Hs, Hr, Hm.
  destruct e as [| | | | id r now]; try discriminate.
  cbn [UseViewModeData.step]. unfold UseViewModeData.resumePreload.
  destruct (UseViewModeData.pending h !! id) as [[] |]; try done.
  by destruct r.
Qed.

Lemma preload_answers_never_publish_witness :
  let h :=
    UseViewModeData.run
      (UseViewModeData.initialHook
         (UseViewModeData.cachePut UseViewModeData.emptySegmentStore
            UseViewModeData.marchSegment 1000))
      (UseViewModeData.invocation UseViewModeData.march2024 0
         UseViewModeData.RangeFailed 2000) in
  let events :=
    [UseViewModeData.PreloadArrives 1
       (UseViewModeData.FetchOk [UseViewModeData.readingApril]) 3000;
     UseViewModeData.PreloadArrives 2
       (UseViewModeData.FetchFailed "HTTP 404: Not Found") 3100] in
  UseViewModeData.state (UseViewModeData.run h events)
  = UseViewModeData.state h
  /\ UseViewModeData.reported (UseViewModeData.run h events)
     = UseViewModeData.reported h
  /\ UseViewModeData.remote (UseViewModeData.run h events)
     = UseViewModeData.remote h.
Proof.
  intros h events. apply (preload_answers_never_publish h events). reflexivity.
Defined.

Section HookInvariants.
Import UseViewModeData.
Context {C : Type} `{SegmentCache C}.

Lemma ratesInv_preload (cl : Closure) (rate : string) (now : Z) (h : Hook C) :
  isLadderRate rate = true ->
  UseViewModeData.ratesInv h -> UseViewModeData.ratesInv (preloadAdjacentRanges cl rate now h).
Proof.
  intros Hrate. unfold preloadAdjacentRanges.
  assert (Hone : forall h0 offset,
            UseViewModeData.ratesInv h0 -> UseViewModeData.ratesInv (preloadOne cl rate now h0 offset)).
  { intros h0 offset [Hp Hr]. unfold preloadOne.
    destruct (offsetRange cl offset) as [[offsetStart offsetEnd] |]; [| done].
    destruct (cacheGet (cache h0) _ now) as [[seg |] c1]; [done |].
    split; cbn [pending remote].
    - intros id p. rewrite lookup_insert.
      destruct (decide (nextId h0 = id)); [| apply Hp].
      intros [= <-]. exact Hrate.
    - rewrite forallb_app, Hr. cbn [forallb andb]. unfold UseViewModeData.rateOnLadder.
      cbn [requestRate].
      by rewrite Hrate. }
  assert (Hfold : forall offsets h0,
            UseViewModeData.ratesInv h0 ->
            UseViewModeData.ratesInv (fold_left (preloadOne cl rate now) offsets h0)).
  { induction offsets as [| o offsets IH]; intros h0 Hinv; cbn [fold_left];
      [done | by apply IH, Hone]. }
  intros Hinv. destruct (mode cl); [done | by apply Hfold ..].
Qed.

Lemma fixed_rate_on_ladder (cl : Closure) :
  String.eqb (ViewModes.samplingRate (config cl)) "adaptive" = false ->
  isLadderRate (ViewModes.samplingRate (config cl)) = true.
Proof. unfold config. by destruct (mode cl). Qed.

Lemma ratesInv_step (h : Hook C) (e : Event) :
  UseViewModeData.ratesInv h -> UseViewModeData.ratesInv (step h e).
Proof.
  intros [Hp Hr]. destruct e as [cl | id r | id now | id r now | id r now];
    cbn [step].
  - unfold loadData.
    destruct (String.eqb _ _) eqn:Had; split; cbn [pending remote].
    + intros id p. rewrite lookup_insert.
      destruct (decide (nextId h = id)); [by intros [= <-] | apply Hp].
    + by rewrite forallb_app, Hr.
    + intros id p. rewrite lookup_insert.
      destruct (decide (nextId h = id)); [| apply Hp].
      intros [= <-]. by apply fixed_rate_on_ladder.
    + done.
  - unfold resumeRange.
    destruct (pending h !! id) as [[] |] eqn:Hq; try done.
    split; cbn [pending remote]; [| done].
    intros id' p. rewrite lookup_insert.
    destruct (decide (id = id')); [| apply Hp].
    intros [= <-]. apply sampling_rate_on_ladder.
  - unfold resumeCacheGet.
    destruct (pending h !! id) as [[| cl rate | |] |] eqn:Hq; try done.
    pose proof (Hp _ _ Hq) as Hrate. unfold UseViewModeData.pendingOnLadder in Hrate.
    cbn [pendingRate] in Hrate.
    destruct (cacheGet (cache h) _ now) as [[seg |] c1].
    + apply ratesInv_preload; [done |]. split; cbn [pending remote]; [| done].
      intros id' p Hl. apply lookup_delete_Some in Hl as [_ Hl].
      by eapply Hp.
    + split; cbn [pending remote].
      * intros id' p. rewrite lookup_insert.
        destruct (decide (id = id')); [| apply Hp]. by intros [= <-].
      * rewrite forallb_app, Hr. cbn [forallb andb]. unfold UseViewModeData.rateOnLadder.
      cbn [requestRate].
        by rewrite Hrate.
  - unfold resumeFetch.
    destruct (pending h !! id) as [[| | cl rate |] |] eqn:Hq; try done.
    pose proof (Hp _ _ Hq) as Hrate. unfold UseViewModeData.pendingOnLadder in Hrate.
    cbn [pendingRate] in Hrate.
    destruct r as [msg | rows].
    + split; cbn [pending remote]; [| done].
      intros id' p Hl. apply lookup_delete_Some in Hl as [_ Hl].
      by eapply Hp.
    + apply ratesInv_preload; [done |]. split; cbn [pending remote]; [| done].
      intros id' p Hl. apply lookup_delete_Some in Hl as [_ Hl].
      by eapply Hp.
  - unfold resumePreload.
    destruct (pending h !! id) as [[] |] eqn:Hq; try done.
    destruct r as [msg | rows]; (split; cbn [pending remote]; [| done]);
      intros id' p Hl; apply lookup_delete_Some in Hl as [_ Hl];
      by eapply Hp.
Qed.

Lemma pendingInFull_mode (p : Pending) :
  UseViewModeData.pendingInFull p = true -> mode (pendingClosure p) = ViewModes.full.
Proof.
  unfold UseViewModeData.pendingInFull. by destruct (mode (pendingClosure p)).
Qed.

Lemma fullInv_step (h : Hook C) (e : Event) :
  loadsFullOnly e = true -> UseViewModeData.fullInv h -> UseViewModeData.fullInv (step h e).
Proof.
  intros He [Hp Hr].
  destruct e as [cl | id r | id now | id r now | id r now]; cbn [step].
  - cbn in He. unfold loadData.
    assert (Hfull : forall p, pendingClosure p = cl -> UseViewModeData.pendingInFull p = true).
    { intros p <-. unfold UseViewModeData.pendingInFull.
      by destruct (mode (pendingClosure p)). }
    destruct (String.eqb _ _) eqn:Had; split; cbn [pending remote].
    + intros id p. rewrite lookup_insert.
      destruct (decide (nextId h = id)); [| apply Hp].
      intros [= <-]. by apply Hfull.
    + by rewrite List.filter_app, Hr.
    + intros id p. rewrite lookup_insert.
      destruct (decide (nextId h = id)); [| apply Hp].
      intros [= <-]. by apply Hfull.
    + done.
  - unfold resumeRange.
    destruct (pending h !! id) as [[] |] eqn:Hq; try done.
    split; cbn [pending remote]; [| done].
    intros id' p. rewrite lookup_insert.
    destruct (decide (id = id')); [| apply Hp].
    intros [= <-]. exact (Hp _ _ Hq).
  - unfold resumeCacheGet.
    destruct (pending h !! id) as [[| cl rate | |] |] eqn:Hq; try done.
    pose proof (pendingInFull_mode _ (Hp _ _ Hq)) as Hm. cbn in Hm.
    destruct (cacheGet (cache h) _ now) as [[seg |] c1].
    + rewrite preloadAdjacentRanges_full by done. split; cbn [pending remote]; [| done].
      intros id' p Hl. apply lookup_delete_Some in Hl as [_ Hl].
      by eapply Hp.
    + split; cbn [pending remote].
      * intros id' p. rewrite lookup_insert.
        destruct (decide (id = id')); [| apply Hp].
        intros [= <-]. exact (Hp _ _ Hq).
      * by rewrite List.filter_app, Hr.
  - unfold resumeFetch.
    destruct (pending h !! id) as [[| | cl rate |] |] eqn:Hq; try done.
    pose proof (pendingInFull_mode _ (Hp _ _ Hq)) as Hm. cbn in Hm.
    destruct r as [msg | rows].
    + split; cbn [pending remote]; [| done].
      intros id' p Hl. apply lookup_delete_Some in Hl as [_ Hl].
      by eapply Hp.
    + rewrite preloadAdjacentRanges_full by done. split; cbn [pending remote]; [| done].
      intros id' p Hl. apply lookup_delete_Some in Hl as [_ Hl].
      by eapply Hp.
  - unfold resumePreload.
    destruct (pending h !! id) as [[] |] eqn:Hq; try done.
    destruct r as [msg | rows]; (split; cbn [pending remote]; [| done]);
      intros id' p Hl; apply lookup_delete_Some in Hl as [_ Hl];
      by eapply Hp.
Qed.

End HookInvariants.

(** X17.  In every state that the hook reaches from its initial one, each
    request for readings that was sent, primary or preload, carries one of
    the nine rates of the ladder; the word [adaptive] is never sent. *)
Theorem requests_carry_ladder_rates {C : Type}
    `{UseViewModeData.SegmentCache C} (c : C)
    (events : list UseViewModeData.Event) :
  forallb UseViewModeData.rateOnLadder
    (UseViewModeData.remote
       (UseViewModeData.run (UseViewModeData.initialHook c) events))
  = true.
Proof.
  assert (Hinit : UseViewModeData.ratesInv (UseViewModeData.initialHook c)) by (by split).
  revert Hinit. generalize (UseViewModeData.initialHook c).
  unfold UseViewModeData.run.
  induction events as [| e events IH]; intros h Hinv; cbn [fold_left].
  - apply Hinv.
  - by apply IH, ratesInv_step.
Qed.

(** X18.  When every call of [loadData] is made in the mode [full], no preload
    request is ever sent, whatever arrives and in whatever order. *)
Theorem full_mode_never_preloads {C : Type}
    `{UseViewModeData.SegmentCache C} (c : C)
    (events : list UseViewModeData.Event) :
  forallb UseViewModeData.loadsFullOnly events = true ->
  List.filter UseViewModeData.isPreloadFetch
    (UseViewModeData.remote
       (UseViewModeData.run (UseViewModeData.initialHook c) events))
  = [].
Proof.
  assert (Hinit : UseViewModeData.fullInv (UseViewModeData.initialHook c)) by (by split).
  revert Hinit. generalize (UseViewModeData.initialHook c).
  unfold UseViewModeData.run.
  induction events as [| e events IH]; intros h Hinv Hall; cbn [fold_left].
  - apply Hinv.
  - cbn in Hall. apply andb_prop in Hall as [He Hall].
    by apply IH; [apply fullInv_step |].
Qed.

Lemma full_mode_never_preloads_witness :
  let cl :=
    UseViewModeData.mkClosure "db1" "W1" ViewModes.full
      (ViewModes.mkRange (JSDate.mkDate 2019 0 1 0 0 0 0)
         (JSDate.mkDate 2024 0 1 0 0 0 0)) in
  List.filter UseViewModeData.isPreloadFetch
    (UseViewModeData.remote
       (UseViewModeData.run
          (UseViewModeData.initialHook UseViewModeData.emptySegmentStore)
          [UseViewModeData.CallLoadData cl;
           UseViewModeData.RangeArrives 0 UseViewModeData.RangeFailed;
           UseViewModeData.CacheAnswers 0 1000;
           UseViewModeData.FetchArrives 0
             (UseViewModeData.FetchOk [UseViewModeData.readingMarch]) 2000]))
  = [].
Proof.
  intros cl.
  apply (full_mode_never_preloads UseViewModeData.emptySegmentStore).
  reflexivity.
Defined.

Section HookCounting.
Import UseViewModeData.
Context {C : Type} `{SegmentCache C}.

Lemma waiting_insert_fresh (m : gmap nat Pending) (id : nat) (p : Pending) :
  m !! id = None ->
  UseViewModeData.waiting (<[id := p]> m) = if UseViewModeData.beforeFetch p then S (UseViewModeData.waiting m) else UseViewModeData.waiting m.
Proof.
  intros Hnone. unfold UseViewModeData.waiting.
  destruct (UseViewModeData.beforeFetch p) eqn:Hb.
  - rewrite map_filter_insert_True by done.
    rewrite map_size_insert_None; [done |].
    apply map_lookup_filter_None. by left.
  - rewrite map_filter_insert_False by (cbn; congruence).
    by rewrite delete_id.
Qed.

Lemma waiting_delete (m : gmap nat Pending) (id : nat) (p : Pending) :
  m !! id = Some p ->
  UseViewModeData.waiting m = if UseViewModeData.beforeFetch p then S (UseViewModeData.waiting (base.delete id m))
              else UseViewModeData.waiting (base.delete id m).
Proof.
  intros Hsome. unfold UseViewModeData.waiting. rewrite map_filter_delete.
  destruct (UseViewModeData.beforeFetch p) eqn:Hb.
  - rewrite map_size_delete_Some; last first.
    { exists p. apply map_lookup_filter_Some. by split. }
    assert (Hpos : size (filter (fun kv : nat * Pending => UseViewModeData.beforeFetch kv.2 = true) m) <> O).
    { intros Hz. apply map_size_empty_inv in Hz.
      assert (Hl : filter (fun kv : nat * Pending => UseViewModeData.beforeFetch kv.2 = true) m !! id = Some p)
        by (apply map_lookup_filter_Some; by split).
      rewrite Hz in Hl. by rewrite lookup_empty in Hl. }
    lia.
  - rewrite delete_id; [done |].
    apply map_lookup_filter_None. right. intros q Hq. cbn. congruence.
Qed.

Lemma waiting_update (m : gmap nat Pending) (id : nat) (p q : Pending) :
  m !! id = Some p ->
  (UseViewModeData.waiting (<[id := q]> m) + (if UseViewModeData.beforeFetch p then 1 else 0)
   = UseViewModeData.waiting m + (if UseViewModeData.beforeFetch q then 1 else 0))%nat.
Proof.
  intros Hsome. rewrite <- insert_delete_eq.
  rewrite waiting_insert_fresh by apply lookup_delete_eq.
  rewrite (waiting_delete m id p Hsome).
  destruct (UseViewModeData.beforeFetch p), (UseViewModeData.beforeFetch q); lia.
Qed.

Lemma counted_preload (cl : Closure) (rate : string) (now : Z) (h : Hook C) :
  pendingBelowNext h ->
  UseViewModeData.counted (preloadAdjacentRanges cl rate now h) = UseViewModeData.counted h.
Proof.
  unfold preloadAdjacentRanges.
  assert (Hone : forall h0 offset,
            pendingBelowNext h0 ->
            pendingBelowNext (preloadOne cl rate now h0 offset)
            /\ UseViewModeData.counted (preloadOne cl rate now h0 offset) = UseViewModeData.counted h0).
  { intros h0 offset Hwf. unfold preloadOne.
    destruct (offsetRange cl offset) as [[offsetStart offsetEnd] |]; [| done].
    destruct (cacheGet (cache h0) _ now) as [[seg |] c1]; [done |].
    split; [by apply pendingBelowNext_insert |].
    unfold UseViewModeData.counted, UseViewModeData.countPrimary, UseViewModeData.countRange. cbn [remote pending].
    rewrite !List.filter_app, !length_app. cbn [List.filter isPrimaryFetch
      UseViewModeData.isRangeRequest List.length].
    rewrite waiting_insert_fresh; [cbn [UseViewModeData.beforeFetch]; f_equal; lia |].
    destruct (pending h0 !! nextId h0) as [p |] eqn:Hp; [| done].
    apply Hwf in Hp. lia. }
  assert (Hfold : forall offsets h0,
            pendingBelowNext h0 ->
            UseViewModeData.counted (fold_left (preloadOne cl rate now) offsets h0)
            = UseViewModeData.counted h0).
  { induction offsets as [| o offsets IH]; intros h0 Hwf; cbn [fold_left];
      [done |].
    destruct (Hone h0 o Hwf) as [Hwf' Heq]. by rewrite IH, Heq. }
  intros Hwf. destruct (mode cl); [done | by apply Hfold ..].
Qed.

Lemma counted_step (h : Hook C) (e : Event) :
  pendingBelowNext h ->
  ((UseViewModeData.counted (step h e)).1 <= (UseViewModeData.counted h).1 + (if UseViewModeData.isCall e then 1 else 0))%nat
  /\ (UseViewModeData.counted (step h e)).2
     = ((UseViewModeData.counted h).2 + (if UseViewModeData.isAdaptiveCall e then 1 else 0))%nat.
Proof.
  intros Hwf.
  assert (Hfresh : pending h !! nextId h = None).
  { destruct (pending h !! nextId h) as [p |] eqn:Hp; [| done].
    apply Hwf in Hp. lia. }
  destruct e as [cl | id r | id now | id r now | id r now];
    cbn [step UseViewModeData.isCall UseViewModeData.isAdaptiveCall].
  - unfold loadData, isAdaptive.
    destruct (String.eqb _ _) eqn:Had;
      unfold UseViewModeData.counted, UseViewModeData.countPrimary, UseViewModeData.countRange; cbn [remote pending fst snd];
      rewrite ?List.filter_app, ?length_app;
      cbn [List.filter isPrimaryFetch UseViewModeData.isRangeRequest List.length];
      rewrite waiting_insert_fresh by done; cbn [UseViewModeData.beforeFetch]; lia.
  - unfold resumeRange.
    destruct (pending h !! id) as [[cl | | |] |] eqn:Hq; try (split; lia).
    unfold UseViewModeData.counted. cbn [remote pending fst snd].
    pose proof (waiting_update (pending h) id _
                  (AwaitCacheGet cl (calculateFullViewSampling (config cl) r))
                  Hq) as Hw.
    cbn [UseViewModeData.beforeFetch] in Hw. lia.
  - unfold resumeCacheGet.
    destruct (pending h !! id) as [[| cl rate | |] |] eqn:Hq;
      try (split; lia).
    destruct (cacheGet (cache h) _ now) as [[seg |] c1].
    + rewrite counted_preload by (by apply pendingBelowNext_delete).
      unfold UseViewModeData.counted. cbn [remote pending fst snd].
      pose proof (waiting_delete (pending h) id _ Hq) as Hw.
      cbn [UseViewModeData.beforeFetch] in Hw. lia.
    + unfold UseViewModeData.counted, UseViewModeData.countPrimary, UseViewModeData.countRange. cbn [remote pending fst snd].
      rewrite !List.filter_app, !length_app.
      cbn [List.filter isPrimaryFetch UseViewModeData.isRangeRequest List.length].
      pose proof (waiting_update (pending h) id _ (AwaitFetch cl rate) Hq)
        as Hw.
      cbn [UseViewModeData.beforeFetch] in Hw. lia.
  - unfold resumeFetch.
    destruct (pending h !! id) as [[| | cl rate |] |] eqn:Hq;
      try (split; lia).
    pose proof (waiting_delete (pending h) id _ Hq) as Hw.
    cbn [UseViewModeData.beforeFetch] in Hw.
    destruct r as [msg | rows].
    + unfold UseViewModeData.counted. cbn [remote pending fst snd]. lia.
    + rewrite counted_preload by (by apply pendingBelowNext_delete).
      unfold UseViewModeData.counted. cbn [remote pending fst snd]. lia.
  - unfold resumePreload.
    destruct (pending h !! id) as [[| | | cl rate s e] |] eqn:Hq;
      try (split; lia).
    pose proof (waiting_delete (pending h) id _ Hq) as Hw.
    cbn [UseViewModeData.beforeFetch] in Hw.
    destruct r as [msg | rows]; unfold UseViewModeData.counted; cbn [remote pending fst snd];
      lia.
Qed.

Lemma counted_run (events : list Event) (h : Hook C) :
  pendingBelowNext h ->
  ((UseViewModeData.counted (run h events)).1
   <= (UseViewModeData.counted h).1 + List.length (List.filter UseViewModeData.isCall events))%nat
  /\ (UseViewModeData.counted (run h events)).2
     = ((UseViewModeData.counted h).2 + List.length (List.filter UseViewModeData.isAdaptiveCall events))%nat.
Proof.
  revert h. induction events as [| e events IH]; intros h Hwf.
  - cbn. lia.
  - cbn [run fold_left List.filter].
    destruct (IH (step h e) (pendingBelowNext_step h e Hwf)) as [H1 H2].
    destruct (counted_step h e Hwf) as [H3 H4].
    unfold run in H1, H2.
    destruct (UseViewModeData.isCall e), (UseViewModeData.isAdaptiveCall e); cbn [List.length]; lia.
Qed.

End HookCounting.

(** X19.  In every state that the hook reaches from its initial one, the
    primary requests sent are at most as many as the calls of [loadData],
    and the range requests sent are as many as the calls made in an adaptive
    mode. *)
Theorem requests_per_call {C : Type} `{UseViewModeData.SegmentCache C}
    (c : C) (events : list UseViewModeData.Event) :
  let h := UseViewModeData.run (UseViewModeData.initialHook c) events in
  (UseViewModeData.countPrimary (UseViewModeData.remote h)
   <= List.length (List.filter UseViewModeData.isCall events))%nat
  /\ UseViewModeData.countRange (UseViewModeData.remote h)
     = List.length (List.filter UseViewModeData.isAdaptiveCall events).
Proof.
  intros h.
  assert (Hinit : UseViewModeData.pendingBelowNext
                    (UseViewModeData.initialHook c)) by (intros id p; done).
  destruct (counted_run events _ Hinit) as [H1 H2].
  unfold UseViewModeData.counted in H1, H2. cbn [fst snd] in H1, H2.
  change (UseViewModeData.remote (UseViewModeData.initialHook c))
    with (@nil UseViewModeData.RemoteCall) in H1, H2.
  change (UseViewModeData.pending (UseViewModeData.initialHook c))
    with (∅ : gmap nat UseViewModeData.Pending) in H1.
  unfold UseViewModeData.countPrimary at 2 in H1. unfold UseViewModeData.countRange at 2 in H2.
  unfold UseViewModeData.waiting at 2 in H1. rewrite map_filter_empty, map_size_empty in H1.
  cbn [List.filter List.length] in H1, H2. fold h in H1, H2. lia.
Qed.
